(** * Health-record versioning and conflict resolution

    A shallow embedding of [backend/app/records/service.py]
    ([HealthRecordsService]) together with the routes of
    [backend/app/records/routes.py] that call it and the models of
    [backend/app/records/schemas.py] they use.

    The Firestore collections are finite maps from document ids to
    documents, the audit collection is the list of entries in the order
    they were added, [datetime.utcnow()] reads an explicit clock, and the
    service methods are computations in a state-and-exception monad over
    that world. *)

From stdpp Require Import base option list sorting gmap strings.
From Stdlib Require Import ZArith Lia.

#[local] Open Scope string_scope.
#[local] Open Scope list_scope.
#[local] Open Scope Z_scope.

(** ** Values and documents *)

(** [Any]: the values a payload ([Dict[str, Any]]) can hold. *)
#[warnings="-register-all"]
Inductive Any :=
| ANone
| ABool (b : bool)
| AInt (z : Z)
| AStr (s : string)
| AList (l : list Any)
| ADict (m : gmap string Any).

Abbreviation Payload := (gmap string Any).

(** A [datetime] is a point on the time line (microseconds since the epoch). *)
Abbreviation datetime := Z (only parsing).

(** A Python [int] has no bound; an integer field of a Firestore document
    is a signed 64-bit number. *)
Definition int64 (z : Z) : Prop := - 2 ^ 63 ≤ z < 2 ^ 63.

#[global] Instance int64_dec z : Decision (int64 z).
Proof. unfold int64. apply _. Defined.

(** [schemas.RecordType]: a [str] enumeration; documents store the [value]. *)
Inductive RecordType :=
| MEDICAL_HISTORY
| PRESCRIPTION
| LAB_REPORT
| VITAL_SIGN
| DIAGNOSIS
| TREATMENT.

Definition RecordType_value (t : RecordType) : string :=
  match t with
  | MEDICAL_HISTORY => "medical_history"
  | PRESCRIPTION => "prescription"
  | LAB_REPORT => "lab_report"
  | VITAL_SIGN => "vital_sign"
  | DIAGNOSIS => "diagnosis"
  | TREATMENT => "treatment"
  end.

Definition RecordType_members : list RecordType :=
  [MEDICAL_HISTORY; PRESCRIPTION; LAB_REPORT; VITAL_SIGN; DIAGNOSIS; TREATMENT].

(** A document of the [health_records] collection.  The field set is the one
    of the dict literal in [create_record] (and of
    [schemas.HealthRecordResponse]); [deleted_at] and [conflict_resolved_at]
    are the two fields that later updates add, absent until then.  The
    service is the only writer of the collection and no update removes a
    field, so a read such as [record.get("version", 0)] always finds the
    field and is the plain projection here. *)
Module HealthRecord.
Record t := mk {
  user_id : string;
  record_type : string;
  data : Payload;
  version : Z;
  created_at : datetime;
  updated_at : datetime;
  created_by : string;
  is_deleted : bool;
  sync_status : string;
  deleted_at : option datetime;
  conflict_resolved_at : option datetime
}.
End HealthRecord.

(** The dict handed to [DocumentReference.update]: the fields it names are
    overwritten, every other field of the stored document is kept. *)
Module Fields.
Record t := mk {
  data : option Payload;
  version : option Z;
  updated_at : option datetime;
  sync_status : option string;
  is_deleted : option bool;
  deleted_at : option datetime;
  conflict_resolved_at : option datetime
}.

Definition apply (f : t) (r : HealthRecord.t) : HealthRecord.t :=
  {| HealthRecord.user_id := HealthRecord.user_id r;
     HealthRecord.record_type := HealthRecord.record_type r;
     HealthRecord.data := default (HealthRecord.data r) (data f);
     HealthRecord.version := default (HealthRecord.version r) (version f);
     HealthRecord.created_at := HealthRecord.created_at r;
     HealthRecord.updated_at := default (HealthRecord.updated_at r) (updated_at f);
     HealthRecord.created_by := HealthRecord.created_by r;
     HealthRecord.is_deleted := default (HealthRecord.is_deleted r) (is_deleted f);
     HealthRecord.sync_status := default (HealthRecord.sync_status r) (sync_status f);
     HealthRecord.deleted_at :=
       match deleted_at f with Some d => Some d | None => HealthRecord.deleted_at r end;
     HealthRecord.conflict_resolved_at :=
       match conflict_resolved_at f with
       | Some d => Some d
       | None => HealthRecord.conflict_resolved_at r
       end |}.
End Fields.

(** What [doc.to_dict()] followed by [record_data["id"] = doc.id] yields:
    the document together with its id. *)
Abbreviation RecordDict := (string * HealthRecord.t)%type.

(** The [data] of an audit entry: one shape per calling site of
    [_create_audit_entry]. *)
Inductive AuditData :=
| AuditRecord (record_data : HealthRecord.t)
| AuditFields (update_fields : Fields.t)
| AuditSoftDelete (soft_delete : bool)
| AuditEmpty
| AuditResolution (chosen_version : Z) (resolved_data : Payload).

Module AuditEntry.
Record t := mk {
  record_id : string;
  action : string;
  user_id : string;
  data : AuditData;
  timestamp : datetime
}.
End AuditEntry.

(** ** The world: two collections and a clock *)

Record World := mkWorld {
  records_collection : gmap string HealthRecord.t;
  audit_collection : list AuditEntry.t;
  clock : nat → datetime;   (* the successive readings of [datetime.utcnow()] *)
  ticks : nat               (* how many readings were taken so far *)
}.

(** The exceptions: the store raises [NotFound] for an [update] of a
    document that does not exist and [InvalidArgument] for a query whose
    [limit] or [offset] is negative; its client raises [ValueError] for an
    integer it cannot encode; [TypeError] is Python's own, for an operation
    on a value of the wrong kind. *)
Inductive Exn :=
| NotFound
| InvalidArgument
| ValueError
| TypeError.

Inductive Result (A : Type) :=
| Ok (a : A)
| Raise (e : Exn).
Arguments Ok {A} a.
Arguments Raise {A} e.

Definition M (A : Type) : Type := World → Result A * World.

Definition ret {A} (a : A) : M A := λ w, (Ok a, w).

Definition bind {A B} (m : M A) (f : A → M B) : M B :=
  λ w, match m w with
       | (Ok a, w') => f a w'
       | (Raise e, w') => (Raise e, w')
       end.

Definition raise {A} (e : Exn) : M A := λ w, (Raise e, w).

Notation "x <- c ;; k" := (bind c (λ x, k))
  (at level 100, c at next level, right associativity).
Notation "c ;;; k" := (bind c (λ _, k))
  (at level 100, right associativity).

(** [datetime.utcnow()] *)
Definition utcnow : M datetime :=
  λ w, (Ok (clock w (ticks w)),
        mkWorld (records_collection w) (audit_collection w) (clock w) (S (ticks w))).

(** ** The document store *)

Module Firestore.

Definition with_records (f : gmap string HealthRecord.t → gmap string HealthRecord.t)
    (w : World) : World :=
  mkWorld (f (records_collection w)) (audit_collection w) (clock w) (ticks w).

(** [collection.document()]: a reference with an auto-generated id, one that
    no document of the collection has. *)
Definition document : M string :=
  λ w, (Ok (fresh (dom (records_collection w))), w).

(** [doc_ref.get()]; [None] stands for a snapshot with [exists == False]. *)
Definition get (id : string) : M (option HealthRecord.t) :=
  λ w, (Ok (records_collection w !! id), w).

(** [doc_ref.set(record_data)] *)
Definition set (id : string) (r : HealthRecord.t) : M unit :=
  λ w, (Ok (), with_records <[id := r]> w).

(** [doc_ref.update(fields)]: fails when the document does not exist. *)
Definition update (id : string) (f : Fields.t) : M unit :=
  λ w, match records_collection w !! id with
       | Some r => (Ok (), with_records <[id := Fields.apply f r]> w)
       | None => (Raise NotFound, w)
       end.

(** [doc_ref.delete()]: deleting an absent document is not an error. *)
Definition delete (id : string) : M unit :=
  λ w, (Ok (), with_records (base.delete id) w).

(** [audit_collection.add(audit_data)] *)
Definition add (e : AuditEntry.t) : M unit :=
  λ w, (Ok (), mkWorld (records_collection w) (audit_collection w ++ [e])
                       (clock w) (ticks w)).

(** The client encodes a document before it sends it, and an integer outside
    64 bits stops the call there with a [ValueError]: nothing of that write
    reaches the store.  [set], [update] and [add] above are the writes of
    documents that can be encoded.  The encoding is a step of its own in
    [resolve_conflict], the method that writes an integer it computed itself
    (the successor of the stored version) and, once the record is rewritten,
    one that no earlier write has encoded ([chosen_version]). *)
Definition encode_integer (z : Z) : M unit :=
  λ w, if decide (int64 z) then (Ok (), w) else (Raise ValueError, w).

(** Queries.  [where_] holds the equality filters, [order_by] a field with
    a direction, [limit] and [offset] the window. *)
Inductive Direction := ASCENDING | DESCENDING.

Record Query := mkQuery {
  where_ : list (HealthRecord.t → bool);
  order_by : option ((HealthRecord.t → Z) * Direction);
  limit : option Z;
  offset : option Z
}.

(** Documents come ordered by the [order_by] field, ties by document id in
    the same direction; without [order_by], by ascending document id. *)
Definition by_name : relation RecordDict :=
  λ a b, String.leb a.1 b.1 = true.

Definition by_field (key : HealthRecord.t → Z) (d : Direction) : relation RecordDict :=
  λ a b,
    match d with
    | ASCENDING => key a.2 < key b.2 ∨ (key a.2 = key b.2 ∧ String.leb a.1 b.1 = true)
    | DESCENDING => key b.2 < key a.2 ∨ (key a.2 = key b.2 ∧ String.leb b.1 a.1 = true)
    end.

#[global] Instance by_name_dec a b : Decision (by_name a b).
Proof. unfold by_name. apply _. Defined.

#[global] Instance by_field_dec key d a b : Decision (by_field key d a b).
Proof. unfold by_field. destruct d; apply _. Defined.

Definition matches (q : Query) (r : HealthRecord.t) : bool :=
  forallb (λ p, p r) (where_ q).

Definition ordered (q : Query) (l : list RecordDict) : list RecordDict :=
  match order_by q with
  | Some (key, d) => merge_sort (by_field key d) l
  | None => merge_sort by_name l
  end.

Definition window (q : Query) (l : list RecordDict) : list RecordDict :=
  let skipped := match offset q with Some n => drop (Z.to_nat n) l | None => l end in
  match limit q with Some n => take (Z.to_nat n) skipped | None => skipped end.

Definition negative (o : option Z) : bool :=
  match o with Some n => n <? 0 | None => false end.

(** [[doc async for doc in query.stream()]] *)
Definition stream (q : Query) : M (list RecordDict) :=
  λ w,
    if negative (limit q) || negative (offset q) then (Raise InvalidArgument, w)
    else
      (Ok (window q (ordered q
             (filter (λ d : RecordDict, matches q d.2 = true)
                     (map_to_list (records_collection w))))), w).

End Firestore.

(** ** The service: [HealthRecordsService] *)

(** The dicts the service returns: either a record with its id, or the
    conflict report [{"id": .., "conflict": True, "server_version": ..,
    "client_version": .., "server_data": ..}] ([create_record] reports no id
    and no [server_data]). *)
Inductive Response :=
| RecordData (record_data : RecordDict)
| Conflict (id : option string) (server_version client_version : Z)
           (server_data : option RecordDict).

(** The dict [list_records] returns. *)
Module RecordList.
Record t := mk {
  records : list RecordDict;
  total : Z;
  page : Z;
  page_size : Z;
  has_more : bool
}.
End RecordList.

Module HealthRecordsService.

Definition where_user_id (user_id : string) : HealthRecord.t → bool :=
  λ r, bool_decide (HealthRecord.user_id r = user_id).
Definition where_record_type (record_type : RecordType) : HealthRecord.t → bool :=
  λ r, bool_decide (HealthRecord.record_type r = RecordType_value record_type).
Definition where_is_deleted (b : bool) : HealthRecord.t → bool :=
  λ r, bool_decide (HealthRecord.is_deleted r = b).
Definition where_sync_status (s : string) : HealthRecord.t → bool :=
  λ r, bool_decide (HealthRecord.sync_status r = s).

(** [_create_audit_entry] *)
Definition _create_audit_entry (record_id action user_id : string) (data : AuditData)
    : M unit :=
  timestamp <- utcnow ;;
  Firestore.add (AuditEntry.mk record_id action user_id data timestamp).

(** [created_by or user_id]: [None] and the empty string are falsy. *)
Definition created_by_or (created_by : option string) (user_id : string) : string :=
  match created_by with
  | Some s => if decide (s = "") then user_id else s
  | None => user_id
  end.

Definition latest_query (user_id : string) (record_type : RecordType) : Firestore.Query :=
  Firestore.mkQuery
    [where_user_id user_id; where_record_type record_type; where_is_deleted false]
    (Some (HealthRecord.version, Firestore.DESCENDING))
    (Some 1)
    None.

(** The dict literal [record_data] of [create_record]. *)
Definition new_record (user_id : string) (record_type : RecordType) (data : Payload)
    (client_version : Z) (created_by : option string) (created_at updated_at : datetime)
    : HealthRecord.t :=
  {| HealthRecord.user_id := user_id;
     HealthRecord.record_type := RecordType_value record_type;
     HealthRecord.data := data;
     HealthRecord.version := client_version;
     HealthRecord.created_at := created_at;
     HealthRecord.updated_at := updated_at;
     HealthRecord.created_by := created_by_or created_by user_id;
     HealthRecord.is_deleted := false;
     HealthRecord.sync_status := "synced";
     HealthRecord.deleted_at := None;
     HealthRecord.conflict_resolved_at := None |}.

(** [create_record] *)
Definition create_record (user_id : string) (record_type : RecordType) (data : Payload)
    (client_version : Z) (created_by : option string) : M Response :=
  let create_new : M Response :=
    created_at <- utcnow ;;
    updated_at <- utcnow ;;
    let record_data :=
      new_record user_id record_type data client_version created_by
                 created_at updated_at in
    doc_ref <- Firestore.document ;;
    Firestore.set doc_ref record_data ;;;
    _create_audit_entry doc_ref "create" user_id (AuditRecord record_data) ;;;
    ret (RecordData (doc_ref, record_data)) in
  if decide (client_version > 1) then
    latest_docs <- Firestore.stream (latest_query user_id record_type) ;;
    match latest_docs with
    | doc :: _ =>
        let latest_version := HealthRecord.version doc.2 in
        if decide (client_version ≤ latest_version) then
          ret (Conflict None latest_version client_version None)
        else create_new
    | [] => create_new
    end
  else create_new.

(** [get_record] *)
Definition get_record (record_id user_id : string) : M (option RecordDict) :=
  doc <- Firestore.get record_id ;;
  match doc with
  | None => ret None
  | Some record_data =>
      if decide (HealthRecord.user_id record_data ≠ user_id) then ret None
      else ret (Some (record_id, record_data))
  end.

Definition list_query (user_id : string) (record_type : option RecordType)
    (include_deleted : bool) : Firestore.Query :=
  Firestore.mkQuery
    ([where_user_id user_id]
     ++ match record_type with Some t => [where_record_type t] | None => [] end
     ++ (if include_deleted then [] else [where_is_deleted false]))
    None None None.

(** The query whose documents [list_records] collects: the filters, ordered
    by [updated_at], newest first, cut to the page. *)
Definition page_query (user_id : string) (record_type : option RecordType)
    (page page_size : Z) (include_deleted : bool) : Firestore.Query :=
  let query := list_query user_id record_type include_deleted in
  let offset := (page - 1) * page_size in
  Firestore.mkQuery (Firestore.where_ query)
    (Some (HealthRecord.updated_at, Firestore.DESCENDING))
    (Some page_size) (Some offset).

(** [sum(1 async for _ in count_query.stream())].  The argument is an
    asynchronous generator; [sum] asks it for an iterator, which it does not
    have, and raises [TypeError].  The generator is never advanced, so the
    count query is not run. *)
Definition sum_of_async_generator (count_query : Firestore.Query) : M Z :=
  raise TypeError.

(** [list_records] *)
Definition list_records (user_id : string) (record_type : option RecordType)
    (page page_size : Z) (include_deleted : bool) : M RecordList.t :=
  let query := page_query user_id record_type page page_size include_deleted in
  records <- Firestore.stream query ;;
  let count_query := list_query user_id record_type include_deleted in
  total <- sum_of_async_generator count_query ;;
  ret (RecordList.mk records total page page_size
         (bool_decide (page * page_size < total))).

(** The dict literal [update_fields] of [update_record]; the payload is
    [{**record.get("data", {}), **update_data}], where the keys of
    [update_data] win. *)
Definition update_fields (record : HealthRecord.t) (update_data : Payload)
    (client_version : Z) (updated_at : datetime) : Fields.t :=
  {| Fields.data := Some (update_data ∪ HealthRecord.data record);
     Fields.version := Some client_version;
     Fields.updated_at := Some updated_at;
     Fields.sync_status := Some "synced";
     Fields.is_deleted := None;
     Fields.deleted_at := None;
     Fields.conflict_resolved_at := None |}.

(** [update_record] *)
Definition update_record (record_id user_id : string) (update_data : Payload)
    (client_version : Z) : M (option Response) :=
  record <- get_record record_id user_id ;;
  match record with
  | None => ret None
  | Some record =>
      let server_version := HealthRecord.version record.2 in
      if decide (client_version ≤ server_version) then
        ret (Some (Conflict (Some record_id) server_version client_version (Some record)))
      else
        updated_at <- utcnow ;;
        let update_fields := update_fields record.2 update_data client_version updated_at in
        Firestore.update record_id update_fields ;;;
        _create_audit_entry record_id "update" user_id (AuditFields update_fields) ;;;
        updated_record <- get_record record_id user_id ;;
        ret (RecordData <$> updated_record)
  end.

(** The dict literal of the soft delete. *)
Definition soft_delete_fields (deleted_at updated_at : datetime) : Fields.t :=
  {| Fields.data := None;
     Fields.version := None;
     Fields.updated_at := Some updated_at;
     Fields.sync_status := None;
     Fields.is_deleted := Some true;
     Fields.deleted_at := Some deleted_at;
     Fields.conflict_resolved_at := None |}.

(** [delete_record] *)
Definition delete_record (record_id user_id : string) (soft_delete : bool) : M bool :=
  record <- get_record record_id user_id ;;
  match record with
  | None => ret false
  | Some _ =>
      (if soft_delete then
         deleted_at <- utcnow ;;
         updated_at <- utcnow ;;
         Firestore.update record_id (soft_delete_fields deleted_at updated_at) ;;;
         _create_audit_entry record_id "delete" user_id (AuditSoftDelete true)
       else
         Firestore.delete record_id ;;;
         _create_audit_entry record_id "hard_delete" user_id AuditEmpty) ;;;
      ret true
  end.

(** [schemas.ConflictResolutionRequest] *)
Record ConflictResolutionRequest := mkConflictResolutionRequest {
  record_id : string;
  chosen_version : Z;
  resolved_data : Payload
}.

(** The dict literal [resolved_data] of [resolve_conflict]. *)
Definition resolved_fields (record : HealthRecord.t)
    (conflict_request : ConflictResolutionRequest)
    (updated_at conflict_resolved_at : datetime) : Fields.t :=
  {| Fields.data := Some (resolved_data conflict_request);
     Fields.version := Some (HealthRecord.version record + 1);
     Fields.updated_at := Some updated_at;
     Fields.sync_status := Some "synced";
     Fields.is_deleted := None;
     Fields.deleted_at := None;
     Fields.conflict_resolved_at := Some conflict_resolved_at |}.

(** [resolve_conflict].  The [update] encodes [version + 1]; the audit entry
    is made as in [_create_audit_entry], its [add] encoding
    [chosen_version]. *)
Definition resolve_conflict (conflict_request : ConflictResolutionRequest)
    (user_id : string) : M (option RecordDict) :=
  record <- get_record (record_id conflict_request) user_id ;;
  match record with
  | None => ret None
  | Some record =>
      updated_at <- utcnow ;;
      conflict_resolved_at <- utcnow ;;
      let resolved :=
        resolved_fields record.2 conflict_request updated_at conflict_resolved_at in
      Firestore.encode_integer (HealthRecord.version record.2 + 1) ;;;
      Firestore.update (record_id conflict_request) resolved ;;;
      timestamp <- utcnow ;;
      Firestore.encode_integer (chosen_version conflict_request) ;;;
      Firestore.add
        (AuditEntry.mk (record_id conflict_request) "resolve_conflict" user_id
           (AuditResolution (chosen_version conflict_request)
                            (resolved_data conflict_request))
           timestamp) ;;;
      get_record (record_id conflict_request) user_id
  end.

(** [get_pending_sync_records] *)
Definition get_pending_sync_records (user_id : string) : M (list RecordDict) :=
  Firestore.stream
    (Firestore.mkQuery [where_user_id user_id; where_sync_status "pending"]
                       None None None).

End HealthRecordsService.

(** ** The routes that take a client version *)

(** [schemas.MedicalHistoryCreate], after parsing: the only declared
    constraint is [min_length=1] on [title]. *)
Module MedicalHistoryCreate.
Record t := mk {
  title : string;
  description : string;
  condition : option string;
  diagnosis_date : option datetime;
  doctor_name : option string;
  hospital_name : option string;
  attachments : list string;
  metadata : Payload;
  client_version : Z
}.

Definition validate (record : t) : bool :=
  bool_decide (1 ≤ String.length (title record))%nat.
End MedicalHistoryCreate.

Inductive HTTPResponse :=
| HTTP_200_OK (body : RecordDict)
| HTTP_201_CREATED (body : RecordDict)
| HTTP_404_NOT_FOUND
| HTTP_409_CONFLICT (server_version client_version : Z) (server_data : option RecordDict)
| HTTP_422_UNPROCESSABLE_ENTITY
| HTTP_500_INTERNAL_SERVER_ERROR.

Module Routes.

(** [try: ... except Exception: raise HTTPException(500)] *)
Definition try_except (m : M HTTPResponse) : M HTTPResponse :=
  λ w, match m w with
       | (Ok r, w') => (Ok r, w')
       | (Raise _, w') => (Ok HTTP_500_INTERNAL_SERVER_ERROR, w')
       end.

(** The fields [schemas.HealthRecordResponse] declares: [id], [user_id],
    [record_type], [data], [version], [created_at], [updated_at],
    [created_by], [is_deleted] and [sync_status].  A key of the record dict
    that the response model does not declare is ignored, so [deleted_at]
    and [conflict_resolved_at] are not in the body. *)
Definition response_fields (r : HealthRecord.t) : HealthRecord.t :=
  {| HealthRecord.user_id := HealthRecord.user_id r;
     HealthRecord.record_type := HealthRecord.record_type r;
     HealthRecord.data := HealthRecord.data r;
     HealthRecord.version := HealthRecord.version r;
     HealthRecord.created_at := HealthRecord.created_at r;
     HealthRecord.updated_at := HealthRecord.updated_at r;
     HealthRecord.created_by := HealthRecord.created_by r;
     HealthRecord.is_deleted := HealthRecord.is_deleted r;
     HealthRecord.sync_status := HealthRecord.sync_status r;
     HealthRecord.deleted_at := None;
     HealthRecord.conflict_resolved_at := None |}.

(** The response model built from the record dict: [record_type] has to be
    the value of a member of [RecordType]; the other fields have their
    types already. *)
Definition HealthRecordResponse (record : RecordDict) : option RecordDict :=
  if bool_decide (HealthRecord.record_type record.2 ∈ RecordType_value <$> RecordType_members)
  then Some (record.1, response_fields record.2) else None.

(** The answer to [raise HTTPException(status_code=409, detail=...)].  The
    [detail] is rendered as JSON.  The detail of a create conflict holds two
    integers.  That of an update conflict holds [server_data] too, the
    record dict, whose [created_at] and [updated_at] are [datetime] objects:
    the JSON encoder raises on them while the 409 is rendered, and the
    request is answered 500. *)
Definition conflict_response (server_version client_version : Z)
    (server_data : option RecordDict) : HTTPResponse :=
  match server_data with
  | Some _ => HTTP_500_INTERNAL_SERVER_ERROR
  | None => HTTP_409_CONFLICT server_version client_version None
  end.

Definition optional_str (o : option string) : Any :=
  match o with Some s => AStr s | None => ANone end.

Section create.
(** [datetime.isoformat], left abstract. *)
Variable isoformat : datetime → string.

(** [create_medical_history]; [user_id] is what [require_role] yields. *)
Definition create_medical_history (record : MedicalHistoryCreate.t) (user_id : string)
    : M HTTPResponse :=
  if negb (MedicalHistoryCreate.validate record) then ret HTTP_422_UNPROCESSABLE_ENTITY
  else
    try_except (
      let record_data : Payload :=
        list_to_map
          [("title", AStr (MedicalHistoryCreate.title record));
           ("description", AStr (MedicalHistoryCreate.description record));
           ("condition", optional_str (MedicalHistoryCreate.condition record));
           ("diagnosis_date",
             optional_str (isoformat <$> MedicalHistoryCreate.diagnosis_date record));
           ("doctor_name", optional_str (MedicalHistoryCreate.doctor_name record));
           ("hospital_name", optional_str (MedicalHistoryCreate.hospital_name record));
           ("attachments", AList (AStr <$> MedicalHistoryCreate.attachments record));
           ("metadata", ADict (MedicalHistoryCreate.metadata record))] in
      created <- HealthRecordsService.create_record user_id MEDICAL_HISTORY record_data
                   (MedicalHistoryCreate.client_version record) (Some user_id) ;;
      match created with
      | Conflict _ server_version client_version _ =>
          ret (HTTP_409_CONFLICT server_version client_version None)
      | RecordData created =>
          match HealthRecordResponse created with
          | Some body => ret (HTTP_201_CREATED body)
          | None => ret HTTP_500_INTERNAL_SERVER_ERROR
          end
      end).
End create.

(** [update_record]: [client_version: int = Query(..., ge=1)] *)
Definition update_record (record_id : string) (update_data : Payload) (client_version : Z)
    (user_id : string) : M HTTPResponse :=
  if negb (bool_decide (1 ≤ client_version)) then ret HTTP_422_UNPROCESSABLE_ENTITY
  else
    try_except (
      updated <- HealthRecordsService.update_record record_id user_id update_data
                   client_version ;;
      match updated with
      | None => ret HTTP_404_NOT_FOUND
      | Some (Conflict _ server_version client_version server_data) =>
          ret (conflict_response server_version client_version server_data)
      | Some (RecordData updated) =>
          match HealthRecordResponse updated with
          | Some body => ret (HTTP_200_OK body)
          | None => ret HTTP_500_INTERNAL_SERVER_ERROR
          end
      end).

End Routes.

(** ** The suspension points of [update_record]

    [update_record] awaits the store four times: the read in [get_record],
    the [update], the [add] of the audit entry and the closing [get_record].
    Between two awaits the coroutine runs alone; at an await another request
    may run.  [Coroutine.t] is the coroutine stopped at such a point. *)
Module Coroutine.

Inductive t :=
| Start (record_id user_id : string) (update_data : Payload) (client_version : Z)
| Update (record_id user_id : string) (update_fields : Fields.t)
| Audit (record_id user_id : string) (update_fields : Fields.t)
| Reread (record_id user_id : string)
| Return (r : Result (option Response)).

(** Run up to the next suspension point. *)
Definition step (c : t) (w : World) : t * World :=
  match c with
  | Start record_id user_id update_data client_version =>
      match HealthRecordsService.get_record record_id user_id w with
      | (Ok None, w') => (Return (Ok None), w')
      | (Ok (Some record), w') =>
          let server_version := HealthRecord.version record.2 in
          if decide (client_version ≤ server_version) then
            (Return (Ok (Some (Conflict (Some record_id) server_version client_version
                                        (Some record)))), w')
          else
            match utcnow w' with
            | (Ok updated_at, w'') =>
                (Update record_id user_id
                   (HealthRecordsService.update_fields record.2 update_data
                      client_version updated_at), w'')
            | (Raise e, w'') => (Return (Raise e), w'')
            end
      | (Raise e, w') => (Return (Raise e), w')
      end
  | Update record_id user_id update_fields =>
      match Firestore.update record_id update_fields w with
      | (Ok _, w') => (Audit record_id user_id update_fields, w')
      | (Raise e, w') => (Return (Raise e), w')
      end
  | Audit record_id user_id update_fields =>
      match HealthRecordsService._create_audit_entry record_id "update" user_id
              (AuditFields update_fields) w with
      | (Ok _, w') => (Reread record_id user_id, w')
      | (Raise e, w') => (Return (Raise e), w')
      end
  | Reread record_id user_id =>
      match HealthRecordsService.get_record record_id user_id w with
      | (Ok updated_record, w') => (Return (Ok (RecordData <$> updated_record)), w')
      | (Raise e, w') => (Return (Raise e), w')
      end
  | Return r => (Return r, w)
  end.

Fixpoint run (fuel : nat) (c : t) (w : World) : t * World :=
  match fuel with
  | O => (c, w)
  | S fuel => let '(c', w') := step c w in run fuel c' w'
  end.

(** Two requests in flight; the schedule says whose turn it is, [false]
    for the first request and [true] for the second. *)
Fixpoint interleave (schedule : list bool) (a b : t) (w : World) : t * t * World :=
  match schedule with
  | [] => (a, b, w)
  | false :: schedule => let '(a', w') := step a w in interleave schedule a' b w'
  | true :: schedule => let '(b', w') := step b w in interleave schedule a b' w'
  end.

Definition succeeded (c : t) : bool :=
  match c with Return (Ok (Some (RecordData _))) => true | _ => false end.

Definition conflicted (server_version : Z) (c : t) : bool :=
  match c with
  | Return (Ok (Some (Conflict _ v _ _))) => bool_decide (v = server_version)
  | _ => false
  end.

Definition returned (c : t) : bool :=
  match c with Return _ => true | _ => false end.

(** Of two finished requests, exactly one succeeded and the other got a
    Conflict that carries [winner_version]. *)
Definition exactly_one_succeeds (winner_version : Z) (a b : t) : bool :=
  (succeeded a && conflicted winner_version b)
  || (succeeded b && conflicted winner_version a).

End Coroutine.

(** ** The suspension points of [create_record]

    [create_record] awaits the store up to three times: the query for the
    latest version (only when [client_version > 1]), the [set] and the [add]
    of the audit entry.  [document()] draws a random id; what the service
    relies on is that no document has it, also none that another request
    stores before this one's [set] is done, so the id is drawn here when the
    [set] runs. *)
Module Creating.

Inductive t :=
| Start (user_id : string) (record_type : RecordType) (data : Payload)
    (client_version : Z) (created_by : option string)
| Store (user_id : string) (record_data : HealthRecord.t)
| Audit (doc_ref user_id : string) (record_data : HealthRecord.t)
| Return (r : Result Response).

(** From the dict literal [record_data] to the [await] of the [set]. *)
Definition create_new (user_id : string) (record_type : RecordType) (data : Payload)
    (client_version : Z) (created_by : option string) (w : World) : t * World :=
  match utcnow w with
  | (Ok created_at, w') =>
      match utcnow w' with
      | (Ok updated_at, w'') =>
          (Store user_id
             (HealthRecordsService.new_record user_id record_type data client_version
                created_by created_at updated_at), w'')
      | (Raise e, w'') => (Return (Raise e), w'')
      end
  | (Raise e, w') => (Return (Raise e), w')
  end.

(** Run up to the next suspension point. *)
Definition step (c : t) (w : World) : t * World :=
  match c with
  | Start user_id record_type data client_version created_by =>
      if decide (client_version > 1) then
        match Firestore.stream (HealthRecordsService.latest_query user_id record_type) w with
        | (Ok (doc :: _), w') =>
            let latest_version := HealthRecord.version doc.2 in
            if decide (client_version ≤ latest_version) then
              (Return (Ok (Conflict None latest_version client_version None)), w')
            else create_new user_id record_type data client_version created_by w'
        | (Ok [], w') => create_new user_id record_type data client_version created_by w'
        | (Raise e, w') => (Return (Raise e), w')
        end
      else create_new user_id record_type data client_version created_by w
  | Store user_id record_data =>
      match Firestore.document w with
      | (Ok doc_ref, w') =>
          match Firestore.set doc_ref record_data w' with
          | (Ok _, w'') => (Audit doc_ref user_id record_data, w'')
          | (Raise e, w'') => (Return (Raise e), w'')
          end
      | (Raise e, w') => (Return (Raise e), w')
      end
  | Audit doc_ref user_id record_data =>
      match HealthRecordsService._create_audit_entry doc_ref "create" user_id
              (AuditRecord record_data) w with
      | (Ok _, w') => (Return (Ok (RecordData (doc_ref, record_data))), w')
      | (Raise e, w') => (Return (Raise e), w')
      end
  | Return r => (Return r, w)
  end.

Fixpoint run (fuel : nat) (c : t) (w : World) : t * World :=
  match fuel with
  | O => (c, w)
  | S fuel => let '(c', w') := step c w in run fuel c' w'
  end.

(** Two requests in flight; [false] schedules the first, [true] the second. *)
Fixpoint interleave (schedule : list bool) (a b : t) (w : World) : t * t * World :=
  match schedule with
  | [] => (a, b, w)
  | false :: schedule => let '(a', w') := step a w in interleave schedule a' b w'
  | true :: schedule => let '(b', w') := step b w in interleave schedule a b' w'
  end.

Definition returned (c : t) : bool :=
  match c with Return _ => true | _ => false end.

Definition created (c : t) : bool :=
  match c with Return (Ok (RecordData _)) => true | _ => false end.

Definition conflicted (server_version : Z) (c : t) : bool :=
  match c with
  | Return (Ok (Conflict _ v _ _)) => bool_decide (v = server_version)
  | _ => false
  end.

End Creating.

(** ** Vocabulary of the specification *)

Module Spec.

(** The Version Guard, in the words of the specification: accept iff
    [client_version > server_version], or no prior version exists.  The
    service has no such function; [create_record] and [update_record] each
    write their own comparison. *)
Definition version_guard (client_version : Z) (server_version : option Z) : bool :=
  match server_version with
  | None => true
  | Some server_version => bool_decide (client_version > server_version)
  end.

(** A non-deleted record of the pair [(owner_id, record_type)]. *)
Definition of_pair (owner_id : string) (record_type : RecordType) (r : HealthRecord.t)
    : Prop :=
  HealthRecord.user_id r = owner_id
  ∧ HealthRecord.record_type r = RecordType_value record_type
  ∧ HealthRecord.is_deleted r = false.

#[global] Instance of_pair_dec owner_id record_type r :
  Decision (of_pair owner_id record_type r).
Proof. unfold of_pair. apply _. Defined.

Definition max_version (versions : list Z) : option Z :=
  foldr (λ v acc, Some (match acc with Some a => Z.max v a | None => v end)) None versions.

(** The latest existing version of the pair among non-deleted records;
    [None] when the pair has no such record. *)
Definition latest_existing_version (w : World) (owner_id : string)
    (record_type : RecordType) : option Z :=
  max_version
    (HealthRecord.version <$>
       filter (of_pair owner_id record_type) (map_to_list (records_collection w)).*2).

Definition is_conflict {E} (r : Result Response * E) : bool :=
  match r.1 with Ok (Conflict _ _ _ _) => true | _ => false end.

Definition is_conflict_opt {E} (r : Result (option Response) * E) : bool :=
  match r.1 with Ok (Some (Conflict _ _ _ _)) => true | _ => false end.

(** The record [owner] may see under [record_id]. *)
Definition owned (w : World) (record_id owner : string) : option RecordDict :=
  match records_collection w !! record_id with
  | Some r => if decide (HealthRecord.user_id r = owner) then Some (record_id, r) else None
  | None => None
  end.

End Spec.

(** ** Sequences of calls *)

Inductive Call :=
| CreateRecord (user_id : string) (record_type : RecordType) (data : Payload)
    (client_version : Z) (created_by : option string)
| GetRecord (record_id user_id : string)
| ListRecords (user_id : string) (record_type : option RecordType) (page page_size : Z)
    (include_deleted : bool)
| UpdateRecord (record_id user_id : string) (update_data : Payload) (client_version : Z)
| DeleteRecord (record_id user_id : string) (soft_delete : bool)
| ResolveConflict (conflict_request : HealthRecordsService.ConflictResolutionRequest)
    (user_id : string)
| GetPendingSyncRecords (user_id : string).

Inductive Reply :=
| Created (r : Response)
| Got (r : option RecordDict)
| Listed (r : RecordList.t)
| Updated (r : option Response)
| Deleted (r : bool)
| Resolved (r : option RecordDict)
| Pending (r : list RecordDict).

Definition call (c : Call) : M Reply :=
  match c with
  | CreateRecord user_id record_type data client_version created_by =>
      r <- HealthRecordsService.create_record user_id record_type data client_version
             created_by ;; ret (Created r)
  | GetRecord record_id user_id =>
      r <- HealthRecordsService.get_record record_id user_id ;; ret (Got r)
  | ListRecords user_id record_type page page_size include_deleted =>
      r <- HealthRecordsService.list_records user_id record_type page page_size
             include_deleted ;; ret (Listed r)
  | UpdateRecord record_id user_id update_data client_version =>
      r <- HealthRecordsService.update_record record_id user_id update_data
             client_version ;; ret (Updated r)
  | DeleteRecord record_id user_id soft_delete =>
      r <- HealthRecordsService.delete_record record_id user_id soft_delete ;;
      ret (Deleted r)
  | ResolveConflict conflict_request user_id =>
      r <- HealthRecordsService.resolve_conflict conflict_request user_id ;;
      ret (Resolved r)
  | GetPendingSyncRecords user_id =>
      r <- HealthRecordsService.get_pending_sync_records user_id ;; ret (Pending r)
  end.

(** An accepted write to [record_id]: an update or a conflict resolution of
    that record which returned the record. *)
Definition accepted_write (record_id : string) (c : Call) (r : Result Reply) : bool :=
  match c, r with
  | UpdateRecord id _ _ _, Ok (Updated (Some (RecordData _))) => bool_decide (id = record_id)
  | ResolveConflict req _, Ok (Resolved (Some _)) =>
      bool_decide (HealthRecordsService.record_id req = record_id)
  | _, _ => false
  end.

(** The version stored under [record_id] after each call of a sequence, for
    as long as the document exists. *)
Fixpoint version_history (record_id : string) (calls : list Call) (w : World) : list Z :=
  match calls with
  | [] => []
  | c :: calls =>
      let '(_, w') := call c w in
      match records_collection w' !! record_id with
      | Some r => HealthRecord.version r :: version_history record_id calls w'
      | None => []
      end
  end.

(** The same, keeping only the versions that accepted writes stored. *)
Fixpoint accepted_versions (record_id : string) (calls : list Call) (w : World) : list Z :=
  match calls with
  | [] => []
  | c :: calls =>
      let '(r, w') := call c w in
      match records_collection w' !! record_id with
      | Some rec =>
          (if accepted_write record_id c r then [HealthRecord.version rec] else [])
          ++ accepted_versions record_id calls w'
      | None => []
      end
  end.

(** ** Outcomes, spelled out *)

Module Outcome.

(** The record [create_record] stores and the world it leaves when it does
    not report a conflict. *)
Definition created (user_id : string) (record_type : RecordType) (data : Payload)
    (client_version : Z) (created_by : option string) (w : World)
    : Result Response * World :=
  let doc_ref := fresh (dom (records_collection w)) in
  let record_data :=
    HealthRecordsService.new_record user_id record_type data client_version created_by
      (clock w (ticks w)) (clock w (S (ticks w))) in
  (Ok (RecordData (doc_ref, record_data)),
   mkWorld (<[doc_ref := record_data]> (records_collection w))
           (audit_collection w
              ++ [AuditEntry.mk doc_ref "create" user_id (AuditRecord record_data)
                                (clock w (S (S (ticks w))))])
           (clock w) (S (S (S (ticks w))))).

End Outcome.

(** ** Concrete scenarios *)

Module Scenario.

Definition clock0 : nat → datetime := λ n, 1000 + Z.of_nat n.

Definition empty_world : World := mkWorld ∅ [] clock0 0.

Definition asthma : Payload := {[ "title" := AStr "asthma" ]}.

(** The record of a first medical-history write by [alice], version 1. *)
Definition record1 : HealthRecord.t :=
  HealthRecordsService.new_record "alice" MEDICAL_HISTORY asthma 1 None 1000 1001.

(** The world once that record is created. *)
Definition world1 : World :=
  mkWorld {[ "0" := record1 ]}
          [AuditEntry.mk "0" "create" "alice" (AuditRecord record1) 1002]
          clock0 3.

(** The same world once the record is soft-deleted. *)
Definition record1_deleted : HealthRecord.t :=
  Fields.apply (HealthRecordsService.soft_delete_fields 1003 1004) record1.

Definition world1_deleted : World :=
  mkWorld {[ "0" := record1_deleted ]}
          [AuditEntry.mk "0" "create" "alice" (AuditRecord record1) 1002;
           AuditEntry.mk "0" "delete" "alice" (AuditSoftDelete true) 1005]
          clock0 6.

Definition dosage : Payload := {[ "dosage" := AStr "200mg" ]}.

Definition inhaler : Payload := {[ "inhaler" := AStr "twice a day" ]}.

(** Two requests read before either writes. *)
Definition racing : list bool := [false; true; false; false; false; true; true; true].

(** Two create requests query before either stores its record. *)
Definition racing_creates : list bool := [false; true; false; false; true; true].

(** A conflict resolution whose [chosen_version] does not fit in 64 bits. *)
Definition chosen_too_large : HealthRecordsService.ConflictResolutionRequest :=
  HealthRecordsService.mkConflictResolutionRequest "0" (2 ^ 63) dosage.



(** A create request that passes validation, with [client_version = 0]. *)
Definition version_zero : MedicalHistoryCreate.t :=
  MedicalHistoryCreate.mk "asthma" "since childhood" None None None None [] ∅ 0.

(** A world whose only record of the pair is at version 3. *)
Definition world3 : World :=
  mkWorld {[ "0" := HealthRecordsService.new_record "alice" MEDICAL_HISTORY asthma 3
                      None 1000 1001 ]} [] clock0 3.

End Scenario.

(** ** Whole histories *)

(** The user a call is made for. *)
Definition caller (c : Call) : string :=
  match c with
  | CreateRecord user_id _ _ _ _ => user_id
  | GetRecord _ user_id => user_id
  | ListRecords user_id _ _ _ _ => user_id
  | UpdateRecord _ user_id _ _ => user_id
  | DeleteRecord _ user_id _ => user_id
  | ResolveConflict _ user_id => user_id
  | GetPendingSyncRecords user_id => user_id
  end.

(** The world after a sequence of calls. *)
Fixpoint run_calls (calls : list Call) (w : World) : World :=
  match calls with
  | [] => w
  | c :: calls => run_calls calls (call c w).2
  end.

(** The reply of a write that went through: a record was created, updated,
    deleted or resolved. *)
Definition written (r : Result Reply) : bool :=
  match r with
  | Ok (Created (RecordData _)) => true
  | Ok (Updated (Some (RecordData _))) => true
  | Ok (Deleted true) => true
  | Ok (Resolved (Some _)) => true
  | _ => false
  end.

(** The document stored under [record_id] after each call of a sequence, for
    as long as it exists. *)
Fixpoint record_history (record_id : string) (calls : list Call) (w : World)
    : list HealthRecord.t :=
  match calls with
  | [] => []
  | c :: calls =>
      let '(_, w') := call c w in
      match records_collection w' !! record_id with
      | Some r => r :: record_history record_id calls w'
      | None => []
      end
  end.

(** Every stored document has the [sync_status] the service writes. *)
Definition all_synced (w : World) : Prop :=
  ∀ id r, records_collection w !! id = Some r → HealthRecord.sync_status r = "synced".

(** Every stored document has the value of a [RecordType] member as its
    [record_type]. *)
Definition typed (w : World) : Prop :=
  ∀ id r, records_collection w !! id = Some r →
          HealthRecord.record_type r ∈ RecordType_value <$> RecordType_members.

(** A clock that never runs backwards. *)
Definition clock_monotone (w : World) : Prop :=
  ∀ i j : nat, (i ≤ j)%nat → clock w i ≤ clock w j.

(** ** The changes a call can make *)

(** [Change user w reply w']: what a call made for [user] in world [w] can
    answer and leave behind.  Either nothing was written and the world is the
    same; or one document was stored under an id the collection did not
    have; or one document of [user] was patched; or one document of [user]
    was removed.  Each of these writes appends one audit entry and reads the
    clock.  A call that raises while it encodes an integer has read the
    clock, and has either written nothing or patched one document of [user]
    without an audit entry. *)
Inductive Change (user : string) (w : World) : Result Reply → World → Prop :=
| Unchanged reply :
    written reply = false →
    Change user w reply w
| Stored id r e n reply :
    records_collection w !! id = None →
    HealthRecord.user_id r = user →
    HealthRecord.sync_status r = "synced" →
    HealthRecord.is_deleted r = false →
    HealthRecord.record_type r ∈ RecordType_value <$> RecordType_members →
    AuditEntry.record_id e = id → AuditEntry.user_id e = user →
    AuditEntry.action e = "create" →
    written (Ok reply) = true →
    Change user w (Ok reply)
      (mkWorld (<[id := r]> (records_collection w)) (audit_collection w ++ [e])
               (clock w) (ticks w + n))
| Patched id r fields e n reply :
    records_collection w !! id = Some r →
    HealthRecord.user_id r = user →
    Fields.is_deleted fields ≠ Some false →
    (Fields.sync_status fields = None ∨ Fields.sync_status fields = Some "synced") →
    (∀ v, Fields.version fields = Some v → HealthRecord.version r < v) →
    AuditEntry.record_id e = id → AuditEntry.user_id e = user →
    AuditEntry.action e ∈ ["update"; "delete"; "resolve_conflict"] →
    written (Ok reply) = true →
    Change user w (Ok reply)
      (mkWorld (<[id := Fields.apply fields r]> (records_collection w))
               (audit_collection w ++ [e]) (clock w) (ticks w + n))
| Removed id r e n reply :
    records_collection w !! id = Some r →
    HealthRecord.user_id r = user →
    AuditEntry.record_id e = id → AuditEntry.user_id e = user →
    AuditEntry.action e = "hard_delete" →
    written (Ok reply) = true →
    Change user w (Ok reply)
      (mkWorld (delete id (records_collection w)) (audit_collection w ++ [e])
               (clock w) (ticks w + n))
| Refused n exn :
    Change user w (Raise exn)
      (mkWorld (records_collection w) (audit_collection w) (clock w) (ticks w + n))
| Unaudited id r fields n exn :
    records_collection w !! id = Some r →
    HealthRecord.user_id r = user →
    Fields.is_deleted fields ≠ Some false →
    (Fields.sync_status fields = None ∨ Fields.sync_status fields = Some "synced") →
    (∀ v, Fields.version fields = Some v → HealthRecord.version r < v) →
    Change user w (Raise exn)
      (mkWorld (<[id := Fields.apply fields r]> (records_collection w))
               (audit_collection w) (clock w) (ticks w + n)).

(** ** The other routes *)

(** [schemas.PrescriptionCreate], after parsing ([prescribed_date] holds the
    date given or the default). *)
Module PrescriptionCreate.
Record t := mk {
  doctor_id : option string;
  doctor_name : string;
  medications : list Payload;
  instructions : option string;
  prescribed_date : datetime;
  valid_until : option datetime;
  attachments : list string;
  metadata : Payload;
  client_version : Z
}.
End PrescriptionCreate.

(** The answers of the routes whose body is not a single record. *)
Inductive Answer (A : Type) :=
| OK (body : A)
| NOT_FOUND
| UNPROCESSABLE_ENTITY
| INTERNAL_SERVER_ERROR.
Arguments OK {A} body.
Arguments NOT_FOUND {A}.
Arguments UNPROCESSABLE_ENTITY {A}.
Arguments INTERNAL_SERVER_ERROR {A}.

Module Endpoints.

(** [try: ... except Exception: raise HTTPException(500)] *)
Definition try_except {A} (m : M (Answer A)) : M (Answer A) :=
  λ w, match m w with
       | (Ok r, w') => (Ok r, w')
       | (Raise _, w') => (Ok INTERNAL_SERVER_ERROR, w')
       end.

(** What a route does with the dict [create_record] returned. *)
Definition created_response (created : Response) : M HTTPResponse :=
  match created with
  | Conflict _ server_version client_version _ =>
      ret (HTTP_409_CONFLICT server_version client_version None)
  | RecordData created =>
      match Routes.HealthRecordResponse created with
      | Some body => ret (HTTP_201_CREATED body)
      | None => ret HTTP_500_INTERNAL_SERVER_ERROR
      end
  end.

Section create.
(** [datetime.isoformat], left abstract. *)
Variable isoformat : datetime → string.

(** [create_prescription] *)
Definition create_prescription (record : PrescriptionCreate.t) (user_id : string)
    : M HTTPResponse :=
  Routes.try_except (
    let record_data : Payload :=
      list_to_map
        [("doctor_id", Routes.optional_str (PrescriptionCreate.doctor_id record));
         ("doctor_name", AStr (PrescriptionCreate.doctor_name record));
         ("medications", AList (ADict <$> PrescriptionCreate.medications record));
         ("instructions", Routes.optional_str (PrescriptionCreate.instructions record));
         ("prescribed_date", AStr (isoformat (PrescriptionCreate.prescribed_date record)));
         ("valid_until",
           Routes.optional_str (isoformat <$> PrescriptionCreate.valid_until record));
         ("attachments", AList (AStr <$> PrescriptionCreate.attachments record));
         ("metadata", ADict (PrescriptionCreate.metadata record))] in
    created <- HealthRecordsService.create_record user_id PRESCRIPTION record_data
                 (PrescriptionCreate.client_version record)
                 (Some (HealthRecordsService.created_by_or
                          (PrescriptionCreate.doctor_id record) user_id)) ;;
    created_response created).

End create.

(** [RecordListResponse] built from the dict of [list_records]: every record
    has to pass as a [HealthRecordResponse]. *)
Definition RecordListResponse (result : RecordList.t) : option RecordList.t :=
  records ← mapM Routes.HealthRecordResponse (RecordList.records result);
  Some (RecordList.mk records (RecordList.total result) (RecordList.page result)
                      (RecordList.page_size result) (RecordList.has_more result)).

(** [list_records]: [page: int = Query(1, ge=1)],
    [page_size: int = Query(20, ge=1, le=100)]. *)
Definition list_records (record_type : option RecordType) (page page_size : Z)
    (user_id : string) : M (Answer RecordList.t) :=
  if negb (bool_decide (1 ≤ page) && bool_decide (1 ≤ page_size) && bool_decide (page_size ≤ 100))
  then ret UNPROCESSABLE_ENTITY
  else
    try_except (
      result <- HealthRecordsService.list_records user_id record_type page page_size
                  false ;;
      match RecordListResponse result with
      | Some body => ret (OK body)
      | None => ret INTERNAL_SERVER_ERROR
      end).

(** [get_record] *)
Definition get_record (record_id user_id : string) : M HTTPResponse :=
  Routes.try_except (
    record <- HealthRecordsService.get_record record_id user_id ;;
    match record with
    | None => ret HTTP_404_NOT_FOUND
    | Some record =>
        match Routes.HealthRecordResponse record with
        | Some body => ret (HTTP_200_OK body)
        | None => ret HTTP_500_INTERNAL_SERVER_ERROR
        end
    end).

(** [delete_record]: [soft_delete: bool = Query(True)]. *)
Definition delete_record (record_id : string) (soft_delete : bool) (user_id : string)
    : M (Answer string) :=
  try_except (
    success <- HealthRecordsService.delete_record record_id user_id soft_delete ;;
    if success then ret (OK "Record deleted successfully") else ret NOT_FOUND).

(** [resolve_conflict] *)
Definition resolve_conflict
    (conflict_request : HealthRecordsService.ConflictResolutionRequest)
    (user_id : string) : M HTTPResponse :=
  Routes.try_except (
    resolved <- HealthRecordsService.resolve_conflict conflict_request user_id ;;
    match resolved with
    | None => ret HTTP_404_NOT_FOUND
    | Some resolved =>
        match Routes.HealthRecordResponse resolved with
        | Some body => ret (HTTP_200_OK body)
        | None => ret HTTP_500_INTERNAL_SERVER_ERROR
        end
    end).

End Endpoints.

(** ** More scenarios *)

Module Scenario2.

(** A prescription that a doctor wrote for [alice]. *)
Definition prescription : PrescriptionCreate.t :=
  PrescriptionCreate.mk (Some "dr_bose") "Dr Bose" [Scenario.dosage] None 900 None [] ∅ 1.

(** A store with three records of [alice] and one of [bob]. *)
Definition record_at (user_id : string) (record_type : RecordType) (updated_at : datetime)
    : HealthRecord.t :=
  HealthRecordsService.new_record user_id record_type Scenario.asthma 1 None 500 updated_at.

Definition crowded : World :=
  mkWorld (list_to_map [("a", record_at "alice" MEDICAL_HISTORY 700);
                        ("b", record_at "alice" LAB_REPORT 900);
                        ("c", record_at "bob" MEDICAL_HISTORY 950);
                        ("d", record_at "alice" MEDICAL_HISTORY 800)])
          [] Scenario.clock0 0.

End Scenario2.

(** * Properties *)

(** ** Running the monad *)

Lemma bind_Ok {A B} (m : M A) (f : A → M B) w a w' :
  m w = (Ok a, w') → bind m f w = f a w'.
Proof. intros H. unfold bind. by rewrite H. Qed.

(** ** [get_record] *)

Lemma get_record_run record_id user_id w :
  HealthRecordsService.get_record record_id user_id w
  = (Ok (Spec.owned w record_id user_id), w).
Proof.
  unfold HealthRecordsService.get_record, Spec.owned, bind, Firestore.get, ret.
  destruct (records_collection w !! record_id) as [r|]; [|done].
  repeat case_decide; done.
Qed.

Lemma owned_Some w record_id user_id r :
  records_collection w !! record_id = Some r →
  HealthRecord.user_id r = user_id →
  Spec.owned w record_id user_id = Some (record_id, r).
Proof. intros Hr Hu. unfold Spec.owned. rewrite Hr. by case_decide. Qed.

Lemma owned_inv w record_id user_id rd :
  Spec.owned w record_id user_id = Some rd →
  ∃ r, rd = (record_id, r) ∧ records_collection w !! record_id = Some r
       ∧ HealthRecord.user_id r = user_id.
Proof.
  unfold Spec.owned. destruct (records_collection w !! record_id) as [r|]; [|done].
  case_decide; [|done]. intros [= <-]. eauto.
Qed.

(** ** [update_record] *)

Lemma update_record_absent record_id user_id update_data client_version w :
  Spec.owned w record_id user_id = None →
  HealthRecordsService.update_record record_id user_id update_data client_version w
  = (Ok None, w).
Proof.
  intros H. unfold HealthRecordsService.update_record.
  erewrite bind_Ok by apply get_record_run. by rewrite H.
Qed.

Lemma update_record_conflict record_id user_id update_data client_version w r :
  records_collection w !! record_id = Some r →
  HealthRecord.user_id r = user_id →
  client_version ≤ HealthRecord.version r →
  HealthRecordsService.update_record record_id user_id update_data client_version w
  = (Ok (Some (Conflict (Some record_id) (HealthRecord.version r) client_version
                        (Some (record_id, r)))), w).
Proof.
  intros Hr Hu Hv. unfold HealthRecordsService.update_record.
  erewrite bind_Ok by apply get_record_run.
  rewrite (owned_Some _ _ _ _ Hr Hu). simpl. by case_decide.
Qed.

Lemma update_record_accept record_id user_id update_data client_version w r :
  records_collection w !! record_id = Some r →
  HealthRecord.user_id r = user_id →
  HealthRecord.version r < client_version →
  let fields :=
    HealthRecordsService.update_fields r update_data client_version (clock w (ticks w)) in
  let r' := Fields.apply fields r in
  HealthRecordsService.update_record record_id user_id update_data client_version w
  = (Ok (Some (RecordData (record_id, r'))),
     mkWorld (<[record_id := r']> (records_collection w))
             (audit_collection w
                ++ [AuditEntry.mk record_id "update" user_id (AuditFields fields)
                                  (clock w (S (ticks w)))])
             (clock w) (S (S (ticks w)))).
Proof.
  intros Hr Hu Hv fields r'. unfold HealthRecordsService.update_record.
  erewrite bind_Ok by apply get_record_run.
  rewrite (owned_Some _ _ _ _ Hr Hu). simpl. case_decide; [lia|].
  unfold bind at 1. simpl.
  unfold bind at 1. unfold Firestore.update at 1. simpl. rewrite Hr.
  unfold bind at 1. unfold HealthRecordsService._create_audit_entry, bind at 1. simpl.
  erewrite bind_Ok by apply get_record_run.
  unfold ret, Firestore.with_records. simpl.
  erewrite owned_Some; [done| |]; simpl.
  - by rewrite lookup_insert_eq.
  - done.
Qed.

(** ** [delete_record] and [resolve_conflict] *)

Lemma delete_record_soft record_id user_id w r :
  records_collection w !! record_id = Some r →
  HealthRecord.user_id r = user_id →
  let fields :=
    HealthRecordsService.soft_delete_fields (clock w (ticks w)) (clock w (S (ticks w))) in
  HealthRecordsService.delete_record record_id user_id true w
  = (Ok true,
     mkWorld (<[record_id := Fields.apply fields r]> (records_collection w))
             (audit_collection w
                ++ [AuditEntry.mk record_id "delete" user_id (AuditSoftDelete true)
                                  (clock w (S (S (ticks w))))])
             (clock w) (S (S (S (ticks w))))).
Proof.
  intros Hr Hu fields. unfold HealthRecordsService.delete_record.
  erewrite bind_Ok by apply get_record_run.
  rewrite (owned_Some _ _ _ _ Hr Hu).
  unfold bind, utcnow, Firestore.update, HealthRecordsService._create_audit_entry,
    bind, utcnow, Firestore.add, ret, Firestore.with_records. simpl.
  by rewrite Hr.
Qed.

Lemma delete_record_hard record_id user_id w r :
  records_collection w !! record_id = Some r →
  HealthRecord.user_id r = user_id →
  HealthRecordsService.delete_record record_id user_id false w
  = (Ok true,
     mkWorld (delete record_id (records_collection w))
             (audit_collection w
                ++ [AuditEntry.mk record_id "hard_delete" user_id AuditEmpty
                                  (clock w (ticks w))])
             (clock w) (S (ticks w))).
Proof.
  intros Hr Hu. unfold HealthRecordsService.delete_record.
  erewrite bind_Ok by apply get_record_run.
  by rewrite (owned_Some _ _ _ _ Hr Hu).
Qed.

Lemma delete_record_absent record_id user_id soft_delete w :
  Spec.owned w record_id user_id = None →
  HealthRecordsService.delete_record record_id user_id soft_delete w = (Ok false, w).
Proof.
  intros H. unfold HealthRecordsService.delete_record.
  erewrite bind_Ok by apply get_record_run. by rewrite H.
Qed.

Lemma resolve_conflict_absent req user_id w :
  Spec.owned w (HealthRecordsService.record_id req) user_id = None →
  HealthRecordsService.resolve_conflict req user_id w = (Ok None, w).
Proof.
  intros H. unfold HealthRecordsService.resolve_conflict.
  erewrite bind_Ok by apply get_record_run. by rewrite H.
Qed.

Lemma encode_integer_Ok z w : int64 z → Firestore.encode_integer z w = (Ok (), w).
Proof. intros H. unfold Firestore.encode_integer. by rewrite decide_True. Qed.

Lemma encode_integer_Raise z w :
  ¬ int64 z → Firestore.encode_integer z w = (Raise ValueError, w).
Proof. intros H. unfold Firestore.encode_integer. by rewrite decide_False. Qed.

Lemma resolve_conflict_run req user_id w r :
  let record_id := HealthRecordsService.record_id req in
  records_collection w !! record_id = Some r →
  HealthRecord.user_id r = user_id →
  int64 (HealthRecord.version r + 1) →
  int64 (HealthRecordsService.chosen_version req) →
  let fields :=
    HealthRecordsService.resolved_fields r req (clock w (ticks w)) (clock w (S (ticks w))) in
  let r' := Fields.apply fields r in
  HealthRecordsService.resolve_conflict req user_id w
  = (Ok (Some (record_id, r')),
     mkWorld (<[record_id := r']> (records_collection w))
             (audit_collection w
                ++ [AuditEntry.mk record_id "resolve_conflict" user_id
                      (AuditResolution (HealthRecordsService.chosen_version req)
                                       (HealthRecordsService.resolved_data req))
                      (clock w (S (S (ticks w))))])
             (clock w) (S (S (S (ticks w))))).
Proof.
  cbv zeta. intros Hr Hu Hv Hc. unfold HealthRecordsService.resolve_conflict.
  erewrite bind_Ok by apply get_record_run.
  rewrite (owned_Some _ _ _ _ Hr Hu). simpl.
  unfold bind at 1. simpl. unfold bind at 1. simpl.
  erewrite bind_Ok by (by apply encode_integer_Ok).
  unfold bind at 1. unfold Firestore.update at 1. simpl. rewrite Hr.
  unfold bind at 1. simpl.
  erewrite bind_Ok by (by apply encode_integer_Ok).
  unfold bind at 1. simpl.
  rewrite get_record_run.
  unfold Firestore.with_records. simpl.
  erewrite owned_Some; [done| |]; simpl.
  - by rewrite lookup_insert_eq.
  - done.
Qed.

(** The successor of the stored version does not fit: the [update] raises
    while it encodes, and nothing is written. *)
Lemma resolve_conflict_overflow req user_id w r :
  records_collection w !! HealthRecordsService.record_id req = Some r →
  HealthRecord.user_id r = user_id →
  ¬ int64 (HealthRecord.version r + 1) →
  HealthRecordsService.resolve_conflict req user_id w
  = (Raise ValueError,
     mkWorld (records_collection w) (audit_collection w) (clock w) (S (S (ticks w)))).
Proof.
  intros Hr Hu Hv. unfold HealthRecordsService.resolve_conflict.
  erewrite bind_Ok by apply get_record_run.
  rewrite (owned_Some _ _ _ _ Hr Hu). simpl.
  unfold bind at 1. simpl. unfold bind at 1. simpl.
  unfold bind at 1. by rewrite encode_integer_Raise.
Qed.

(** [chosen_version] does not fit: the record is rewritten, then the [add]
    of the audit entry raises while it encodes; no entry is appended and no
    record is returned. *)
Lemma resolve_conflict_unaudited req user_id w r :
  let record_id := HealthRecordsService.record_id req in
  records_collection w !! record_id = Some r →
  HealthRecord.user_id r = user_id →
  int64 (HealthRecord.version r + 1) →
  ¬ int64 (HealthRecordsService.chosen_version req) →
  let fields :=
    HealthRecordsService.resolved_fields r req (clock w (ticks w)) (clock w (S (ticks w))) in
  HealthRecordsService.resolve_conflict req user_id w
  = (Raise ValueError,
     mkWorld (<[record_id := Fields.apply fields r]> (records_collection w))
             (audit_collection w) (clock w) (S (S (S (ticks w))))).
Proof.
  cbv zeta. intros Hr Hu Hv Hc. unfold HealthRecordsService.resolve_conflict.
  erewrite bind_Ok by apply get_record_run.
  rewrite (owned_Some _ _ _ _ Hr Hu). simpl.
  unfold bind at 1. simpl. unfold bind at 1. simpl.
  erewrite bind_Ok by (by apply encode_integer_Ok).
  unfold bind at 1. unfold Firestore.update at 1. simpl. rewrite Hr.
  unfold bind at 1. simpl.
  unfold bind at 1. by rewrite encode_integer_Raise.
Qed.

(** The three ways [resolve_conflict] can go on a record of the caller. *)
Lemma resolve_conflict_cases req user_id w r :
  let record_id := HealthRecordsService.record_id req in
  records_collection w !! record_id = Some r →
  HealthRecord.user_id r = user_id →
  let r' :=
    Fields.apply
      (HealthRecordsService.resolved_fields r req (clock w (ticks w))
         (clock w (S (ticks w)))) r in
  (int64 (HealthRecord.version r + 1) ∧ int64 (HealthRecordsService.chosen_version req)
   ∧ HealthRecordsService.resolve_conflict req user_id w
     = (Ok (Some (record_id, r')),
        mkWorld (<[record_id := r']> (records_collection w))
                (audit_collection w
                   ++ [AuditEntry.mk record_id "resolve_conflict" user_id
                         (AuditResolution (HealthRecordsService.chosen_version req)
                                          (HealthRecordsService.resolved_data req))
                         (clock w (S (S (ticks w))))])
                (clock w) (S (S (S (ticks w))))))
  ∨ (¬ int64 (HealthRecord.version r + 1)
     ∧ HealthRecordsService.resolve_conflict req user_id w
       = (Raise ValueError,
          mkWorld (records_collection w) (audit_collection w) (clock w) (S (S (ticks w)))))
  ∨ (int64 (HealthRecord.version r + 1) ∧ ¬ int64 (HealthRecordsService.chosen_version req)
     ∧ HealthRecordsService.resolve_conflict req user_id w
       = (Raise ValueError,
          mkWorld (<[record_id := r']> (records_collection w))
                  (audit_collection w) (clock w) (S (S (S (ticks w)))))).
Proof.
  intros record_id Hr Hu r'.
  destruct (decide (int64 (HealthRecord.version r + 1))) as [Hv|Hv].
  - destruct (decide (int64 (HealthRecordsService.chosen_version req))) as [Hc|Hc].
    + left. split_and!; [done..|]. by apply resolve_conflict_run.
    + right. right. split_and!; [done..|]. by apply resolve_conflict_unaudited.
  - right. left. split; [done|]. by eapply resolve_conflict_overflow.
Qed.

(** ** Queries *)

Lemma max_version_None l : Spec.max_version l = None ↔ l = [].
Proof. by destruct l. Qed.

Lemma max_version_Some l m :
  Spec.max_version l = Some m ↔ m ∈ l ∧ ∀ x, x ∈ l → x ≤ m.
Proof.
  revert m. induction l as [|v l IH]; intros m; simpl.
  - split; [done|]. intros [H _]. by apply elem_of_nil in H.
  - destruct (Spec.max_version l) as [a|] eqn:E.
    + destruct (IH a) as [[Ha Hmax] _]; [done|]. split.
      * intros [= <-]. split.
        -- destruct (Z.max_spec v a) as [[_ ->]|[_ ->]]; [by right | by left].
        -- intros x [->|Hx]%elem_of_cons; [lia|]. specialize (Hmax x Hx). lia.
      * intros [Hm Hle]. f_equal.
        assert (v ≤ m) by (apply Hle; by left).
        assert (a ≤ m) by (apply Hle; by right).
        apply elem_of_cons in Hm as [->|Hm]; [lia|].
        specialize (Hmax m Hm). lia.
    + apply max_version_None in E as ->. split.
      * intros [= <-]. split; [by left|]. by intros x ->%list_elem_of_singleton.
      * intros [->%list_elem_of_singleton _]. done.
Qed.

Lemma latest_existing_version_Some w owner_id record_type lv :
  Spec.latest_existing_version w owner_id record_type = Some lv ↔
  (∃ id r, records_collection w !! id = Some r ∧ Spec.of_pair owner_id record_type r
           ∧ HealthRecord.version r = lv)
  ∧ (∀ id r, records_collection w !! id = Some r → Spec.of_pair owner_id record_type r →
             HealthRecord.version r ≤ lv).
Proof.
  unfold Spec.latest_existing_version. rewrite max_version_Some.
  setoid_rewrite list_elem_of_fmap. setoid_rewrite list_elem_of_filter.
  setoid_rewrite list_elem_of_fmap. split.
  - intros [(r & -> & Hp & [id r'] & -> & Hin) Hmax]. split.
    + exists id, r'. by apply elem_of_map_to_list in Hin.
    + intros id2 r2 H2 Hp2. apply Hmax. exists r2. split; [done|]. split; [done|].
      exists (id2, r2). split; [done|]. by apply elem_of_map_to_list.
  - intros [(id & r & Hr & Hp & <-) Hmax]. split.
    + exists r. split; [done|]. split; [done|]. exists (id, r). split; [done|].
      by apply elem_of_map_to_list.
    + intros x (r2 & -> & Hp2 & [id2 r2'] & -> & Hin). eapply Hmax; [|done].
      by apply elem_of_map_to_list in Hin.
Qed.

Lemma latest_existing_version_None w owner_id record_type :
  Spec.latest_existing_version w owner_id record_type = None ↔
  ∀ id r, records_collection w !! id = Some r → ¬ Spec.of_pair owner_id record_type r.
Proof.
  unfold Spec.latest_existing_version. rewrite max_version_None. split.
  - intros Hnil id r Hr Hp.
    assert (HealthRecord.version r ∈
      HealthRecord.version <$> filter (Spec.of_pair owner_id record_type)
                                 (map_to_list (records_collection w)).*2) as Hin.
    { apply list_elem_of_fmap. exists r. split; [done|]. apply list_elem_of_filter.
      split; [done|]. apply list_elem_of_fmap. exists (id, r). split; [done|].
      by apply elem_of_map_to_list. }
    rewrite Hnil in Hin. by apply elem_of_nil in Hin.
  - intros Hno.
    assert (filter (Spec.of_pair owner_id record_type)
              (map_to_list (records_collection w)).*2 = []) as ->; [|done].
    apply elem_of_nil_inv. intros r [Hp Hin]%list_elem_of_filter.
    apply list_elem_of_fmap in Hin as ([id r'] & -> & Hin).
    apply elem_of_map_to_list in Hin. by eapply Hno.
Qed.

Lemma matches_latest_query user_id record_type r :
  Firestore.matches (HealthRecordsService.latest_query user_id record_type) r = true
  ↔ Spec.of_pair user_id record_type r.
Proof.
  unfold Firestore.matches, Spec.of_pair. simpl.
  unfold HealthRecordsService.where_user_id, HealthRecordsService.where_record_type,
    HealthRecordsService.where_is_deleted.
  rewrite !andb_true_iff, !bool_decide_eq_true. tauto.
Qed.

#[local] Instance by_field_total key d : Total (Firestore.by_field key d).
Proof.
  intros [i a] [j b]. unfold Firestore.by_field. simpl.
  destruct (String.leb_total i j), (Z.lt_trichotomy (key a) (key b)) as [?|[?|?]];
    destruct d; intuition lia.
Qed.

#[local] Instance by_name_total : Total Firestore.by_name.
Proof. intros [i a] [j b]. unfold Firestore.by_name. apply String.leb_total. Qed.

Lemma Sorted_descending_head key d l :
  Sorted (Firestore.by_field key Firestore.DESCENDING) (d :: l) →
  ∀ x, x ∈ l → key x.2 ≤ key d.2.
Proof.
  revert d. induction l as [|y l IH]; intros d Hs x Hx.
  - by apply elem_of_nil in Hx.
  - apply Sorted_inv in Hs as [Hs Hd]. apply HdRel_inv in Hd.
    assert (key y.2 ≤ key d.2) by (unfold Firestore.by_field in Hd; lia).
    apply elem_of_cons in Hx as [->|Hx]; [done|].
    specialize (IH y Hs x Hx). lia.
Qed.

(** The query of [create_record] yields the document of the pair with the
    latest version, or nothing when the pair has no non-deleted record. *)
Lemma stream_latest_query user_id record_type w :
  ∃ latest_docs,
    Firestore.stream (HealthRecordsService.latest_query user_id record_type) w
    = (Ok latest_docs, w)
    ∧ match latest_docs with
      | [] => Spec.latest_existing_version w user_id record_type = None
      | doc :: _ =>
          Spec.latest_existing_version w user_id record_type
          = Some (HealthRecord.version doc.2)
      end.
Proof.
  unfold Firestore.stream. simpl. eexists. split; [done|].
  unfold Firestore.window, Firestore.ordered. simpl.
  set (R := Firestore.by_field HealthRecord.version Firestore.DESCENDING).
  set (F := filter _ _).
  pose proof (merge_sort_Permutation R F) as Hperm.
  pose proof (Sorted_merge_sort R F) as Hsorted.
  assert (∀ id r, (id, r) ∈ F ↔
            records_collection w !! id = Some r ∧ Spec.of_pair user_id record_type r)
    as HF.
  { intros id r. unfold F. rewrite list_elem_of_filter, elem_of_map_to_list. simpl.
    rewrite matches_latest_query. tauto. }
  destruct (merge_sort R F) as [|[id r] l] eqn:E; simpl.
  - apply latest_existing_version_None. intros id r Hr Hp.
    assert ((id, r) ∈ F) as Hin by (apply HF; done).
    rewrite <- Hperm in Hin. by apply elem_of_nil in Hin.
  - apply latest_existing_version_Some. split.
    + exists id, r. assert ((id, r) ∈ F) as Hin by (rewrite <- Hperm; by left).
      apply HF in Hin as [??]. done.
    + intros id2 r2 Hr2 Hp2.
      assert ((id2, r2) ∈ (id, r) :: l) as Hin by (rewrite Hperm; apply HF; done).
      apply elem_of_cons in Hin as [[= -> ->]|Hin]; [done|].
      by apply (Sorted_descending_head _ _ _ Hsorted (id2, r2)).
Qed.

(** ** [create_record] *)

Lemma create_new_run user_id record_type data client_version created_by w :
  (created_at <- utcnow ;;
   updated_at <- utcnow ;;
   let record_data :=
     HealthRecordsService.new_record user_id record_type data client_version created_by
       created_at updated_at in
   doc_ref <- Firestore.document ;;
   Firestore.set doc_ref record_data ;;;
   HealthRecordsService._create_audit_entry doc_ref "create" user_id
     (AuditRecord record_data) ;;;
   ret (RecordData (doc_ref, record_data))) w
  = Outcome.created user_id record_type data client_version created_by w.
Proof. done. Qed.

Lemma create_record_run user_id record_type data client_version created_by w :
  HealthRecordsService.create_record user_id record_type data client_version created_by w
  = match Spec.latest_existing_version w user_id record_type with
    | Some latest_version =>
        if decide (client_version > 1 ∧ client_version ≤ latest_version)
        then (Ok (Conflict None latest_version client_version None), w)
        else Outcome.created user_id record_type data client_version created_by w
    | None => Outcome.created user_id record_type data client_version created_by w
    end.
Proof.
  unfold HealthRecordsService.create_record.
  destruct (stream_latest_query user_id record_type w) as (docs & Hs & Hl).
  case_decide.
  - erewrite bind_Ok by exact Hs. destruct docs as [|doc docs]; rewrite Hl.
    + apply create_new_run.
    + simpl. destruct (decide (client_version ≤ HealthRecord.version doc.2)).
      * by rewrite decide_True.
      * rewrite decide_False by tauto. apply create_new_run.
  - destruct (Spec.latest_existing_version w user_id record_type);
      [|apply create_new_run].
    rewrite decide_False by tauto. apply create_new_run.
Qed.

(** ** Reads leave the world alone *)

Lemma stream_world q w : (Firestore.stream q w).2 = w.
Proof. unfold Firestore.stream. by destruct (_ || _). Qed.

Lemma stream_Ok_elem q w l d :
  (Firestore.stream q w).1 = Ok l → d ∈ l →
  records_collection w !! d.1 = Some d.2 ∧ Firestore.matches q d.2 = true.
Proof.
  unfold Firestore.stream. destruct (_ || _); [done|]. simpl. intros [= <-] Hd.
  assert (d ∈ Firestore.ordered q
            (filter (λ d : RecordDict, Firestore.matches q d.2 = true)
                    (map_to_list (records_collection w)))) as Hin.
  { unfold Firestore.window in Hd.
    destruct (Firestore.limit q), (Firestore.offset q);
      eauto using elem_of_sublist, sublist_take, sublist_drop. }
  assert (d ∈ filter (λ d : RecordDict, Firestore.matches q d.2 = true)
                     (map_to_list (records_collection w))) as Hf.
  { unfold Firestore.ordered in Hin. destruct (Firestore.order_by q) as [[key dir]|].
    - by rewrite merge_sort_Permutation in Hin.
    - by rewrite merge_sort_Permutation in Hin. }
  apply list_elem_of_filter in Hf as [Hm Hf].
  by apply elem_of_map_to_list' in Hf.
Qed.

Lemma stream_Ok_window q w :
  Firestore.limit q = None → Firestore.offset q = None →
  ∃ l, Firestore.stream q w = (Ok l, w).
Proof. intros Hl Ho. unfold Firestore.stream. rewrite Hl, Ho. simpl. eauto. Qed.

Lemma list_records_world user_id record_type page page_size include_deleted w :
  (HealthRecordsService.list_records user_id record_type page page_size include_deleted w).2
  = w.
Proof.
  unfold HealthRecordsService.list_records, bind.
  match goal with |- context [Firestore.stream ?q w] =>
    pose proof (stream_world q w) as H1; destruct (Firestore.stream q w) as [[l|e] w1]
  end; simpl in H1; subst w1; done.
Qed.

(** [list_records] never returns a result.  A negative [limit] or [offset]
    fails the page query; otherwise the page is read and the count raises. *)
Lemma list_records_raises user_id record_type page page_size include_deleted w :
  ∃ e,
    HealthRecordsService.list_records user_id record_type page page_size include_deleted w
    = (Raise e, w)
    ∧ (0 ≤ page_size → 0 ≤ (page - 1) * page_size → e = TypeError)
    ∧ (page_size < 0 ∨ (page - 1) * page_size < 0 → e = InvalidArgument).
Proof.
  unfold HealthRecordsService.list_records, bind, Firestore.stream,
    HealthRecordsService.page_query. cbn [Firestore.limit Firestore.offset Firestore.negative].
  destruct (page_size <? 0) eqn:E1; [|destruct ((page - 1) * page_size <? 0) eqn:E2];
    cbn [orb].
  - exists InvalidArgument. split_and!; [done|lia|done].
  - exists InvalidArgument. split_and!; [done|lia|done].
  - exists TypeError. split_and!; [done|done|lia].
Qed.

Lemma matches_list_query user_id record_type r :
  Firestore.matches (HealthRecordsService.list_query user_id record_type false) r = true →
  HealthRecord.user_id r = user_id ∧ HealthRecord.is_deleted r = false.
Proof.
  unfold Firestore.matches, HealthRecordsService.list_query. simpl.
  unfold HealthRecordsService.where_user_id, HealthRecordsService.where_is_deleted.
  destruct record_type; simpl; rewrite !andb_true_iff, !bool_decide_eq_true; tauto.
Qed.

(** The page that [list_records] reads without [include_deleted] holds
    documents of the store that belong to the user and are not deleted. *)
Lemma page_query_not_deleted user_id record_type page page_size w l d :
  (Firestore.stream
     (HealthRecordsService.page_query user_id record_type page page_size false) w).1
  = Ok l →
  d ∈ l →
  records_collection w !! d.1 = Some d.2
  ∧ HealthRecord.user_id d.2 = user_id
  ∧ HealthRecord.is_deleted d.2 = false.
Proof.
  intros Hl Hd. destruct (stream_Ok_elem _ _ _ _ Hl Hd) as [Hlook Hm]. split; [done|].
  by apply (matches_list_query user_id record_type).
Qed.

(** ** One call, seen from one record *)

Lemma fresh_document_ne (m : gmap string HealthRecord.t) record_id r :
  m !! record_id = Some r → fresh (dom m) ≠ record_id.
Proof.
  intros Hr Heq. apply (is_fresh (dom m)). rewrite Heq. by apply elem_of_dom_2 in Hr.
Qed.

Lemma update_record_cases record_id user_id update_data client_version w :
  (∃ r, records_collection w !! record_id = Some r
        ∧ HealthRecord.user_id r = user_id
        ∧ HealthRecord.version r < client_version
        ∧ HealthRecordsService.update_record record_id user_id update_data client_version w
          = (Ok (Some (RecordData (record_id,
               Fields.apply (HealthRecordsService.update_fields r update_data client_version
                               (clock w (ticks w))) r))),
             mkWorld
               (<[record_id :=
                    Fields.apply (HealthRecordsService.update_fields r update_data
                                    client_version (clock w (ticks w))) r]>
                  (records_collection w))
               (audit_collection w
                  ++ [AuditEntry.mk record_id "update" user_id
                        (AuditFields (HealthRecordsService.update_fields r update_data
                                        client_version (clock w (ticks w))))
                        (clock w (S (ticks w)))])
               (clock w) (S (S (ticks w)))))
  ∨ (∃ r, HealthRecordsService.update_record record_id user_id update_data client_version w
          = (Ok r, w)
          ∧ ∀ rd, r ≠ Some (RecordData rd)).
Proof.
  destruct (Spec.owned w record_id user_id) as [rd|] eqn:Ho.
  - apply owned_inv in Ho as (r & -> & Hr & Hu).
    destruct (decide (client_version ≤ HealthRecord.version r)).
    + right. eexists. split; [by apply update_record_conflict|]. done.
    + left. exists r. split_and!; [done|done|lia|]. apply update_record_accept; [done..|lia].
  - right. eexists. split; [by apply update_record_absent|]. done.
Qed.

Lemma call_version_step c w record_id r :
  records_collection w !! record_id = Some r →
  match records_collection (call c w).2 !! record_id with
  | Some r' =>
      HealthRecord.version r ≤ HealthRecord.version r'
      ∧ (accepted_write record_id c (call c w).1 = true →
         HealthRecord.version r < HealthRecord.version r')
  | None => True
  end.
Proof.
  intros Hr. destruct c as [u t d cv cb|id u|u t p ps incl|id u d cv|id u soft|req u|u];
    unfold call, bind.
  - rewrite create_record_run.
    destruct (Spec.latest_existing_version w u t) as [lv|];
      [case_decide|]; simpl; rewrite ?Hr, ?lookup_insert_ne, ?Hr
        by (by eapply fresh_document_ne); split; (lia || done).
  - rewrite get_record_run. simpl. rewrite Hr. split; [lia|done].
  - pose proof (list_records_world u t p ps incl w) as Hw.
    destruct (HealthRecordsService.list_records u t p ps incl w) as [[l|e] w'];
      simpl in *; subst w'; rewrite Hr; split; (lia || done).
  - destruct (update_record_cases id u d cv w) as [(r0 & Hr0 & Hu & Hv & ->)|(o & -> & Ho)];
      simpl.
    + destruct (decide (id = record_id)) as [->|Hne].
      * rewrite lookup_insert_eq. simpl. rewrite Hr in Hr0. injection Hr0 as <-.
        split; [lia|]. intros _. lia.
      * rewrite lookup_insert_ne, Hr by done. split; [lia|]. by rewrite bool_decide_eq_false_2.
    + rewrite Hr. split; [lia|]. destruct o as [[rd|]|]; [by destruct (Ho rd)|done..].
  - destruct (Spec.owned w id u) as [rd|] eqn:Ho.
    + apply owned_inv in Ho as (r0 & -> & Hr0 & Hu). destruct soft.
      * rewrite (delete_record_soft _ _ _ _ Hr0 Hu). simpl.
        destruct (decide (id = record_id)) as [->|Hne].
        -- rewrite lookup_insert_eq. simpl. rewrite Hr in Hr0. injection Hr0 as <-.
           split; [lia|done].
        -- rewrite lookup_insert_ne, Hr by done. split; [lia|done].
      * rewrite (delete_record_hard _ _ _ _ Hr0 Hu). simpl.
        destruct (decide (id = record_id)) as [->|Hne].
        -- by rewrite lookup_delete_eq.
        -- rewrite lookup_delete_ne, Hr by done. split; [lia|done].
    + rewrite (delete_record_absent _ _ _ _ Ho). simpl. rewrite Hr. split; [lia|done].
  - destruct (Spec.owned w (HealthRecordsService.record_id req) u) as [rd|] eqn:Ho.
    + apply owned_inv in Ho as (r0 & -> & Hr0 & Hu).
      destruct (resolve_conflict_cases _ _ _ _ Hr0 Hu)
        as [(_ & _ & ->)|[(_ & ->)|(_ & _ & ->)]]; simpl.
      * destruct (decide (HealthRecordsService.record_id req = record_id)) as [Heq|Hne].
        -- rewrite Heq in *. rewrite lookup_insert_eq. simpl. rewrite Hr in Hr0.
           injection Hr0 as <-. split; [lia|]. intros _. lia.
        -- rewrite lookup_insert_ne, Hr by done. split; [lia|].
           by rewrite bool_decide_eq_false_2.
      * rewrite Hr. split; [lia|done].
      * destruct (decide (HealthRecordsService.record_id req = record_id)) as [Heq|Hne].
        -- rewrite Heq in *. rewrite lookup_insert_eq. simpl. rewrite Hr in Hr0.
           injection Hr0 as <-. split; [lia|done].
        -- rewrite lookup_insert_ne, Hr by done. split; [lia|done].
    + rewrite (resolve_conflict_absent _ _ _ Ho). simpl. rewrite Hr. split; [lia|done].
  - unfold HealthRecordsService.get_pending_sync_records.
    match goal with |- context [Firestore.stream ?q w] =>
      pose proof (stream_world q w) as Hw; destruct (Firestore.stream q w) as [[l|e] w']
    end; simpl in *; subst w'; rewrite Hr; split; (lia || done).
Qed.

(** ** Sequences of calls *)

Lemma accepted_versions_above record_id calls : ∀ w r,
  records_collection w !! record_id = Some r →
  Forall (λ v, HealthRecord.version r < v) (accepted_versions record_id calls w)
  ∧ StronglySorted Z.lt (accepted_versions record_id calls w).
Proof.
  induction calls as [|c calls IH]; intros w r Hr; simpl.
  - split; constructor.
  - pose proof (call_version_step c w record_id r Hr) as Hstep.
    destruct (call c w) as [res w']. simpl in Hstep.
    destruct (records_collection w' !! record_id) as [r'|] eqn:Hr';
      [|split; constructor].
    destruct Hstep as [Hle Hlt]. destruct (IH w' r' Hr') as [Hall Hsorted].
    assert (Forall (λ v, HealthRecord.version r < v) (accepted_versions record_id calls w'))
      as Hall'.
    { eapply Forall_impl; [exact Hall|]. simpl. intros; lia. }
    destruct (accepted_write record_id c res); simpl; [|done].
    specialize (Hlt eq_refl). split; constructor; done.
Qed.

Lemma version_history_above record_id calls : ∀ w r,
  records_collection w !! record_id = Some r →
  Forall (λ v, HealthRecord.version r ≤ v) (version_history record_id calls w)
  ∧ StronglySorted Z.le (version_history record_id calls w).
Proof.
  induction calls as [|c calls IH]; intros w r Hr; simpl.
  - split; constructor.
  - pose proof (call_version_step c w record_id r Hr) as Hstep.
    destruct (call c w) as [res w']. simpl in Hstep.
    destruct (records_collection w' !! record_id) as [r'|] eqn:Hr';
      [|split; constructor].
    destruct Hstep as [Hle _]. destruct (IH w' r' Hr') as [Hall Hsorted].
    split; constructor; try done.
    eapply Forall_impl; [exact Hall|]. simpl. intros; lia.
Qed.

(** * The claims *)

(** The scenario worlds are what the service itself produces. *)
Lemma world1_created :
  HealthRecordsService.create_record "alice" MEDICAL_HISTORY Scenario.asthma 1 None
    Scenario.empty_world
  = (Ok (RecordData ("0", Scenario.record1)), Scenario.world1).
Proof. vm_compute. reflexivity. Qed.

Lemma world1_soft_deleted :
  HealthRecordsService.delete_record "0" "alice" true Scenario.world1
  = (Ok true, Scenario.world1_deleted).
Proof. vm_compute. reflexivity. Qed.

(** C1. An update of an existing record by its owner: when
    [client_version <= server_version] the result is a Conflict carrying
    [server_version], [client_version] and the full current record as
    [server_data], and nothing in the world changes; otherwise the keys of the
    patch replace those of the stored payload and the other keys are kept
    (a shallow merge), the stored version becomes [client_version],
    [updated_at] is read from the clock, and exactly one audit entry, with
    action [update], is appended. *)
Theorem update_record_conflict_or_merge
    (record_id caller_id : string) (patch : Payload) (client_version : Z)
    (w : World) (r : HealthRecord.t) :
  records_collection w !! record_id = Some r →
  HealthRecord.user_id r = caller_id →
  let server_version := HealthRecord.version r in
  let result :=
    HealthRecordsService.update_record record_id caller_id patch client_version w in
  (client_version ≤ server_version →
     result = (Ok (Some (Conflict (Some record_id) server_version client_version
                                  (Some (record_id, r)))), w))
  ∧ (server_version < client_version →
     ∃ r' e,
       result.1 = Ok (Some (RecordData (record_id, r')))
       ∧ records_collection result.2 = <[record_id := r']> (records_collection w)
       ∧ (∀ k, HealthRecord.data r' !! k
               = match patch !! k with
                 | Some v => Some v
                 | None => HealthRecord.data r !! k
                 end)
       ∧ HealthRecord.version r' = client_version
       ∧ HealthRecord.updated_at r' = clock w (ticks w)
       ∧ HealthRecord.user_id r' = HealthRecord.user_id r
       ∧ HealthRecord.record_type r' = HealthRecord.record_type r
       ∧ HealthRecord.created_at r' = HealthRecord.created_at r
       ∧ HealthRecord.created_by r' = HealthRecord.created_by r
       ∧ audit_collection result.2 = audit_collection w ++ [e]
       ∧ AuditEntry.action e = "update"
       ∧ AuditEntry.record_id e = record_id
       ∧ AuditEntry.user_id e = caller_id).
Proof.
  intros Hr Hu server_version result. split; intros Hv.
  - by apply update_record_conflict.
  - unfold result. rewrite (update_record_accept _ _ _ _ _ _ Hr Hu Hv). simpl.
    eexists _, _. split_and!; try done.
    intros k.
    change (HealthRecord.data (Fields.apply _ r)) with (patch ∪ HealthRecord.data r).
    rewrite lookup_union. destruct (patch !! k), (HealthRecord.data r !! k); done.
Qed.

Lemma update_record_conflict_or_merge_witness :
  HealthRecordsService.update_record "0" "alice" Scenario.dosage 1 Scenario.world1
  = (Ok (Some (Conflict (Some "0") 1 1 (Some ("0", Scenario.record1)))), Scenario.world1)
  ∧ ∃ r' e,
      (HealthRecordsService.update_record "0" "alice" Scenario.dosage 2 Scenario.world1).1
      = Ok (Some (RecordData ("0", r')))
      ∧ HealthRecord.version r' = 2
      ∧ HealthRecord.data r' !! "dosage" = Some (AStr "200mg")
      ∧ HealthRecord.data r' !! "title" = Some (AStr "asthma")
      ∧ audit_collection
          (HealthRecordsService.update_record "0" "alice" Scenario.dosage 2
             Scenario.world1).2
        = audit_collection Scenario.world1 ++ [e]
      ∧ AuditEntry.action e = "update".
Proof.
  split.
  - apply (update_record_conflict_or_merge "0" "alice" Scenario.dosage 1 Scenario.world1
             Scenario.record1); [reflexivity|reflexivity|simpl; lia].
  - destruct (update_record_conflict_or_merge "0" "alice" Scenario.dosage 2 Scenario.world1
                Scenario.record1) as [_ H]; [reflexivity|reflexivity|].
    destruct H as (r' & e & H1 & _ & Hd & Hv & _ & _ & _ & _ & _ & Ha & He & _);
      [simpl; lia|].
    exists r', e. split_and!; [done|done|apply Hd|apply Hd|done|done].
Defined.

(** C2. A create call: when [client_version > 1] and [client_version] is at
    most the latest existing version among the non-deleted records of the
    same owner and record type, the result is a Conflict carrying that
    version and [client_version], and nothing in the world changes; otherwise
    a new document with [version = client_version] is stored under an id the
    collection did not have, and exactly one audit entry, with action
    [create], is appended. *)
Theorem create_record_conflict_or_create
    (owner_id : string) (record_type : RecordType) (payload : Payload)
    (client_version : Z) (created_by : option string) (w : World) :
  let latest := Spec.latest_existing_version w owner_id record_type in
  let result :=
    HealthRecordsService.create_record owner_id record_type payload client_version
      created_by w in
  (∀ latest_version,
     latest = Some latest_version →
     client_version > 1 → client_version ≤ latest_version →
     result = (Ok (Conflict None latest_version client_version None), w))
  ∧ (¬ (client_version > 1
        ∧ ∃ latest_version, latest = Some latest_version ∧ client_version ≤ latest_version) →
     ∃ id r e,
       result.1 = Ok (RecordData (id, r))
       ∧ records_collection w !! id = None
       ∧ records_collection result.2 = <[id := r]> (records_collection w)
       ∧ HealthRecord.version r = client_version
       ∧ HealthRecord.user_id r = owner_id
       ∧ HealthRecord.record_type r = RecordType_value record_type
       ∧ HealthRecord.data r = payload
       ∧ HealthRecord.is_deleted r = false
       ∧ audit_collection result.2 = audit_collection w ++ [e]
       ∧ AuditEntry.action e = "create"
       ∧ AuditEntry.record_id e = id
       ∧ AuditEntry.data e = AuditRecord r).
Proof.
  intros latest result. unfold result, latest. rewrite create_record_run. split.
  - intros lv -> Hgt Hle. by rewrite decide_True.
  - intros Hno.
    assert (match Spec.latest_existing_version w owner_id record_type with
            | Some latest_version =>
                if decide (client_version > 1 ∧ client_version ≤ latest_version)
                then (Ok (Conflict None latest_version client_version None), w)
                else Outcome.created owner_id record_type payload client_version
                       created_by w
            | None => Outcome.created owner_id record_type payload client_version
                        created_by w
            end
            = Outcome.created owner_id record_type payload client_version created_by w)
      as ->.
    { destruct (Spec.latest_existing_version w owner_id record_type) as [lv|]; [|done].
      rewrite decide_False; [done|]. intros [??]. apply Hno. eauto. }
    unfold Outcome.created. simpl. eexists _, _, _. split_and!; try done.
    apply not_elem_of_dom, is_fresh.
Qed.

Lemma create_record_conflict_or_create_witness :
  (* version 2 arrives while version 3 is stored: conflict *)
  HealthRecordsService.create_record "alice" MEDICAL_HISTORY Scenario.dosage 2 None
    Scenario.world3
  = (Ok (Conflict None 3 2 None), Scenario.world3)
  (* the first write of a pair: a record is created *)
  ∧ ∃ id r e,
      (HealthRecordsService.create_record "alice" MEDICAL_HISTORY Scenario.asthma 1 None
         Scenario.empty_world).1 = Ok (RecordData (id, r))
      ∧ HealthRecord.version r = 1
      ∧ audit_collection
          (HealthRecordsService.create_record "alice" MEDICAL_HISTORY Scenario.asthma 1
             None Scenario.empty_world).2 = [e]
      ∧ AuditEntry.action e = "create".
Proof.
  split.
  - destruct (create_record_conflict_or_create "alice" MEDICAL_HISTORY Scenario.dosage 2
                None Scenario.world3) as [H _].
    apply (H 3); [vm_compute; reflexivity|lia|lia].
  - destruct (create_record_conflict_or_create "alice" MEDICAL_HISTORY Scenario.asthma 1
                None Scenario.empty_world) as [_ H].
    destruct H as (id & r & e & H1 & _ & _ & Hv & _ & _ & _ & _ & Ha & He & _).
    + intros [? _]. lia.
    + exists id, r, e. split_and!; done.
Defined.

(** C3, as stated, fails: with a non-deleted version 1 record stored for the
    pair, the Version Guard rejects [client_version = 1], yet [create_record]
    reports no conflict and stores a second record. *)
Lemma create_record_version_1_not_guarded :
  Spec.latest_existing_version Scenario.world1 "alice" MEDICAL_HISTORY = Some 1
  ∧ Spec.version_guard 1 (Some 1) = false
  ∧ Spec.is_conflict
      (HealthRecordsService.create_record "alice" MEDICAL_HISTORY Scenario.asthma 1 None
         Scenario.world1) = false
  ∧ ∃ r, (HealthRecordsService.create_record "alice" MEDICAL_HISTORY Scenario.asthma 1
            None Scenario.world1).1 = Ok (RecordData ("1", r))
         ∧ HealthRecord.version r = 1
         ∧ size (records_collection
                   (HealthRecordsService.create_record "alice" MEDICAL_HISTORY
                      Scenario.asthma 1 None Scenario.world1).2) = 2%nat.
Proof.
  split_and!; [vm_compute; reflexivity..|].
  eexists. split_and!; vm_compute; reflexivity.
Qed.

(** C3, amended.  [update_record] reports a conflict exactly when the Version
    Guard rejects [client_version] against the stored version.
    [create_record] consults the guard only when [client_version > 1]: it
    reports a conflict exactly when [client_version > 1] and the guard
    rejects [client_version] against the latest existing version of the pair,
    and the conflict carries that version; a create with
    [client_version <= 1] is never a conflict and stores a new record with
    that version. *)
Theorem version_guard_in_create_and_update
    (owner_id : string) (record_type : RecordType) (payload : Payload)
    (client_version : Z) (created_by : option string) (record_id : string)
    (patch : Payload) (w : World) :
  let created :=
    HealthRecordsService.create_record owner_id record_type payload client_version
      created_by w in
  let updated :=
    HealthRecordsService.update_record record_id owner_id patch client_version w in
  Spec.is_conflict created
  = bool_decide (client_version > 1)
    && negb (Spec.version_guard client_version
               (Spec.latest_existing_version w owner_id record_type))
  ∧ (∀ server_version c,
       created.1 = Ok (Conflict None server_version c None) →
       Spec.latest_existing_version w owner_id record_type = Some server_version)
  ∧ (client_version ≤ 1 →
     ∃ id r, created.1 = Ok (RecordData (id, r))
             ∧ HealthRecord.version r = client_version
             ∧ records_collection created.2 !! id = Some r)
  ∧ (∀ r, records_collection w !! record_id = Some r →
          HealthRecord.user_id r = owner_id →
          Spec.is_conflict_opt updated
          = negb (Spec.version_guard client_version (Some (HealthRecord.version r)))).
Proof.
  intros created updated. unfold created, updated. rewrite create_record_run.
  split_and!.
  - destruct (Spec.latest_existing_version w owner_id record_type) as [lv|]; simpl.
    + case_decide as H.
      * destruct H. rewrite bool_decide_eq_true_2, bool_decide_eq_false_2 by lia. done.
      * destruct (decide (client_version > 1)).
        -- rewrite bool_decide_eq_true_2, bool_decide_eq_true_2 by lia. done.
        -- by rewrite bool_decide_eq_false_2.
    + by rewrite andb_false_r.
  - intros sv c. destruct (Spec.latest_existing_version w owner_id record_type) as [lv|];
      [case_decide|]; simpl; congruence.
  - intros Hle.
    destruct (Spec.latest_existing_version w owner_id record_type) as [lv|];
      [rewrite decide_False by lia|]; simpl; eexists _, _;
      (split_and!; [done|done|by rewrite lookup_insert_eq]).
  - intros r Hr Hu. unfold Spec.version_guard, Spec.is_conflict_opt.
    destruct (decide (client_version ≤ HealthRecord.version r)).
    + rewrite (update_record_conflict _ _ _ _ _ _ Hr Hu) by done.
      by rewrite bool_decide_eq_false_2 by lia.
    + rewrite (update_record_accept _ _ _ _ _ _ Hr Hu) by lia.
      by rewrite bool_decide_eq_true_2 by lia.
Qed.

Lemma version_guard_in_create_and_update_witness :
  Spec.is_conflict_opt
    (HealthRecordsService.update_record "0" "alice" Scenario.dosage 1 Scenario.world1)
  = negb (Spec.version_guard 1 (Some 1))
  ∧ ∃ id r,
      (HealthRecordsService.create_record "alice" MEDICAL_HISTORY Scenario.asthma 1 None
         Scenario.world1).1 = Ok (RecordData (id, r))
      ∧ HealthRecord.version r = 1.
Proof.
  destruct (version_guard_in_create_and_update "alice" MEDICAL_HISTORY Scenario.asthma 1
              None "0" Scenario.dosage Scenario.world1) as (_ & _ & Hc & Hu).
  split.
  - apply (Hu Scenario.record1); reflexivity.
  - destruct Hc as (id & r & H1 & H2 & _); [lia|]. by exists id, r.
Defined.




(** One accepted write at a time: an update or a conflict resolution that
    returns the record leaves a strictly greater version in the store. *)
Lemma accepted_write_increases c w record_id r :
  records_collection w !! record_id = Some r →
  accepted_write record_id c (call c w).1 = true →
  ∃ r', records_collection (call c w).2 !! record_id = Some r'
        ∧ HealthRecord.version r < HealthRecord.version r'.
Proof.
  intros Hr Hacc. pose proof (call_version_step c w record_id r Hr) as Hstep.
  destruct (records_collection (call c w).2 !! record_id) as [r'|] eqn:Hr'.
  - exists r'. split; [done|]. by apply Hstep.
  - exfalso. destruct c as [u t d cv cb|id u|u t p ps incl|id u d cv|id u soft|req u|u];
      try (unfold call, bind in Hacc; simpl in Hacc;
           repeat match type of Hacc with
                  | context [let (_, _) := ?x in _] => destruct x as [[?|?] ?]
                  | context [match ?x with _ => _ end] => destruct x
                  end; done).
    + unfold call, bind in *.
      destruct (update_record_cases id u d cv w) as [(r0 & Hr0 & Hu & Hv & Heq)|(o & Heq & Ho)];
        rewrite Heq in *; simpl in *.
      * apply bool_decide_eq_true in Hacc as ->. by rewrite lookup_insert_eq in Hr'.
      * destruct o as [[rd|]|]; [by destruct (Ho rd)|done..].
    + unfold call, bind in *.
      destruct (Spec.owned w (HealthRecordsService.record_id req) u) as [rd|] eqn:Ho.
      * apply owned_inv in Ho as (r0 & -> & Hr0 & Hu).
        destruct (resolve_conflict_cases _ _ _ _ Hr0 Hu)
          as [(_ & _ & Heq)|[(_ & Heq)|(_ & _ & Heq)]]; rewrite Heq in *; simpl in *;
          [|done..].
        apply bool_decide_eq_true in Hacc. rewrite Hacc in Hr'.
        by rewrite lookup_insert_eq in Hr'.
      * rewrite (resolve_conflict_absent _ _ _ Ho) in *. done.
Qed.

(** C5, as stated, fails when accepted writes overlap.  Two updates of the
    record at version 1, one with [client_version = 5] and one with
    [client_version = 3], both read before either writes; both are accepted
    and return the record; the first leaves version 5 in the store and the
    second, after it, version 3.  With the same [client_version = 2] in both,
    the version 2 is stored twice. *)
Lemma overlapping_updates_lower_the_version :
  (let '(a, b, w) :=
     Coroutine.interleave [false; true; false; false; false]
       (Coroutine.Start "0" "alice" Scenario.dosage 5)
       (Coroutine.Start "0" "alice" Scenario.inhaler 3) Scenario.world1 in
   let '(a', b', w') := Coroutine.interleave [true; true; true] a b w in
   Coroutine.succeeded a = true
   ∧ HealthRecord.version <$> records_collection w !! "0" = Some 5
   ∧ a' = a
   ∧ Coroutine.succeeded b' = true
   ∧ HealthRecord.version <$> records_collection w' !! "0" = Some 3)
  ∧ (let '(a, b, w) :=
       Coroutine.interleave [false; true; false; false; false]
         (Coroutine.Start "0" "alice" Scenario.dosage 2)
         (Coroutine.Start "0" "alice" Scenario.inhaler 2) Scenario.world1 in
     let '(a', b', w') := Coroutine.interleave [true; true; true] a b w in
     Coroutine.succeeded a = true
     ∧ HealthRecord.version <$> records_collection w !! "0" = Some 2
     ∧ Coroutine.succeeded b' = true
     ∧ HealthRecord.version <$> records_collection w' !! "0" = Some 2).
Proof. split; vm_compute; split_and!; reflexivity. Qed.

(** C5, amended.  For calls that run one after the other, each returning
    before the next starts: every accepted write to a record (an update or a
    conflict resolution that returns the record) stores a version strictly
    greater than the one it found.  Along any such sequence of service
    calls, for as long as the document exists, the stored version never
    decreases, and the versions stored by the accepted writes are strictly
    increasing from the initial version on, so none repeats a prior value. *)
Theorem version_strictly_increases
    (record_id : string) (calls : list Call) (w : World) (r : HealthRecord.t) :
  records_collection w !! record_id = Some r →
  (∀ c, accepted_write record_id c (call c w).1 = true →
        ∃ r', records_collection (call c w).2 !! record_id = Some r'
              ∧ HealthRecord.version r < HealthRecord.version r')
  ∧ StronglySorted Z.le (HealthRecord.version r :: version_history record_id calls w)
  ∧ StronglySorted Z.lt (HealthRecord.version r :: accepted_versions record_id calls w).
Proof.
  intros Hr.
  destruct (version_history_above record_id calls w r Hr).
  destruct (accepted_versions_above record_id calls w r Hr).
  split_and!; [|by constructor..].
  intros c. by apply accepted_write_increases.
Qed.

Lemma version_strictly_increases_witness :
  let calls :=
    [UpdateRecord "0" "alice" Scenario.dosage 2;
     UpdateRecord "0" "alice" Scenario.asthma 2;
     GetRecord "0" "alice";
     ResolveConflict
       (HealthRecordsService.mkConflictResolutionRequest "0" 1 Scenario.asthma) "alice";
     DeleteRecord "0" "alice" true;
     UpdateRecord "0" "alice" Scenario.dosage 9] in
  version_history "0" calls Scenario.world1 = [2; 2; 2; 3; 3; 9]
  ∧ accepted_versions "0" calls Scenario.world1 = [2; 3; 9]
  ∧ StronglySorted Z.lt (1 :: accepted_versions "0" calls Scenario.world1).
Proof.
  intros calls. split_and!; [vm_compute; reflexivity..|].
  apply (version_strictly_increases "0" calls Scenario.world1 Scenario.record1).
  reflexivity.
Defined.

(** C7. [get_record] returns the record iff the document exists and the
    caller is its owner, and never changes the world; for a document that is
    absent and for one that exists under another owner the results are the
    same, [None], so the caller cannot tell the two apart. *)
Theorem get_record_owner_only (record_id caller_id : string) (w : World) :
  (∀ record,
     HealthRecordsService.get_record record_id caller_id w = (Ok (Some record), w)
     ↔ ∃ r, record = (record_id, r)
            ∧ records_collection w !! record_id = Some r
            ∧ HealthRecord.user_id r = caller_id)
  ∧ (HealthRecordsService.get_record record_id caller_id w).2 = w
  ∧ (∀ w_absent w_foreign r,
       records_collection w_absent !! record_id = None →
       records_collection w_foreign !! record_id = Some r →
       HealthRecord.user_id r ≠ caller_id →
       (HealthRecordsService.get_record record_id caller_id w_absent).1 = Ok None
       ∧ (HealthRecordsService.get_record record_id caller_id w_foreign).1 = Ok None
       ∧ (HealthRecordsService.get_record record_id caller_id w_foreign).2 = w_foreign).
Proof.
  split_and!.
  - intros record. rewrite get_record_run. split.
    + intros [= Ho]. apply owned_inv in Ho as (r & ? & ? & ?). eauto.
    + intros (r & -> & Hr & Hu). by rewrite (owned_Some _ _ _ _ Hr Hu).
  - by rewrite get_record_run.
  - intros wa wf r Ha Hf Hne. rewrite !get_record_run. simpl.
    unfold Spec.owned. rewrite Ha, Hf. by rewrite decide_False.
Qed.

Lemma get_record_owner_only_witness :
  HealthRecordsService.get_record "0" "alice" Scenario.world1
  = (Ok (Some ("0", Scenario.record1)), Scenario.world1)
  ∧ (HealthRecordsService.get_record "0" "mallory" Scenario.empty_world).1 = Ok None
  ∧ (HealthRecordsService.get_record "0" "mallory" Scenario.world1).1 = Ok None.
Proof.
  destruct (get_record_owner_only "0" "alice" Scenario.world1) as (Hget & _ & _).
  destruct (get_record_owner_only "0" "mallory" Scenario.world1) as (_ & _ & Hsame).
  destruct (Hsame Scenario.empty_world Scenario.world1 Scenario.record1)
    as (Habsent & Hforeign & _); [reflexivity|reflexivity|discriminate|].
  split_and!; [|done..].
  apply Hget. exists Scenario.record1. split_and!; reflexivity.
Defined.

(** C8, at the failing input.  A soft delete of a record by its owner sets
    [is_deleted], sets [deleted_at] and sets [updated_at] anew, each from the
    clock, and [get_record] with the record's id still returns the record.
    The page that [list_records] reads without [include_deleted] does not
    hold the record; but [list_records] returns no result at all: on every
    call it raises, at the count when the window is not negative, and leaves
    the world as it was. *)
Theorem soft_delete_then_list_records_raises
    (record_id owner_id : string) (w : World) (r : HealthRecord.t) :
  records_collection w !! record_id = Some r →
  HealthRecord.user_id r = owner_id →
  let deleted := HealthRecordsService.delete_record record_id owner_id true w in
  ∃ r',
    deleted.1 = Ok true
    ∧ records_collection deleted.2 = <[record_id := r']> (records_collection w)
    ∧ HealthRecord.is_deleted r' = true
    ∧ HealthRecord.deleted_at r' = Some (clock w (ticks w))
    ∧ HealthRecord.updated_at r' = clock w (S (ticks w))
    ∧ HealthRecord.version r' = HealthRecord.version r
    ∧ HealthRecord.data r' = HealthRecord.data r
    ∧ HealthRecordsService.get_record record_id owner_id deleted.2
      = (Ok (Some (record_id, r')), deleted.2)
    ∧ (∀ record_type page page_size docs,
         (Firestore.stream
            (HealthRecordsService.page_query owner_id record_type page page_size false)
            deleted.2).1 = Ok docs →
         record_id ∉ docs.*1)
    ∧ (∀ record_type page page_size include_deleted,
         ∃ e,
           HealthRecordsService.list_records owner_id record_type page page_size
             include_deleted deleted.2
           = (Raise e, deleted.2)
           ∧ (0 ≤ page_size → 0 ≤ (page - 1) * page_size → e = TypeError)).
Proof.
  intros Hr Hu deleted. unfold deleted. rewrite (delete_record_soft _ _ _ _ Hr Hu).
  eexists. split_and!; try done.
  - rewrite get_record_run. erewrite owned_Some; [done| |done]. simpl.
    by rewrite lookup_insert_eq.
  - intros record_type page page_size docs Hdocs
      ([id r0] & Heq & Hin)%list_elem_of_fmap. simpl in Heq. subst id.
    destruct (page_query_not_deleted _ _ _ _ _ _ _ Hdocs Hin) as (Hlook & _ & Hdel).
    simpl in Hlook, Hdel. rewrite lookup_insert_eq in Hlook. injection Hlook as <-. done.
  - intros record_type page page_size include_deleted.
    match goal with |- context [HealthRecordsService.list_records _ _ _ _ _ ?w'] =>
      destruct (list_records_raises owner_id record_type page page_size include_deleted w')
        as (e & He & Ht & _)
    end.
    by exists e.
Qed.

Lemma soft_delete_then_list_records_raises_witness :
  (HealthRecordsService.delete_record "0" "alice" true Scenario.world1).1 = Ok true
  ∧ (∃ r', HealthRecordsService.get_record "0" "alice" Scenario.world1_deleted
           = (Ok (Some ("0", r')), Scenario.world1_deleted)
           ∧ HealthRecord.is_deleted r' = true)
  ∧ HealthRecordsService.list_records "alice" None 1 20 false Scenario.world1_deleted
    = (Raise TypeError, Scenario.world1_deleted)
  ∧ HealthRecordsService.list_records "alice" None 1 20 false Scenario.world1
    = (Raise TypeError, Scenario.world1).
Proof.
  destruct (soft_delete_then_list_records_raises "0" "alice" Scenario.world1
              Scenario.record1) as (r' & H1 & _ & Hd & _ & _ & _ & _ & Hget & _ & Hlist);
    [reflexivity|reflexivity|].
  rewrite world1_soft_deleted in Hget, Hlist. simpl in Hget, Hlist.
  split_and!; [done|by exists r'| |vm_compute; reflexivity].
  destruct (Hlist None 1 20 false) as (e & He & Ht). rewrite He.
  by rewrite Ht by lia.
Defined.

(** C10. A soft-deleted record stays mutable.  For a stored record of the
    caller whose [is_deleted] is true, [get_record] returns it; an update
    with a newer version succeeds and writes what it writes to a live
    record: the patch merged over the stored payload, [client_version] as
    the version, [updated_at] from the clock and one audit entry.  A
    conflict resolution (with [chosen_version] and the next version within
    the 64-bit integers of the store) succeeds too: the payload becomes
    [resolved_data], the version goes up by one, and one audit entry is
    appended.  Either write leaves [is_deleted] true and [deleted_at] as it
    was.  Outside that range the resolution raises, as it does on a live
    record, and the record in the store still has [is_deleted] true. *)
Theorem soft_deleted_record_stays_mutable
    (record_id owner_id : string) (patch : Payload) (client_version : Z)
    (request : HealthRecordsService.ConflictResolutionRequest)
    (w : World) (r : HealthRecord.t) :
  records_collection w !! record_id = Some r →
  HealthRecord.user_id r = owner_id →
  HealthRecord.is_deleted r = true →
  HealthRecordsService.record_id request = record_id →
  (HealthRecordsService.get_record record_id owner_id w = (Ok (Some (record_id, r)), w))
  ∧ (HealthRecord.version r < client_version →
     let updated :=
       HealthRecordsService.update_record record_id owner_id patch client_version w in
     ∃ r' e,
       updated.1 = Ok (Some (RecordData (record_id, r')))
       ∧ records_collection updated.2 = <[record_id := r']> (records_collection w)
       ∧ HealthRecord.version r' = client_version
       ∧ (∀ k, HealthRecord.data r' !! k
               = match patch !! k with
                 | Some v => Some v
                 | None => HealthRecord.data r !! k
                 end)
       ∧ HealthRecord.updated_at r' = clock w (ticks w)
       ∧ HealthRecord.is_deleted r' = true
       ∧ HealthRecord.deleted_at r' = HealthRecord.deleted_at r
       ∧ audit_collection updated.2 = audit_collection w ++ [e]
       ∧ AuditEntry.action e = "update"
       ∧ AuditEntry.record_id e = record_id)
  ∧ (int64 (HealthRecord.version r + 1) →
     int64 (HealthRecordsService.chosen_version request) →
     let resolved := HealthRecordsService.resolve_conflict request owner_id w in
     ∃ r' e,
       resolved.1 = Ok (Some (record_id, r'))
       ∧ records_collection resolved.2 = <[record_id := r']> (records_collection w)
       ∧ HealthRecord.version r' = HealthRecord.version r + 1
       ∧ HealthRecord.data r' = HealthRecordsService.resolved_data request
       ∧ HealthRecord.updated_at r' = clock w (ticks w)
       ∧ HealthRecord.is_deleted r' = true
       ∧ HealthRecord.deleted_at r' = HealthRecord.deleted_at r
       ∧ audit_collection resolved.2 = audit_collection w ++ [e]
       ∧ AuditEntry.action e = "resolve_conflict"
       ∧ AuditEntry.record_id e = record_id)
  ∧ (¬ (int64 (HealthRecord.version r + 1)
        ∧ int64 (HealthRecordsService.chosen_version request)) →
     let resolved := HealthRecordsService.resolve_conflict request owner_id w in
     ∃ r',
       resolved.1 = Raise ValueError
       ∧ records_collection resolved.2 !! record_id = Some r'
       ∧ HealthRecord.is_deleted r' = true).
Proof.
  intros Hr Hu Hd Hid. split_and!.
  - rewrite get_record_run. by rewrite (owned_Some _ _ _ _ Hr Hu).
  - intros Hv. cbv zeta. rewrite (update_record_accept _ _ _ _ _ _ Hr Hu Hv). simpl.
    eexists _, _. split_and!; try done.
    intros k.
    change (HealthRecord.data (Fields.apply _ r)) with (patch ∪ HealthRecord.data r).
    rewrite lookup_union. destruct (patch !! k), (HealthRecord.data r !! k); done.
  - intros Hv Hc. cbv zeta. subst record_id.
    rewrite (resolve_conflict_run _ _ _ _ Hr Hu Hv Hc). simpl.
    eexists _, _. split_and!; done.
  - intros Hno. cbv zeta. subst record_id.
    destruct (resolve_conflict_cases _ _ _ _ Hr Hu)
      as [(Hv & Hc & _)|[(_ & ->)|(_ & _ & ->)]]; [by destruct Hno|..];
      cbn [fst snd records_collection].
    + by exists r.
    + eexists. split_and!; [done|by rewrite lookup_insert_eq|done].
Qed.

Lemma soft_deleted_record_stays_mutable_witness :
  (∃ r', (HealthRecordsService.update_record "0" "alice" Scenario.dosage 2
            Scenario.world1_deleted).1 = Ok (Some (RecordData ("0", r')))
         ∧ HealthRecord.version r' = 2
         ∧ HealthRecord.data r' !! "dosage" = Some (AStr "200mg")
         ∧ HealthRecord.data r' !! "title" = Some (AStr "asthma")
         ∧ HealthRecord.is_deleted r' = true)
  ∧ (∃ r', (HealthRecordsService.resolve_conflict
              (HealthRecordsService.mkConflictResolutionRequest "0" 1 Scenario.dosage)
              "alice" Scenario.world1_deleted).1 = Ok (Some ("0", r'))
           ∧ HealthRecord.version r' = 2
           ∧ HealthRecord.data r' = Scenario.dosage
           ∧ HealthRecord.is_deleted r' = true).
Proof.
  destruct (soft_deleted_record_stays_mutable "0" "alice" Scenario.dosage 2
              (HealthRecordsService.mkConflictResolutionRequest "0" 1 Scenario.dosage)
              Scenario.world1_deleted Scenario.record1_deleted)
    as (_ & Hupd & Hres & _); [reflexivity..|].
  split.
  - destruct Hupd as (r' & e & H1 & _ & H2 & Hk & _ & H3 & _); [simpl; lia|].
    exists r'. split_and!; [done|done|apply Hk|apply Hk|done].
  - destruct Hres as (r' & e & H1 & _ & H2 & H3 & _ & H4 & _);
      [unfold int64; simpl; lia..|].
    by exists r'.
Defined.

(** ** The coroutine and the method *)

Lemma step_Start_absent record_id user_id update_data client_version w :
  Spec.owned w record_id user_id = None →
  Coroutine.step (Coroutine.Start record_id user_id update_data client_version) w
  = (Coroutine.Return (Ok None), w).
Proof. intros Ho. unfold Coroutine.step. by rewrite get_record_run, Ho. Qed.

Lemma step_Start_conflict record_id user_id update_data client_version w r :
  records_collection w !! record_id = Some r →
  HealthRecord.user_id r = user_id →
  client_version ≤ HealthRecord.version r →
  Coroutine.step (Coroutine.Start record_id user_id update_data client_version) w
  = (Coroutine.Return
       (Ok (Some (Conflict (Some record_id) (HealthRecord.version r) client_version
                           (Some (record_id, r))))), w).
Proof.
  intros Hr Hu Hv. unfold Coroutine.step.
  rewrite get_record_run, (owned_Some _ _ _ _ Hr Hu). cbn [snd]. by rewrite decide_True.
Qed.

Lemma step_Start_accept record_id user_id update_data client_version w r :
  records_collection w !! record_id = Some r →
  HealthRecord.user_id r = user_id →
  HealthRecord.version r < client_version →
  Coroutine.step (Coroutine.Start record_id user_id update_data client_version) w
  = (Coroutine.Update record_id user_id
       (HealthRecordsService.update_fields r update_data client_version
          (clock w (ticks w))),
     mkWorld (records_collection w) (audit_collection w) (clock w) (S (ticks w))).
Proof.
  intros Hr Hu Hv. unfold Coroutine.step.
  rewrite get_record_run, (owned_Some _ _ _ _ Hr Hu). cbn [snd].
  by rewrite decide_False by lia.
Qed.

Lemma step_Update record_id user_id fields w r :
  records_collection w !! record_id = Some r →
  Coroutine.step (Coroutine.Update record_id user_id fields) w
  = (Coroutine.Audit record_id user_id fields,
     mkWorld (<[record_id := Fields.apply fields r]> (records_collection w))
             (audit_collection w) (clock w) (ticks w)).
Proof. intros Hr. unfold Coroutine.step, Firestore.update. by rewrite Hr. Qed.

Lemma step_Audit record_id user_id fields w :
  Coroutine.step (Coroutine.Audit record_id user_id fields) w
  = (Coroutine.Reread record_id user_id,
     mkWorld (records_collection w)
             (audit_collection w
                ++ [AuditEntry.mk record_id "update" user_id (AuditFields fields)
                                  (clock w (ticks w))])
             (clock w) (S (ticks w))).
Proof. done. Qed.

Lemma step_Reread record_id user_id w :
  Coroutine.step (Coroutine.Reread record_id user_id) w
  = (Coroutine.Return (Ok (RecordData <$> Spec.owned w record_id user_id)), w).
Proof. unfold Coroutine.step. by rewrite get_record_run. Qed.

(** Run without interruption, the coroutine is [update_record]. *)
Lemma run_update_record record_id user_id update_data client_version w :
  Coroutine.run 4 (Coroutine.Start record_id user_id update_data client_version) w
  = let '(r, w') :=
      HealthRecordsService.update_record record_id user_id update_data client_version w in
    (Coroutine.Return r, w').
Proof.
  unfold Coroutine.run.
  destruct (Spec.owned w record_id user_id) as [rd|] eqn:Ho.
  - apply owned_inv in Ho as (r & -> & Hr & Hu).
    destruct (decide (client_version ≤ HealthRecord.version r)).
    + rewrite (update_record_conflict _ _ _ _ _ _ Hr Hu) by done.
      by rewrite (step_Start_conflict _ _ _ _ _ _ Hr Hu).
    + rewrite (update_record_accept _ _ _ _ _ _ Hr Hu) by lia.
      rewrite (step_Start_accept _ _ _ _ _ _ Hr Hu) by lia.
      erewrite step_Update by exact Hr. rewrite step_Audit, step_Reread.
      erewrite owned_Some; [done| |done]. cbn [records_collection].
      by rewrite lookup_insert_eq.
  - rewrite (update_record_absent _ _ _ _ _ Ho). by rewrite step_Start_absent.
Qed.

Lemma interleave_app s1 s2 a b w :
  Coroutine.interleave (s1 ++ s2) a b w
  = let '(a', b', w') := Coroutine.interleave s1 a b w in
    Coroutine.interleave s2 a' b' w'.
Proof.
  revert a b w. induction s1 as [|[] s1 IH]; intros a b w; simpl; [done|..].
  - destruct (Coroutine.step b w). apply IH.
  - destruct (Coroutine.step a w). apply IH.
Qed.

Lemma interleave_first n a b w :
  Coroutine.interleave (replicate n false) a b w
  = let '(a', w') := Coroutine.run n a w in (a', b, w').
Proof.
  revert a w. induction n as [|n IH]; intros a w; simpl; [done|].
  destruct (Coroutine.step a w). apply IH.
Qed.

Lemma interleave_second n a b w :
  Coroutine.interleave (replicate n true) a b w
  = let '(b', w') := Coroutine.run n b w in (a, b', w').
Proof.
  revert b w. induction n as [|n IH]; intros b w; simpl; [done|].
  destruct (Coroutine.step b w). apply IH.
Qed.

Lemma interleave_after_write record_id user_id update_data client_version r1 fields s :
  HealthRecord.user_id r1 = user_id →
  HealthRecord.version r1 = client_version →
  ∀ a b w,
    records_collection w !! record_id = Some r1 →
    a = Coroutine.Audit record_id user_id fields
    ∨ a = Coroutine.Reread record_id user_id
    ∨ a = Coroutine.Return (Ok (Some (RecordData (record_id, r1)))) →
    b = Coroutine.Start record_id user_id update_data client_version
    ∨ b = Coroutine.Return
            (Ok (Some (Conflict (Some record_id) client_version client_version
                                (Some (record_id, r1))))) →
    let '(a', b', w') := Coroutine.interleave s a b w in
    records_collection w' !! record_id = Some r1
    ∧ (Coroutine.returned a' = true →
         a' = Coroutine.Return (Ok (Some (RecordData (record_id, r1)))))
    ∧ (Coroutine.returned b' = true →
         b' = Coroutine.Return
                (Ok (Some (Conflict (Some record_id) client_version client_version
                                    (Some (record_id, r1)))))).
Proof.
  intros Hu Hv. induction s as [|[] s IH]; intros a b w Hr Ha Hb; simpl.
  - split_and!; [done|..].
    + destruct Ha as [-> | [-> | ->] ]; done.
    + destruct Hb as [-> | ->]; done.
  - destruct Hb as [-> | ->].
    + rewrite (step_Start_conflict _ _ _ _ _ _ Hr Hu) by lia. rewrite Hv.
      apply IH; auto.
    + apply IH; auto.
  - destruct Ha as [-> | [-> | ->] ].
    + rewrite step_Audit. apply IH; auto.
    + rewrite step_Reread, (owned_Some _ _ _ _ Hr Hu). apply IH; auto.
    + apply IH; auto.
Qed.

Lemma interleave_swap s a b w :
  Coroutine.interleave (negb <$> s) b a w
  = let '(a', b', w') := Coroutine.interleave s a b w in (b', a', w').
Proof.
  revert a b w. induction s as [|[] s IH]; intros a b w; simpl; [done|..].
  - destruct (Coroutine.step b w). apply IH.
  - destruct (Coroutine.step a w). apply IH.
Qed.

Lemma negb_negb_fmap (s : list bool) : negb <$> (negb <$> s) = s.
Proof. induction s as [|b s IH]; csimpl; [done|]. by rewrite IH, negb_involutive. Qed.

(** Of two update calls on the same record, each with
    [client_version = server_version + 1]: when the write of one comes before
    the read of the other, however the remaining steps interleave, the
    writer succeeds and the other receives a Conflict whose [server_version]
    is the version the writer stored; run one after the other, in either
    order, both calls return. *)
Lemma update_write_before_read
    (record_id caller_id : string) (patch1 patch2 : Payload) (w : World)
    (r : HealthRecord.t) (rest : list bool) :
  records_collection w !! record_id = Some r →
  HealthRecord.user_id r = caller_id →
  let client_version := HealthRecord.version r + 1 in
  let first := Coroutine.Start record_id caller_id patch1 client_version in
  let second := Coroutine.Start record_id caller_id patch2 client_version in
  let won (winner loser : Coroutine.t) (w' : World) :=
    (∃ r', records_collection w' !! record_id = Some r'
           ∧ HealthRecord.version r' = client_version
           ∧ (Coroutine.returned winner = true →
              winner = Coroutine.Return (Ok (Some (RecordData (record_id, r')))))
           ∧ (Coroutine.returned loser = true →
              loser = Coroutine.Return
                        (Ok (Some (Conflict (Some record_id) client_version
                                            client_version (Some (record_id, r')))))))
    ∧ (Coroutine.returned winner = true → Coroutine.returned loser = true →
       Coroutine.exactly_one_succeeds client_version winner loser = true) in
  (let '(a, b, w') := Coroutine.interleave (false :: false :: rest) first second w in
   won a b w')
  ∧ (let '(a, b, w') := Coroutine.interleave (true :: true :: rest) first second w in
     won b a w')
  ∧ (let '(a, b, _) :=
       Coroutine.interleave (replicate 4 false ++ replicate 4 true) first second w in
     Coroutine.returned a = true ∧ Coroutine.returned b = true)
  ∧ (let '(a, b, _) :=
       Coroutine.interleave (replicate 4 true ++ replicate 4 false) first second w in
     Coroutine.returned a = true ∧ Coroutine.returned b = true).
Proof.
  intros Hr Hu client_version first second won.
  assert (∀ s p q,
    let '(a, b, w') :=
      Coroutine.interleave (false :: false :: s)
        (Coroutine.Start record_id caller_id p client_version)
        (Coroutine.Start record_id caller_id q client_version) w in
    won a b w') as Hordered.
  { intros s p q. cbn [Coroutine.interleave].
    rewrite (step_Start_accept _ _ _ _ _ _ Hr Hu) by (unfold client_version; lia).
    erewrite step_Update by exact Hr.
    set (fields := HealthRecordsService.update_fields r p client_version (clock w (ticks w))).
    pose proof (interleave_after_write record_id caller_id q client_version
                  (Fields.apply fields r) fields s Hu eq_refl
                  (Coroutine.Audit record_id caller_id fields)
                  (Coroutine.Start record_id caller_id q client_version)
                  (mkWorld (<[record_id := Fields.apply fields r]> (records_collection w))
                           (audit_collection w) (clock w) (S (ticks w)))) as Hinv.
    cbn [records_collection] in Hinv. rewrite lookup_insert_eq in Hinv.
    specialize (Hinv eq_refl (or_introl eq_refl) (or_introl eq_refl)).
    destruct (Coroutine.interleave s _ _ _) as [[a b] w'].
    destruct Hinv as (Hr' & Ha & Hb). split.
    - exists (Fields.apply fields r). done.
    - intros Hra Hrb. rewrite (Ha Hra), (Hb Hrb). unfold Coroutine.exactly_one_succeeds.
      simpl. by rewrite bool_decide_eq_true_2. }
  assert (∀ p q,
    let '(r1, w1) :=
      HealthRecordsService.update_record record_id caller_id p client_version w in
    let '(r2, _) :=
      HealthRecordsService.update_record record_id caller_id q client_version w1 in
    Coroutine.returned (Coroutine.Return r1) = true
    ∧ Coroutine.returned (Coroutine.Return r2) = true) as Hserial.
  { intros p q. by do 2 destruct (HealthRecordsService.update_record _ _ _ _ _). }
  subst first second. split_and!.
  - apply Hordered.
  - pose proof (Hordered (negb <$> rest) patch2 patch1) as H.
    pose proof (interleave_swap (false :: false :: (negb <$> rest))
                  (Coroutine.Start record_id caller_id patch2 client_version)
                  (Coroutine.Start record_id caller_id patch1 client_version) w) as Hswap.
    cbn [fmap list_fmap negb] in Hswap. fold (fmap (M:=list) negb) in Hswap.
    rewrite negb_negb_fmap in Hswap. rewrite Hswap.
    by destruct (Coroutine.interleave (false :: false :: _) _ _ _) as [[a b] w'].
  - rewrite interleave_app, interleave_first, run_update_record.
    specialize (Hserial patch1 patch2).
    destruct (HealthRecordsService.update_record _ _ patch1 _ _) as [r1 w1].
    rewrite interleave_second, run_update_record.
    by destruct (HealthRecordsService.update_record _ _ patch2 _ _) as [r2 w2].
  - rewrite interleave_app, interleave_second, run_update_record.
    specialize (Hserial patch2 patch1).
    destruct (HealthRecordsService.update_record _ _ patch2 _ _) as [r1 w1].
    rewrite interleave_first, run_update_record.
    by destruct (HealthRecordsService.update_record _ _ patch1 _ _) as [r2 w2].
Qed.

(** ** The coroutine of [create_record] *)

Lemma creating_step_Start user_id record_type data client_version created_by w :
  Creating.step (Creating.Start user_id record_type data client_version created_by) w
  = match Spec.latest_existing_version w user_id record_type with
    | Some latest_version =>
        if decide (client_version > 1 ∧ client_version ≤ latest_version)
        then (Creating.Return (Ok (Conflict None latest_version client_version None)), w)
        else Creating.create_new user_id record_type data client_version created_by w
    | None => Creating.create_new user_id record_type data client_version created_by w
    end.
Proof.
  unfold Creating.step.
  destruct (stream_latest_query user_id record_type w) as (docs & Hs & Hl).
  case_decide.
  - rewrite Hs. destruct docs as [|doc docs]; rewrite Hl; [done|].
    destruct (decide (client_version ≤ HealthRecord.version doc.2)).
    + by rewrite decide_True.
    + by rewrite decide_False by tauto.
  - destruct (Spec.latest_existing_version w user_id record_type); [|done].
    by rewrite decide_False by tauto.
Qed.

Lemma creating_create_new user_id record_type data client_version created_by w :
  Creating.create_new user_id record_type data client_version created_by w
  = (Creating.Store user_id
       (HealthRecordsService.new_record user_id record_type data client_version created_by
          (clock w (ticks w)) (clock w (S (ticks w)))),
     mkWorld (records_collection w) (audit_collection w) (clock w) (S (S (ticks w)))).
Proof. done. Qed.

Lemma creating_step_Store user_id record_data w :
  Creating.step (Creating.Store user_id record_data) w
  = (Creating.Audit (fresh (dom (records_collection w))) user_id record_data,
     mkWorld (<[fresh (dom (records_collection w)) := record_data]> (records_collection w))
             (audit_collection w) (clock w) (ticks w)).
Proof. done. Qed.

Lemma creating_step_Audit doc_ref user_id record_data w :
  Creating.step (Creating.Audit doc_ref user_id record_data) w
  = (Creating.Return (Ok (RecordData (doc_ref, record_data))),
     mkWorld (records_collection w)
             (audit_collection w
                ++ [AuditEntry.mk doc_ref "create" user_id (AuditRecord record_data)
                                  (clock w (ticks w))])
             (clock w) (S (ticks w))).
Proof. done. Qed.

(** Run without interruption, the coroutine is [create_record]. *)
Lemma run_create_record user_id record_type data client_version created_by w :
  Creating.run 3 (Creating.Start user_id record_type data client_version created_by) w
  = let '(r, w') :=
      HealthRecordsService.create_record user_id record_type data client_version
        created_by w in
    (Creating.Return r, w').
Proof.
  cbn [Creating.run]. rewrite creating_step_Start, create_record_run.
  destruct (Spec.latest_existing_version w user_id record_type) as [lv|];
    [case_decide|]; done.
Qed.

Lemma creating_interleave_app s1 s2 a b w :
  Creating.interleave (s1 ++ s2) a b w
  = let '(a', b', w') := Creating.interleave s1 a b w in
    Creating.interleave s2 a' b' w'.
Proof.
  revert a b w. induction s1 as [|[] s1 IH]; intros a b w; simpl; [done|..].
  - destruct (Creating.step b w). apply IH.
  - destruct (Creating.step a w). apply IH.
Qed.

Lemma creating_interleave_first n a b w :
  Creating.interleave (replicate n false) a b w
  = let '(a', w') := Creating.run n a w in (a', b, w').
Proof.
  revert a w. induction n as [|n IH]; intros a w; simpl; [done|].
  destruct (Creating.step a w). apply IH.
Qed.

Lemma creating_interleave_second n a b w :
  Creating.interleave (replicate n true) a b w
  = let '(b', w') := Creating.run n b w in (a, b', w').
Proof.
  revert b w. induction n as [|n IH]; intros b w; simpl; [done|].
  destruct (Creating.step b w). apply IH.
Qed.

Lemma creating_interleave_swap s a b w :
  Creating.interleave (negb <$> s) b a w
  = let '(a', b', w') := Creating.interleave s a b w in (b', a', w').
Proof.
  revert a b w. induction s as [|[] s IH]; intros a b w; simpl; [done|..].
  - destruct (Creating.step b w). apply IH.
  - destruct (Creating.step a w). apply IH.
Qed.

(** Once the first request has stored its record, at [client_version], the
    store stays as it is while the two requests finish: the first appends
    its audit entry and returns the record, the second finds
    [client_version] as the latest version and reports the conflict. *)
Lemma creating_after_write user_id record_type data client_version created_by
    doc_ref record_data (records : gmap string HealthRecord.t) s :
  client_version > 1 →
  (∀ w, records_collection w = records →
        Spec.latest_existing_version w user_id record_type = Some client_version) →
  ∀ a b w,
    records_collection w = records →
    a = Creating.Audit doc_ref user_id record_data
    ∨ a = Creating.Return (Ok (RecordData (doc_ref, record_data))) →
    b = Creating.Start user_id record_type data client_version created_by
    ∨ b = Creating.Return (Ok (Conflict None client_version client_version None)) →
    let '(a', b', w') := Creating.interleave s a b w in
    records_collection w' = records
    ∧ (Creating.returned a' = true →
       a' = Creating.Return (Ok (RecordData (doc_ref, record_data))))
    ∧ (Creating.returned b' = true →
       b' = Creating.Return (Ok (Conflict None client_version client_version None))).
Proof.
  intros Hgt Hlatest. induction s as [|[] s IH]; intros a b w Hw Ha Hb; simpl.
  - split_and!; [done|..].
    + destruct Ha as [-> | ->]; done.
    + destruct Hb as [-> | ->]; done.
  - destruct Hb as [-> | ->].
    + rewrite creating_step_Start, (Hlatest w Hw).
      rewrite decide_True by lia. apply IH; auto.
    + apply IH; auto.
  - destruct Ha as [-> | ->].
    + rewrite creating_step_Audit. apply IH; auto.
    + apply IH; auto.
Qed.

(** The record a create request stores is the latest of its pair when its
    version is above what the pair had. *)
Lemma latest_after_create user_id record_type data client_version created_by
    created_at updated_at w w' :
  (∀ lv, Spec.latest_existing_version w user_id record_type = Some lv →
         lv < client_version) →
  records_collection w'
  = <[fresh (dom (records_collection w)) :=
        HealthRecordsService.new_record user_id record_type data client_version
          created_by created_at updated_at]> (records_collection w) →
  Spec.latest_existing_version w' user_id record_type = Some client_version.
Proof.
  intros Hbelow Hw'. apply latest_existing_version_Some. rewrite Hw'. split.
  - eexists _, _. rewrite lookup_insert_eq. split_and!; [done| |done].
    by split_and!.
  - intros id r [[_ <-]|[_ Hr]]%lookup_insert_Some Hp; [simpl; lia|].
    destruct (Spec.latest_existing_version w user_id record_type) as [lv|] eqn:Hl.
    + apply latest_existing_version_Some in Hl as [_ Hmax].
      specialize (Hmax id r Hr Hp). specialize (Hbelow lv eq_refl). lia.
    + pose proof (proj1 (latest_existing_version_None w user_id record_type) Hl) as Hno.
      by destruct (Hno id r Hr).
Qed.

(** The first request stores its record before the second runs its query. *)
Lemma create_write_before_query user_id record_type data1 data2 client_version
    created_by1 created_by2 w rest :
  client_version > 1 →
  (∀ lv, Spec.latest_existing_version w user_id record_type = Some lv →
         lv < client_version) →
  let '(a, b, w') :=
    Creating.interleave (false :: false :: rest)
      (Creating.Start user_id record_type data1 client_version created_by1)
      (Creating.Start user_id record_type data2 client_version created_by2) w in
  ∃ id r',
    records_collection w !! id = None
    ∧ records_collection w' = <[id := r']> (records_collection w)
    ∧ HealthRecord.version r' = client_version
    ∧ HealthRecord.data r' = data1
    ∧ (Creating.returned a = true → a = Creating.Return (Ok (RecordData (id, r'))))
    ∧ (Creating.returned b = true →
       b = Creating.Return (Ok (Conflict None client_version client_version None))).
Proof.
  intros Hgt Hbelow. cbn [Creating.interleave].
  rewrite creating_step_Start.
  assert (match Spec.latest_existing_version w user_id record_type with
          | Some latest_version =>
              if decide (client_version > 1 ∧ client_version ≤ latest_version)
              then (Creating.Return
                      (Ok (Conflict None latest_version client_version None)), w)
              else Creating.create_new user_id record_type data1 client_version
                     created_by1 w
          | None => Creating.create_new user_id record_type data1 client_version
                      created_by1 w
          end
          = Creating.create_new user_id record_type data1 client_version created_by1 w)
    as ->.
  { destruct (Spec.latest_existing_version w user_id record_type) as [lv|]; [|done].
    specialize (Hbelow lv eq_refl). by rewrite decide_False by lia. }
  rewrite creating_create_new, creating_step_Store. cbn [records_collection].
  set (id := fresh (dom (records_collection w))).
  set (r1 := HealthRecordsService.new_record user_id record_type data1 client_version
               created_by1 (clock w (ticks w)) (clock w (S (ticks w)))).
  pose proof (creating_after_write user_id record_type data2 client_version created_by2
                id r1 (<[id := r1]> (records_collection w)) rest Hgt) as Hinv.
  match goal with |- context [Creating.interleave rest ?a ?b ?w1] =>
    specialize (Hinv (λ w' Hw', latest_after_create _ _ _ _ _ _ _ w w' Hbelow Hw')
                  a b w1 eq_refl (or_introl eq_refl) (or_introl eq_refl));
    destruct (Creating.interleave rest a b w1) as [[a' b'] w']
  end.
  destruct Hinv as (Hrec & Ha & Hb). exists id, r1. split_and!; try done.
  apply not_elem_of_dom, is_fresh.
Qed.

(** Run one after the other, the first request creates its record and the
    second receives a Conflict that carries the version the first stored. *)
Lemma create_serial user_id record_type data1 data2 client_version created_by1
    created_by2 w :
  client_version > 1 →
  (∀ lv, Spec.latest_existing_version w user_id record_type = Some lv →
         lv < client_version) →
  let '(a, b, _) :=
    Creating.interleave (replicate 3 false ++ replicate 3 true)
      (Creating.Start user_id record_type data1 client_version created_by1)
      (Creating.Start user_id record_type data2 client_version created_by2) w in
  Creating.created a = true ∧ Creating.conflicted client_version b = true.
Proof.
  intros Hgt Hbelow.
  pose proof (create_write_before_query user_id record_type data1 data2 client_version
                created_by1 created_by2 w [false; true; true; true] Hgt Hbelow) as H.
  change (false :: false :: [false; true; true; true])
    with (replicate 3 false ++ replicate 3 true) in H.
  rewrite creating_interleave_app, creating_interleave_first, run_create_record in *.
  destruct (HealthRecordsService.create_record _ _ data1 _ _ _) as [r1 w1].
  rewrite creating_interleave_second, run_create_record in *.
  destruct (HealthRecordsService.create_record _ _ data2 _ _ _) as [r2 w2].
  destruct H as (id & r' & _ & _ & _ & _ & Ha & Hb).
  rewrite (Ha eq_refl), (Hb eq_refl). cbn. by rewrite bool_decide_eq_true_2.
Qed.

(** C6, as stated, fails, for updates and for creates.  Two updates of the
    same record, each with [client_version = server_version + 1], whose reads
    both come before either write, both succeed; neither receives a
    Conflict, and the payload written by the first is lost.  Two creates for
    the same pair, each with [client_version = 2] while the latest version
    of the pair is 1, whose queries both come before either [set], both
    create a record: the pair ends up with two records at version 2, where
    the second create, run after the first, is a Conflict. *)
Lemma concurrent_writes_both_succeed :
  (let '(a, b, w) :=
     Coroutine.interleave Scenario.racing
       (Coroutine.Start "0" "alice" Scenario.dosage (HealthRecord.version Scenario.record1 + 1))
       (Coroutine.Start "0" "alice" Scenario.inhaler (HealthRecord.version Scenario.record1 + 1))
       Scenario.world1 in
   Coroutine.returned a = true ∧ Coroutine.returned b = true
   ∧ Coroutine.succeeded a = true ∧ Coroutine.succeeded b = true
   ∧ Coroutine.exactly_one_succeeds (HealthRecord.version Scenario.record1 + 1) a b = false
   ∧ ∃ r, records_collection w !! "0" = Some r
          ∧ HealthRecord.version r = 2
          ∧ HealthRecord.data r !! "dosage" = None)
  ∧ (let '(a, b, w) :=
       Creating.interleave Scenario.racing_creates
         (Creating.Start "alice" MEDICAL_HISTORY Scenario.dosage 2 None)
         (Creating.Start "alice" MEDICAL_HISTORY Scenario.inhaler 2 None)
         Scenario.world1 in
     Spec.latest_existing_version Scenario.world1 "alice" MEDICAL_HISTORY = Some 1
     ∧ Creating.created a = true ∧ Creating.created b = true
     ∧ Creating.conflicted 2 a = false ∧ Creating.conflicted 2 b = false
     ∧ ∃ r1 r2, records_collection w !! "1" = Some r1
                ∧ records_collection w !! "2" = Some r2
                ∧ HealthRecord.version r1 = 2 ∧ HealthRecord.version r2 = 2
                ∧ HealthRecord.data r1 = Scenario.dosage
                ∧ HealthRecord.data r2 = Scenario.inhaler)
  ∧ (let '(_, w1) :=
       HealthRecordsService.create_record "alice" MEDICAL_HISTORY Scenario.dosage 2 None
         Scenario.world1 in
     (HealthRecordsService.create_record "alice" MEDICAL_HISTORY Scenario.inhaler 2 None
        w1).1 = Ok (Conflict None 2 2 None)).
Proof.
  split_and!.
  - vm_compute. split_and!; try reflexivity. eexists. split_and!; reflexivity.
  - vm_compute. split_and!; try reflexivity. eexists _, _. split_and!; reflexivity.
  - vm_compute. reflexivity.
Qed.

(** C6, amended.  Neither in [update_record] nor in [create_record] are the
    read of the current version and the write of the new one a single
    operation: each is a store call of its own.  Of two update calls on the
    same record, each with [client_version = server_version + 1]: when the
    write of one comes before the read of the other, however the remaining
    steps interleave, the writer succeeds and the other receives a Conflict
    whose [server_version] is the version the writer stored, so that, once
    both have returned, exactly one has succeeded; run one after the other,
    in either order, both calls return.  Of two create calls for the same
    pair, each with the same [client_version > 1] above the latest version of
    the pair: when the [set] of one comes before the query of the other, the
    first creates its record, the other stores nothing and receives a
    Conflict whose [server_version] is that [client_version]; run one after
    the other, in either order, that is how the two calls return. *)
Theorem write_before_read_decides_the_race (w : World) (rest : list bool) :
  (∀ (record_id caller_id : string) (patch1 patch2 : Payload) (r : HealthRecord.t),
     records_collection w !! record_id = Some r →
     HealthRecord.user_id r = caller_id →
     let client_version := HealthRecord.version r + 1 in
     let first := Coroutine.Start record_id caller_id patch1 client_version in
     let second := Coroutine.Start record_id caller_id patch2 client_version in
     let won (winner loser : Coroutine.t) (w' : World) :=
       (∃ r', records_collection w' !! record_id = Some r'
              ∧ HealthRecord.version r' = client_version
              ∧ (Coroutine.returned winner = true →
                 winner = Coroutine.Return (Ok (Some (RecordData (record_id, r')))))
              ∧ (Coroutine.returned loser = true →
                 loser = Coroutine.Return
                           (Ok (Some (Conflict (Some record_id) client_version
                                               client_version (Some (record_id, r')))))))
       ∧ (Coroutine.returned winner = true → Coroutine.returned loser = true →
          Coroutine.exactly_one_succeeds client_version winner loser = true) in
     (let '(a, b, w') := Coroutine.interleave (false :: false :: rest) first second w in
      won a b w')
     ∧ (let '(a, b, w') := Coroutine.interleave (true :: true :: rest) first second w in
        won b a w')
     ∧ (let '(a, b, _) :=
          Coroutine.interleave (replicate 4 false ++ replicate 4 true) first second w in
        Coroutine.returned a = true ∧ Coroutine.returned b = true)
     ∧ (let '(a, b, _) :=
          Coroutine.interleave (replicate 4 true ++ replicate 4 false) first second w in
        Coroutine.returned a = true ∧ Coroutine.returned b = true))
  ∧ (∀ (owner_id : string) (record_type : RecordType) (data1 data2 : Payload)
       (client_version : Z) (created_by1 created_by2 : option string),
       client_version > 1 →
       (∀ latest_version,
          Spec.latest_existing_version w owner_id record_type = Some latest_version →
          latest_version < client_version) →
       let first :=
         Creating.Start owner_id record_type data1 client_version created_by1 in
       let second :=
         Creating.Start owner_id record_type data2 client_version created_by2 in
       let won (winner loser : Creating.t) (data : Payload) (w' : World) :=
         ∃ id r',
           records_collection w !! id = None
           ∧ records_collection w' = <[id := r']> (records_collection w)
           ∧ HealthRecord.version r' = client_version
           ∧ HealthRecord.data r' = data
           ∧ (Creating.returned winner = true →
              winner = Creating.Return (Ok (RecordData (id, r'))))
           ∧ (Creating.returned loser = true →
              loser = Creating.Return
                        (Ok (Conflict None client_version client_version None))) in
       (let '(a, b, w') := Creating.interleave (false :: false :: rest) first second w in
        won a b data1 w')
       ∧ (let '(a, b, w') := Creating.interleave (true :: true :: rest) first second w in
          won b a data2 w')
       ∧ (let '(a, b, _) :=
            Creating.interleave (replicate 3 false ++ replicate 3 true) first second w in
          Creating.created a = true ∧ Creating.conflicted client_version b = true)
       ∧ (let '(a, b, _) :=
            Creating.interleave (replicate 3 true ++ replicate 3 false) first second w in
          Creating.created b = true ∧ Creating.conflicted client_version a = true)).
Proof.
  split.
  - intros record_id caller_id patch1 patch2 r Hr Hu.
    exact (update_write_before_read record_id caller_id patch1 patch2 w r rest Hr Hu).
  - intros owner_id record_type data1 data2 client_version created_by1 created_by2
      Hgt Hbelow first second won. subst first second won. split_and!.
    + apply create_write_before_query; done.
    + pose proof (create_write_before_query owner_id record_type data2 data1
                    client_version created_by2 created_by1 w (negb <$> rest) Hgt Hbelow)
        as H.
      pose proof (creating_interleave_swap (false :: false :: (negb <$> rest))
                    (Creating.Start owner_id record_type data2 client_version created_by2)
                    (Creating.Start owner_id record_type data1 client_version created_by1)
                    w) as Hswap.
      cbn [fmap list_fmap negb] in Hswap. fold (fmap (M:=list) negb) in Hswap.
      rewrite negb_negb_fmap in Hswap. rewrite Hswap.
      by destruct (Creating.interleave (false :: false :: _) _ _ _) as [[a b] w'].
    + apply create_serial; done.
    + pose proof (create_serial owner_id record_type data2 data1 client_version
                    created_by2 created_by1 w Hgt Hbelow) as H.
      pose proof (creating_interleave_swap (replicate 3 false ++ replicate 3 true)
                    (Creating.Start owner_id record_type data2 client_version created_by2)
                    (Creating.Start owner_id record_type data1 client_version created_by1)
                    w) as Hswap.
      cbn [fmap list_fmap negb replicate app] in Hswap.
      cbn [replicate app]. rewrite Hswap.
      by destruct (Creating.interleave _ _ _ _) as [[a b] w'].
Qed.

Lemma write_before_read_decides_the_race_witness :
  (let '(a, b, _) :=
     Coroutine.interleave [false; false; true; false; true; false; true; true]
       (Coroutine.Start "0" "alice" Scenario.dosage 2)
       (Coroutine.Start "0" "alice" Scenario.inhaler 2) Scenario.world1 in
   Coroutine.exactly_one_succeeds 2 a b = true)
  ∧ (let '(a, b, _) :=
       Coroutine.interleave [true; true; true; true; false; false; false; false]
         (Coroutine.Start "0" "alice" Scenario.dosage 2)
         (Coroutine.Start "0" "alice" Scenario.inhaler 2) Scenario.world1 in
     Coroutine.exactly_one_succeeds 2 b a = true)
  ∧ (∃ id r',
       (Creating.interleave [false; false; true; false]
          (Creating.Start "alice" MEDICAL_HISTORY Scenario.dosage 2 None)
          (Creating.Start "alice" MEDICAL_HISTORY Scenario.inhaler 2 None)
          Scenario.world1).1
       = (Creating.Return (Ok (RecordData (id, r'))),
          Creating.Return (Ok (Conflict None 2 2 None)))
       ∧ HealthRecord.version r' = 2
       ∧ HealthRecord.data r' = Scenario.dosage).
Proof.
  split_and!.
  - destruct (write_before_read_decides_the_race Scenario.world1
                [true; false; true; false; true; true]) as [Hupdate _].
    destruct (Hupdate "0" "alice" Scenario.dosage Scenario.inhaler Scenario.record1)
      as ((_ & H) & _); [reflexivity|reflexivity|].
    apply H; reflexivity.
  - destruct (write_before_read_decides_the_race Scenario.world1
                [true; true; false; false; false; false]) as [Hupdate _].
    destruct (Hupdate "0" "alice" Scenario.dosage Scenario.inhaler Scenario.record1)
      as (_ & (_ & H) & _); [reflexivity|reflexivity|].
    apply H; reflexivity.
  - destruct (write_before_read_decides_the_race Scenario.world1 [true; false])
      as [_ Hcreate].
    destruct (Hcreate "alice" MEDICAL_HISTORY Scenario.dosage Scenario.inhaler 2 None None)
      as (H & _).
    + lia.
    + intros lv Hlv. vm_compute in Hlv. injection Hlv as <-. lia.
    + destruct (Creating.interleave [false; false; true; false] _ _ _) as [[a b] w']
        eqn:E.
      pose proof (f_equal (λ x, Creating.returned x.1.1) E) as Ra.
      pose proof (f_equal (λ x, Creating.returned x.1.2) E) as Rb.
      vm_compute in Ra, Rb.
      destruct H as (id & r' & _ & _ & Hv & Hd & Ha & Hb).
      exists id, r'. cbn [fst]. by rewrite (Ha (eq_sym Ra)), (Hb (eq_sym Rb)).
Defined.

(** ** The version a create request may carry *)

(** The update route rejects a [client_version] below 1 before the service
    is called: the store and the audit trail are untouched. *)
Lemma update_route_rejects_version_below_1 record_id update_data client_version user_id w :
  client_version < 1 →
  Routes.update_record record_id update_data client_version user_id w
  = (Ok HTTP_422_UNPROCESSABLE_ENTITY, w).
Proof.
  intros Hv. unfold Routes.update_record. by rewrite bool_decide_eq_false_2 by lia.
Qed.

Lemma HealthRecordResponse_new_record id user_id record_type data client_version
    created_by created_at updated_at :
  Routes.HealthRecordResponse
    (id, HealthRecordsService.new_record user_id record_type data client_version
           created_by created_at updated_at)
  = Some (id, HealthRecordsService.new_record user_id record_type data client_version
                created_by created_at updated_at).
Proof.
  unfold Routes.HealthRecordResponse. rewrite bool_decide_eq_true_2; [done|].
  apply list_elem_of_fmap. exists record_type. split; [done|].
  destruct record_type; unfold RecordType_members; set_solver.
Qed.

(** The create route has no such check: any request with a non-empty title
    and [client_version <= 1] is answered 201, and a record with that version
    is stored and audited. *)
Lemma create_route_accepts_version_below_1 isoformat record user_id w :
  MedicalHistoryCreate.validate record = true →
  MedicalHistoryCreate.client_version record ≤ 1 →
  ∃ id r e,
    (Routes.create_medical_history isoformat record user_id w).1
    = Ok (HTTP_201_CREATED (id, r))
    ∧ HealthRecord.version r = MedicalHistoryCreate.client_version record
    ∧ records_collection (Routes.create_medical_history isoformat record user_id w).2 !! id
      = Some r
    ∧ audit_collection (Routes.create_medical_history isoformat record user_id w).2
      = audit_collection w ++ [e]
    ∧ AuditEntry.action e = "create".
Proof.
  intros Hvalid Hv. unfold Routes.create_medical_history, Routes.try_except, bind.
  rewrite Hvalid. cbn [negb]. rewrite create_record_run.
  set (payload := list_to_map _).
  assert (match Spec.latest_existing_version w user_id MEDICAL_HISTORY with
          | Some latest_version =>
              if decide (MedicalHistoryCreate.client_version record > 1
                         ∧ MedicalHistoryCreate.client_version record ≤ latest_version)
              then (Ok (Conflict None latest_version
                          (MedicalHistoryCreate.client_version record) None), w)
              else Outcome.created user_id MEDICAL_HISTORY payload
                     (MedicalHistoryCreate.client_version record) (Some user_id) w
          | None => Outcome.created user_id MEDICAL_HISTORY payload
                      (MedicalHistoryCreate.client_version record) (Some user_id) w
          end
          = Outcome.created user_id MEDICAL_HISTORY payload
              (MedicalHistoryCreate.client_version record) (Some user_id) w) as ->.
  { destruct (Spec.latest_existing_version w user_id MEDICAL_HISTORY); [|done].
    by rewrite decide_False by lia. }
  unfold Outcome.created. rewrite HealthRecordResponse_new_record. unfold ret.
  cbn [fst snd records_collection audit_collection].
  eexists _, _, _. split_and!; [done|done|by rewrite lookup_insert_eq|done|done].
Qed.

(** C9, at the failing input: a create request with [client_version = 0] is
    not rejected; it is answered 201, a record with version 0 is stored, and
    an audit entry is produced. *)
Theorem create_medical_history_stores_version_0 (isoformat : datetime → string) :
  ∃ r e,
    Routes.create_medical_history isoformat Scenario.version_zero "alice"
      Scenario.empty_world
    = (Ok (HTTP_201_CREATED ("0", r)),
       mkWorld {[ "0" := r ]} [e] Scenario.clock0 3)
    ∧ HealthRecord.version r = 0
    ∧ AuditEntry.action e = "create".
Proof. eexists _, _. split_and!; vm_compute; reflexivity. Qed.

(** * Further properties of the service *)

(** ** What one call can do to the world *)

Lemma RecordType_value_member t :
  RecordType_value t ∈ RecordType_value <$> RecordType_members.
Proof.
  apply list_elem_of_fmap. exists t. split; [done|].
  destruct t; unfold RecordType_members; set_solver.
Qed.

Lemma call_change c w : Change (caller c) w (call c w).1 (call c w).2.
Proof.
  destruct c as [u t d cv cb|id u|u t p ps incl|id u d cv|id u soft|req u|u];
    unfold call, bind; simpl caller.
  - rewrite create_record_run.
    assert (Change u w
              (Ok (Created (RecordData
                 (fresh (dom (records_collection w)),
                  HealthRecordsService.new_record u t d cv cb (clock w (ticks w))
                    (clock w (S (ticks w)))))))
              (Outcome.created u t d cv cb w).2) as Hcreated.
    { unfold Outcome.created. cbn [snd].
      replace (S (S (S (ticks w)))) with (ticks w + 3)%nat by lia.
      apply Stored; try done.
      - apply not_elem_of_dom, is_fresh.
      - apply RecordType_value_member. }
    destruct (Spec.latest_existing_version w u t) as [lv|]; [case_decide|];
      try exact Hcreated.
    by apply Unchanged.
  - rewrite get_record_run. by apply Unchanged.
  - pose proof (list_records_world u t p ps incl w) as Hw.
    destruct (HealthRecordsService.list_records u t p ps incl w) as [[l|e] w'];
      simpl in *; subst w'; by apply Unchanged.
  - destruct (update_record_cases id u d cv w) as [(r0 & Hr0 & Hu & Hv & ->)|(o & -> & Ho)].
    + cbn [fst snd]. replace (S (S (ticks w))) with (ticks w + 2)%nat by lia.
      apply Patched; try done.
      * by right.
      * by intros v [= <-].
      * set_solver.
    + cbn [fst snd]. apply Unchanged. destruct o as [[rd|]|]; [by destruct (Ho rd)|done..].
  - destruct (Spec.owned w id u) as [rd|] eqn:Ho.
    + apply owned_inv in Ho as (r0 & -> & Hr0 & Hu). destruct soft.
      * rewrite (delete_record_soft _ _ _ _ Hr0 Hu). cbn [fst snd].
        replace (S (S (S (ticks w)))) with (ticks w + 3)%nat by lia.
        apply Patched; try done; [by left|set_solver].
      * rewrite (delete_record_hard _ _ _ _ Hr0 Hu). cbn [fst snd].
        replace (S (ticks w)) with (ticks w + 1)%nat by lia.
        by eapply Removed.
    + rewrite (delete_record_absent _ _ _ _ Ho). by apply Unchanged.
  - destruct (Spec.owned w (HealthRecordsService.record_id req) u) as [rd|] eqn:Ho.
    + apply owned_inv in Ho as (r0 & -> & Hr0 & Hu).
      destruct (resolve_conflict_cases _ _ _ _ Hr0 Hu)
        as [(_ & _ & ->)|[(_ & ->)|(_ & _ & ->)]]; cbn [fst snd].
      * replace (S (S (S (ticks w)))) with (ticks w + 3)%nat by lia.
        apply Patched; try done.
        -- by right.
        -- intros v [= <-]. lia.
        -- set_solver.
      * replace (S (S (ticks w))) with (ticks w + 2)%nat by lia. apply Refused.
      * replace (S (S (S (ticks w)))) with (ticks w + 3)%nat by lia.
        apply Unaudited; try done.
        -- by right.
        -- intros v [= <-]. lia.
    + rewrite (resolve_conflict_absent _ _ _ Ho). by apply Unchanged.
  - unfold HealthRecordsService.get_pending_sync_records.
    match goal with |- context [Firestore.stream ?q w] =>
      pose proof (stream_world q w) as Hw; destruct (Firestore.stream q w) as [[l|e] w']
    end; simpl in *; subst w'; by apply Unchanged.
Qed.

(** ** The audit trail *)

Lemma call_audit c w :
  ∃ new,
    audit_collection (call c w).2 = audit_collection w ++ new
    ∧ length new = (if written (call c w).1 then 1 else 0)%nat
    ∧ Forall (λ e, AuditEntry.user_id e = caller c) new.
Proof.
  destruct (call_change c w) as [reply Hw|id r e n reply ???????? Hw|
                                 id r fields e n reply ???????? Hw|id r e n reply ????? Hw|
                                 n exn|id r fields n exn ?????].
  - exists []. rewrite Hw, app_nil_r. done.
  - exists [e]. rewrite Hw. cbn. split_and!; [done..|]. by constructor.
  - exists [e]. rewrite Hw. cbn. split_and!; [done..|]. by constructor.
  - exists [e]. rewrite Hw. cbn. split_and!; [done..|]. by constructor.
  - exists []. cbn. rewrite app_nil_r. done.
  - exists []. cbn. rewrite app_nil_r. done.
Qed.

Lemma app_singleton_ne {A} (l : list A) (x : A) : l ++ [x] ≠ l.
Proof. intros H. apply (f_equal length) in H. rewrite length_app in H. simpl in H. lia. Qed.

(** The one write that leaves no audit entry. *)
Lemma call_unaudited c w :
  records_collection (call c w).2 ≠ records_collection w →
  audit_collection (call c w).2 = audit_collection w →
  ∃ request user_id,
    c = ResolveConflict request user_id
    ∧ ¬ int64 (HealthRecordsService.chosen_version request)
    ∧ (call c w).1 = Raise ValueError.
Proof.
  destruct c as [u t d cv cb|id u|u t p ps incl|id u d cv|id u soft|req u|u];
    unfold call, bind.
  - rewrite create_record_run.
    destruct (Spec.latest_existing_version w u t) as [lv|]; [case_decide|];
      cbn [fst snd Outcome.created ret audit_collection]; intros Hne Ha;
      solve [done | by apply app_singleton_ne in Ha].
  - rewrite get_record_run. by intros Hne.
  - pose proof (list_records_world u t p ps incl w) as Hw.
    destruct (HealthRecordsService.list_records u t p ps incl w) as [[l|e] w'];
      simpl in *; subst w'; by intros Hne.
  - destruct (update_record_cases id u d cv w) as [(r0 & Hr0 & Hu & Hv & ->)|(o & -> & Ho)];
      cbn [fst snd ret audit_collection]; intros Hne Ha;
      solve [done | by apply app_singleton_ne in Ha].
  - destruct (Spec.owned w id u) as [rd|] eqn:Ho.
    + apply owned_inv in Ho as (r0 & -> & Hr0 & Hu). destruct soft.
      * rewrite (delete_record_soft _ _ _ _ Hr0 Hu). cbn [fst snd ret audit_collection].
        intros _ Ha. by apply app_singleton_ne in Ha.
      * rewrite (delete_record_hard _ _ _ _ Hr0 Hu). cbn [fst snd ret audit_collection].
        intros _ Ha. by apply app_singleton_ne in Ha.
    + rewrite (delete_record_absent _ _ _ _ Ho). by intros Hne.
  - destruct (Spec.owned w (HealthRecordsService.record_id req) u) as [rd|] eqn:Ho.
    + apply owned_inv in Ho as (r0 & -> & Hr0 & Hu).
      destruct (resolve_conflict_cases _ _ _ _ Hr0 Hu)
        as [(_ & _ & ->)|[(_ & ->)|(_ & Hc & ->)]]; cbn [fst snd ret audit_collection].
      * intros _ Ha. by apply app_singleton_ne in Ha.
      * by intros Hne.
      * intros _ _. by exists req, u.
    + rewrite (resolve_conflict_absent _ _ _ Ho). by intros Hne.
  - unfold HealthRecordsService.get_pending_sync_records.
    match goal with |- context [Firestore.stream ?q w] =>
      pose proof (stream_world q w) as Hw; destruct (Firestore.stream q w) as [[l|e] w']
    end; simpl in *; subst w'; by intros Hne.
Qed.

(** X1. The audit trail is append-only.  A call that returns a write (a
    record created, updated, deleted or resolved) appends exactly one entry,
    made out to the caller, and any other call appends none.  The records
    change without an entry in one case only: a conflict resolution whose
    [chosen_version] does not fit in 64 bits, which rewrites the record and
    then raises at the audit entry.  Along any sequence of calls, run one
    after the other, the entries already there stay, in place and
    unchanged, and at most one entry per call is added. *)
Theorem audit_trail_append_only (calls : list Call) (w : World) :
  (∀ c, ∃ new,
     audit_collection (call c w).2 = audit_collection w ++ new
     ∧ length new = (if written (call c w).1 then 1 else 0)%nat
     ∧ Forall (λ e, AuditEntry.user_id e = caller c) new)
  ∧ (∀ c, records_collection (call c w).2 ≠ records_collection w →
          audit_collection (call c w).2 = audit_collection w →
          ∃ request user_id,
            c = ResolveConflict request user_id
            ∧ ¬ int64 (HealthRecordsService.chosen_version request)
            ∧ (call c w).1 = Raise ValueError)
  ∧ audit_collection w `prefix_of` audit_collection (run_calls calls w)
  ∧ (length (audit_collection (run_calls calls w))
     ≤ length (audit_collection w) + length calls)%nat.
Proof.
  split; [intros c; apply call_audit|]. split; [intros c; apply call_unaudited|].
  revert w. induction calls as [|c calls IH]; intros w; simpl.
  - split; [done|lia].
  - destruct (call_audit c w) as (new & Hnew & Hlen & _).
    destruct (IH (call c w).2) as [Hpre Hle]. split.
    + etrans; [|exact Hpre]. rewrite Hnew. by apply prefix_app_r.
    + rewrite Hnew, length_app in Hle. destruct (written _); lia.
Qed.

Lemma audit_trail_append_only_witness :
  ∃ r',
    records_collection
      (call (ResolveConflict Scenario.chosen_too_large "alice") Scenario.world1).2 !! "0"
    = Some r'
    ∧ HealthRecord.version r' = 2
    ∧ audit_collection
        (call (ResolveConflict Scenario.chosen_too_large "alice") Scenario.world1).2
      = audit_collection Scenario.world1
    ∧ (call (ResolveConflict Scenario.chosen_too_large "alice") Scenario.world1).1
      = Raise ValueError.
Proof.
  destruct (audit_trail_append_only [] Scenario.world1) as (_ & Hun & _).
  destruct (Hun (ResolveConflict Scenario.chosen_too_large "alice"))
    as (req & u & _ & _ & Hraise).
  - intros H.
    apply (f_equal (λ m : gmap string HealthRecord.t, HealthRecord.version <$> m !! "0"))
      in H.
    vm_compute in H. discriminate H.
  - vm_compute. reflexivity.
  - eexists. split_and!; [vm_compute; reflexivity|reflexivity|vm_compute; reflexivity|
                          exact Hraise].
Defined.

(** ** Other users' records *)

Lemma call_other_owner c w id r :
  records_collection w !! id = Some r →
  HealthRecord.user_id r ≠ caller c →
  records_collection (call c w).2 !! id = Some r.
Proof.
  intros Hr Hne.
  destruct (call_change c w) as [reply Hw|id' r' e n reply Hfresh ???????? |
                                 id' r' fields e n reply Hr' Hu ???????|
                                 id' r' e n reply Hr' Hu ????|
                                 n exn|id' r' fields n exn Hr' Hu ???];
    cbn [records_collection].
  - done.
  - rewrite lookup_insert_ne; [done|]. intros ->. congruence.
  - rewrite lookup_insert_ne; [done|]. intros ->. congruence.
  - rewrite lookup_delete_ne; [done|]. intros ->. congruence.
  - done.
  - rewrite lookup_insert_ne; [done|]. intros ->. congruence.
Qed.

(** X2. No call changes or removes a record of another user: whatever the
    calls of a sequence are, as long as none is made for the owner of a
    record, the record is stored unchanged at the end. *)
Theorem other_users_records_untouched
    (record_id : string) (r : HealthRecord.t) (calls : list Call) (w : World) :
  records_collection w !! record_id = Some r →
  Forall (λ c, caller c ≠ HealthRecord.user_id r) calls →
  records_collection (run_calls calls w) !! record_id = Some r.
Proof.
  intros Hr Hcalls. revert w Hr.
  induction Hcalls as [|c calls Hc _ IH]; intros w Hr; simpl; [done|].
  apply IH. by apply call_other_owner.
Qed.

Lemma other_users_records_untouched_witness :
  records_collection
    (run_calls [UpdateRecord "0" "mallory" Scenario.dosage 5;
                DeleteRecord "0" "mallory" false;
                ResolveConflict
                  (HealthRecordsService.mkConflictResolutionRequest "0" 9 Scenario.dosage)
                  "mallory";
                CreateRecord "mallory" MEDICAL_HISTORY Scenario.dosage 1 (Some "alice")]
       Scenario.world1) !! "0" = Some Scenario.record1.
Proof.
  apply (other_users_records_untouched "0" Scenario.record1); [reflexivity|].
  repeat constructor; discriminate.
Defined.

(** ** What stays and what only moves one way *)

Lemma call_record_step c w id r r' :
  records_collection w !! id = Some r →
  records_collection (call c w).2 !! id = Some r' →
  HealthRecord.user_id r' = HealthRecord.user_id r
  ∧ HealthRecord.record_type r' = HealthRecord.record_type r
  ∧ HealthRecord.created_at r' = HealthRecord.created_at r
  ∧ HealthRecord.created_by r' = HealthRecord.created_by r
  ∧ (HealthRecord.is_deleted r = true → HealthRecord.is_deleted r' = true)
  ∧ (is_Some (HealthRecord.deleted_at r) → is_Some (HealthRecord.deleted_at r'))
  ∧ (is_Some (HealthRecord.conflict_resolved_at r) →
     is_Some (HealthRecord.conflict_resolved_at r')).
Proof.
  intros Hr.
  assert (∀ fields,
            Fields.is_deleted fields ≠ Some false →
            records_collection w !! id = Some r →
            <[id := Fields.apply fields r]> (records_collection w) !! id = Some r' →
            HealthRecord.user_id r' = HealthRecord.user_id r
            ∧ HealthRecord.record_type r' = HealthRecord.record_type r
            ∧ HealthRecord.created_at r' = HealthRecord.created_at r
            ∧ HealthRecord.created_by r' = HealthRecord.created_by r
            ∧ (HealthRecord.is_deleted r = true → HealthRecord.is_deleted r' = true)
            ∧ (is_Some (HealthRecord.deleted_at r) → is_Some (HealthRecord.deleted_at r'))
            ∧ (is_Some (HealthRecord.conflict_resolved_at r) →
               is_Some (HealthRecord.conflict_resolved_at r'))) as Hpatched.
  { intros fields Hdel _. rewrite lookup_insert_eq. intros [= <-].
    unfold Fields.apply. cbn. split_and!; try done.
    - intros Hd. destruct (Fields.is_deleted fields) as [[]|]; cbn; congruence.
    - intros Hs. by destruct (Fields.deleted_at fields).
    - intros Hs. by destruct (Fields.conflict_resolved_at fields). }
  destruct (call_change c w) as [reply Hw|id' r0 e n reply Hfresh ???????? |
                                 id' r0 fields e n reply Hr0 Hu Hdel ??????|
                                 id' r0 e n reply Hr0 Hu ????|
                                 n exn|id' r0 fields n exn Hr0 Hu Hdel ??];
    cbn [records_collection].
  - rewrite Hr. by intros [= <-].
  - rewrite lookup_insert_ne by (intros ->; congruence). rewrite Hr. by intros [= <-].
  - destruct (decide (id' = id)) as [->|Hne].
    + rewrite Hr in Hr0. injection Hr0 as <-. by apply Hpatched.
    + rewrite lookup_insert_ne by done. rewrite Hr. by intros [= <-].
  - destruct (decide (id' = id)) as [->|Hne].
    + by rewrite lookup_delete_eq.
    + rewrite lookup_delete_ne by done. rewrite Hr. by intros [= <-].
  - rewrite Hr. by intros [= <-].
  - destruct (decide (id' = id)) as [->|Hne].
    + rewrite Hr in Hr0. injection Hr0 as <-. by apply Hpatched.
    + rewrite lookup_insert_ne by done. rewrite Hr. by intros [= <-].
Qed.

(** X3. For as long as a document exists, along any sequence of calls: its
    owner, its record type, its creation time and its author never change;
    once it is soft-deleted it stays so (no call clears [is_deleted]), and
    [deleted_at] and [conflict_resolved_at], once set, stay set. *)
Theorem record_identity_and_deletion_are_permanent
    (record_id : string) (r : HealthRecord.t) (calls : list Call) (w : World) :
  records_collection w !! record_id = Some r →
  Forall (λ r',
            HealthRecord.user_id r' = HealthRecord.user_id r
            ∧ HealthRecord.record_type r' = HealthRecord.record_type r
            ∧ HealthRecord.created_at r' = HealthRecord.created_at r
            ∧ HealthRecord.created_by r' = HealthRecord.created_by r
            ∧ (HealthRecord.is_deleted r = true → HealthRecord.is_deleted r' = true)
            ∧ (is_Some (HealthRecord.deleted_at r) → is_Some (HealthRecord.deleted_at r'))
            ∧ (is_Some (HealthRecord.conflict_resolved_at r) →
               is_Some (HealthRecord.conflict_resolved_at r')))
         (record_history record_id calls w).
Proof.
  revert w r. induction calls as [|c calls IH]; intros w r Hr; simpl; [constructor|].
  pose proof (call_record_step c w record_id r) as Hstep.
  destruct (call c w) as [res w']. simpl in Hstep.
  destruct (records_collection w' !! record_id) as [r'|] eqn:Hr'; [|constructor].
  specialize (Hstep r' Hr eq_refl). constructor; [done|].
  eapply Forall_impl; [apply (IH w' r' Hr')|]. simpl.
  intros r'' H. destruct Hstep as (E1 & E2 & E3 & E4 & ? & ? & ?).
  destruct H as (F1 & F2 & F3 & F4 & ? & ? & ?).
  split_and!; [congruence..|auto|auto|auto].
Qed.

Lemma record_identity_and_deletion_are_permanent_witness :
  let calls :=
    [UpdateRecord "0" "alice" Scenario.dosage 2;
     ResolveConflict
       (HealthRecordsService.mkConflictResolutionRequest "0" 1 Scenario.asthma) "alice";
     DeleteRecord "0" "alice" true;
     UpdateRecord "0" "alice" Scenario.dosage 9] in
  length (record_history "0" calls Scenario.world1_deleted) = 4%nat
  ∧ Forall (λ r', HealthRecord.is_deleted r' = true ∧ HealthRecord.created_at r' = 1000)
           (record_history "0" calls Scenario.world1_deleted).
Proof.
  intros calls. split; [vm_compute; reflexivity|].
  eapply Forall_impl;
    [apply (record_identity_and_deletion_are_permanent "0" Scenario.record1_deleted calls
              Scenario.world1_deleted); reflexivity|].
  simpl. intros r' (_ & _ & Hc & _ & Hd & _). split; [by apply Hd|exact Hc].
Defined.

(** ** [sync_status] and [record_type] *)

Lemma call_all_synced c w : all_synced w → all_synced (call c w).2.
Proof.
  intros Hall id r.
  destruct (call_change c w) as [reply Hw|id' r0 e n reply Hfresh ? Hs ?????? |
                                 id' r0 fields e n reply Hr0 Hu Hdel Hs ?????|
                                 id' r0 e n reply Hr0 Hu ????|
                                 n exn|id' r0 fields n exn Hr0 Hu Hdel Hs ?];
    cbn [records_collection].
  - apply Hall.
  - intros [[-> <-]|[_ Hr]]%lookup_insert_Some; [done|by eapply Hall].
  - intros [[-> <-]|[_ Hr]]%lookup_insert_Some; [|by eapply Hall].
    unfold Fields.apply. cbn. destruct Hs as [->| ->]; cbn; [by eapply Hall|done].
  - intros [_ Hr]%lookup_delete_Some. by eapply Hall.
  - apply Hall.
  - intros [[-> <-]|[_ Hr]]%lookup_insert_Some; [|by eapply Hall].
    unfold Fields.apply. cbn. destruct Hs as [->| ->]; cbn; [by eapply Hall|done].
Qed.

Lemma call_typed c w : typed w → typed (call c w).2.
Proof.
  intros Hall id r.
  destruct (call_change c w) as [reply Hw|id' r0 e n reply Hfresh ? Hs ? Ht ???? |
                                 id' r0 fields e n reply Hr0 Hu Hdel Hs ?????|
                                 id' r0 e n reply Hr0 Hu ????|
                                 n exn|id' r0 fields n exn Hr0 Hu Hdel Hs ?];
    cbn [records_collection].
  - apply Hall.
  - intros [[-> <-]|[_ Hr]]%lookup_insert_Some; [done|by eapply Hall].
  - intros [[-> <-]|[_ Hr]]%lookup_insert_Some; [|by eapply Hall].
    unfold Fields.apply. cbn. by eapply Hall.
  - intros [_ Hr]%lookup_delete_Some. by eapply Hall.
  - apply Hall.
  - intros [[-> <-]|[_ Hr]]%lookup_insert_Some; [|by eapply Hall].
    unfold Fields.apply. cbn. by eapply Hall.
Qed.

Lemma run_calls_invariant (P : World → Prop) calls w :
  (∀ c w, P w → P (call c w).2) → P w → P (run_calls calls w).
Proof.
  intros Hstep. revert w. induction calls as [|c calls IH]; intros w Hw; simpl; [done|].
  apply IH. by apply Hstep.
Qed.

Lemma pending_elem user_id w d :
  d ∈ match (HealthRecordsService.get_pending_sync_records user_id w).1 with
      | Ok l => l
      | Raise _ => []
      end
  ↔ records_collection w !! d.1 = Some d.2
    ∧ HealthRecord.user_id d.2 = user_id
    ∧ HealthRecord.sync_status d.2 = "pending".
Proof.
  unfold HealthRecordsService.get_pending_sync_records, Firestore.stream,
    Firestore.window, Firestore.ordered, Firestore.matches. cbn.
  rewrite merge_sort_Permutation, list_elem_of_filter, elem_of_map_to_list'.
  unfold HealthRecordsService.where_user_id, HealthRecordsService.where_sync_status.
  rewrite !andb_true_iff, !bool_decide_eq_true. tauto.
Qed.

(** X4. Nothing the service writes is ever pending: every write sets
    [sync_status] to [synced], so, from a store whose documents are all
    synced (the empty store for one), after any sequence of calls all
    documents are synced and [get_pending_sync_records] returns the empty
    list for every user. *)
Theorem nothing_is_ever_pending (calls : list Call) (w : World) (user_id : string) :
  all_synced w →
  all_synced (run_calls calls w)
  ∧ HealthRecordsService.get_pending_sync_records user_id (run_calls calls w)
    = (Ok [], run_calls calls w).
Proof.
  intros Hall.
  assert (all_synced (run_calls calls w)) as Hall'.
  { apply run_calls_invariant; [apply call_all_synced|done]. }
  split; [done|]. set (w' := run_calls calls w) in *.
  pose proof (pending_elem user_id w') as Hel.
  unfold HealthRecordsService.get_pending_sync_records in *.
  destruct (stream_Ok_window
              (Firestore.mkQuery
                 [HealthRecordsService.where_user_id user_id;
                  HealthRecordsService.where_sync_status "pending"] None None None)
              w' eq_refl eq_refl) as [l Hl].
  rewrite Hl in *. cbn [fst] in Hel. f_equal. f_equal.
  apply elem_of_nil_inv. intros d Hd. apply Hel in Hd as (Hr & _ & Hs).
  apply Hall' in Hr. congruence.
Qed.

Lemma nothing_is_ever_pending_witness :
  HealthRecordsService.get_pending_sync_records "alice"
    (run_calls [CreateRecord "alice" MEDICAL_HISTORY Scenario.asthma 1 None;
                UpdateRecord "0" "alice" Scenario.dosage 2;
                DeleteRecord "0" "alice" true] Scenario.empty_world)
  = (Ok [],
     run_calls [CreateRecord "alice" MEDICAL_HISTORY Scenario.asthma 1 None;
                UpdateRecord "0" "alice" Scenario.dosage 2;
                DeleteRecord "0" "alice" true] Scenario.empty_world).
Proof.
  apply (nothing_is_ever_pending
           [CreateRecord "alice" MEDICAL_HISTORY Scenario.asthma 1 None;
            UpdateRecord "0" "alice" Scenario.dosage 2;
            DeleteRecord "0" "alice" true] Scenario.empty_world "alice").
  intros id r Hr. unfold Scenario.empty_world in Hr. cbn [records_collection] in Hr.
  by rewrite lookup_empty in Hr.
Defined.

(** X5. [get_pending_sync_records] never changes the world and returns, each
    once, exactly the documents of the user whose [sync_status] is [pending];
    it has no filter on [is_deleted], so a soft-deleted document that is
    pending is returned too. *)
Theorem pending_records_of_user (user_id : string) (w : World) :
  ∃ l,
    HealthRecordsService.get_pending_sync_records user_id w = (Ok l, w)
    ∧ NoDup l.*1
    ∧ ∀ id r, (id, r) ∈ l
              ↔ records_collection w !! id = Some r
                ∧ HealthRecord.user_id r = user_id
                ∧ HealthRecord.sync_status r = "pending".
Proof.
  pose proof (pending_elem user_id w) as Hel.
  unfold HealthRecordsService.get_pending_sync_records in *.
  destruct (stream_Ok_window
              (Firestore.mkQuery
                 [HealthRecordsService.where_user_id user_id;
                  HealthRecordsService.where_sync_status "pending"] None None None)
              w eq_refl eq_refl) as [l Hl].
  exists l. split; [done|]. split.
  - unfold Firestore.stream in Hl. cbn in Hl. injection Hl as <-.
    unfold Firestore.window, Firestore.ordered. cbn.
    rewrite merge_sort_Permutation.
    eapply sublist_NoDup; [apply (NoDup_fst_map_to_list (records_collection w))|].
    apply fmap_sublist, sublist_filter.
  - intros id r. rewrite Hl in Hel. apply (Hel (id, r)).
Qed.

(** ** Operations on documents that are not there *)

(** X6. A hard delete by the owner removes the document and appends one
    audit entry with action [hard_delete]; the earlier audit entries stay.
    Afterwards the record is gone for its owner too: [get_record] returns
    [None], and an update, a second delete and a conflict resolution are
    answered as for a record that never existed, without touching the
    world. *)
Theorem hard_delete_removes_the_document
    (record_id owner_id : string) (w : World) (r : HealthRecord.t) :
  records_collection w !! record_id = Some r →
  HealthRecord.user_id r = owner_id →
  let deleted := HealthRecordsService.delete_record record_id owner_id false w in
  deleted.1 = Ok true
  ∧ records_collection deleted.2 = delete record_id (records_collection w)
  ∧ (∃ e, audit_collection deleted.2 = audit_collection w ++ [e]
          ∧ AuditEntry.action e = "hard_delete"
          ∧ AuditEntry.record_id e = record_id
          ∧ AuditEntry.user_id e = owner_id
          ∧ AuditEntry.data e = AuditEmpty)
  ∧ HealthRecordsService.get_record record_id owner_id deleted.2 = (Ok None, deleted.2)
  ∧ (∀ patch client_version,
       HealthRecordsService.update_record record_id owner_id patch client_version deleted.2
       = (Ok None, deleted.2))
  ∧ (∀ soft_delete,
       HealthRecordsService.delete_record record_id owner_id soft_delete deleted.2
       = (Ok false, deleted.2))
  ∧ (∀ request,
       HealthRecordsService.record_id request = record_id →
       HealthRecordsService.resolve_conflict request owner_id deleted.2
       = (Ok None, deleted.2)).
Proof.
  intros Hr Hu deleted. unfold deleted. rewrite (delete_record_hard _ _ _ _ Hr Hu).
  cbn [fst snd records_collection audit_collection].
  match goal with |- context [HealthRecordsService.get_record _ _ ?w'] =>
    assert (Spec.owned w' record_id owner_id = None) as Ho
  end.
  { unfold Spec.owned. cbn [records_collection]. by rewrite lookup_delete_eq. }
  split_and!; try done.
  - by eexists.
  - by rewrite get_record_run, Ho.
  - intros. by apply update_record_absent.
  - intros. by apply delete_record_absent.
  - intros request <-. by apply resolve_conflict_absent.
Qed.

Lemma hard_delete_removes_the_document_witness :
  (HealthRecordsService.delete_record "0" "alice" false Scenario.world1).1 = Ok true
  ∧ records_collection
      (HealthRecordsService.delete_record "0" "alice" false Scenario.world1).2 = ∅
  ∧ (HealthRecordsService.get_record "0" "alice"
       (HealthRecordsService.delete_record "0" "alice" false Scenario.world1).2).1
    = Ok None.
Proof.
  destruct (hard_delete_removes_the_document "0" "alice" Scenario.world1 Scenario.record1)
    as (H1 & H2 & _ & H3 & _); [reflexivity..|].
  split_and!; [done| |by rewrite H3].
  rewrite H2. apply delete_singleton_eq.
Defined.

(** X7. For a record that does not exist and for one that belongs to another
    user alike, an update, a delete (soft or hard) and a conflict resolution
    return the not-found value and leave the store, the audit trail and the
    clock exactly as they were. *)
Theorem writes_to_missing_or_foreign_records_do_nothing
    (record_id caller_id : string) (w : World) :
  (records_collection w !! record_id = None
   ∨ ∃ r, records_collection w !! record_id = Some r
          ∧ HealthRecord.user_id r ≠ caller_id) →
  (∀ patch client_version,
     HealthRecordsService.update_record record_id caller_id patch client_version w
     = (Ok None, w))
  ∧ (∀ soft_delete,
       HealthRecordsService.delete_record record_id caller_id soft_delete w
       = (Ok false, w))
  ∧ (∀ request,
       HealthRecordsService.record_id request = record_id →
       HealthRecordsService.resolve_conflict request caller_id w = (Ok None, w)).
Proof.
  intros H.
  assert (Spec.owned w record_id caller_id = None) as Ho.
  { unfold Spec.owned. destruct H as [->|(r & -> & Hne)]; [done|]. by rewrite decide_False. }
  split_and!.
  - intros. by apply update_record_absent.
  - intros. by apply delete_record_absent.
  - intros request <-. by apply resolve_conflict_absent.
Qed.

Lemma writes_to_missing_or_foreign_records_do_nothing_witness :
  HealthRecordsService.update_record "0" "mallory" Scenario.dosage 9 Scenario.world1
  = (Ok None, Scenario.world1)
  ∧ HealthRecordsService.delete_record "0" "mallory" false Scenario.world1
    = (Ok false, Scenario.world1)
  ∧ HealthRecordsService.delete_record "7" "alice" true Scenario.world1
    = (Ok false, Scenario.world1).
Proof.
  destruct (writes_to_missing_or_foreign_records_do_nothing "0" "mallory" Scenario.world1)
    as (Hu & Hd & _).
  { right. exists Scenario.record1. split; [reflexivity|discriminate]. }
  destruct (writes_to_missing_or_foreign_records_do_nothing "7" "alice" Scenario.world1)
    as (_ & Hd' & _).
  { left. reflexivity. }
  split_and!; [apply Hu|apply Hd|apply Hd'].
Defined.

(** ** How the operations compose *)

Lemma create_record_created user_id record_type data client_version created_by w :
  Spec.is_conflict
    (HealthRecordsService.create_record user_id record_type data client_version
       created_by w) = false →
  HealthRecordsService.create_record user_id record_type data client_version created_by w
  = Outcome.created user_id record_type data client_version created_by w.
Proof.
  rewrite create_record_run.
  destruct (Spec.latest_existing_version w user_id record_type) as [lv|]; [|done].
  by case_decide.
Qed.

(** X8. A create that is not a Conflict can be read back: the id it returns
    was not in the collection, every document that was there is still there
    unchanged, [get_record] with the new id returns to the owner exactly the
    record that create returned and nothing to anybody else (the author
    named in [created_by] included), and the record is live, synced, stamped
    from the clock and attributed to [created_by], or to the owner when
    [created_by] is missing or empty. *)
Theorem created_record_is_read_back
    (owner_id : string) (record_type : RecordType) (payload : Payload)
    (client_version : Z) (created_by : option string) (w : World) :
  let created :=
    HealthRecordsService.create_record owner_id record_type payload client_version
      created_by w in
  Spec.is_conflict created = false →
  ∃ id r,
    created.1 = Ok (RecordData (id, r))
    ∧ records_collection w !! id = None
    ∧ (∀ id' r', records_collection w !! id' = Some r' →
                 records_collection created.2 !! id' = Some r')
    ∧ size (records_collection created.2) = S (size (records_collection w))
    ∧ HealthRecordsService.get_record id owner_id created.2 = (Ok (Some (id, r)), created.2)
    ∧ (∀ other, other ≠ owner_id →
                HealthRecordsService.get_record id other created.2 = (Ok None, created.2))
    ∧ HealthRecord.created_by r
      = match created_by with
        | Some author => if decide (author = "") then owner_id else author
        | None => owner_id
        end
    ∧ HealthRecord.created_at r = clock w (ticks w)
    ∧ HealthRecord.updated_at r = clock w (S (ticks w))
    ∧ HealthRecord.is_deleted r = false
    ∧ HealthRecord.sync_status r = "synced"
    ∧ HealthRecord.deleted_at r = None.
Proof.
  intros created Hok. unfold created in *. rewrite (create_record_created _ _ _ _ _ _ Hok).
  unfold Outcome.created. cbn [fst snd records_collection].
  assert (records_collection w !! fresh (dom (records_collection w)) = None) as Hfresh.
  { apply not_elem_of_dom, is_fresh. }
  eexists _, _. split_and!; try done.
  - intros id' r' Hr'. rewrite lookup_insert_ne; [done|]. intros <-. congruence.
  - by apply map_size_insert_None.
  - rewrite get_record_run. erewrite owned_Some; [done| |done].
    cbn [records_collection]. by rewrite lookup_insert_eq.
  - intros other Hne. rewrite get_record_run. unfold Spec.owned.
    cbn [records_collection]. rewrite lookup_insert_eq. by rewrite decide_False.
Qed.

Lemma created_record_is_read_back_witness :
  ∃ id r,
    (HealthRecordsService.create_record "alice" PRESCRIPTION Scenario.dosage 1
       (Some "dr_bose") Scenario.world1).1 = Ok (RecordData (id, r))
    ∧ HealthRecord.created_by r = "dr_bose"
    ∧ (HealthRecordsService.get_record id "dr_bose"
         (HealthRecordsService.create_record "alice" PRESCRIPTION Scenario.dosage 1
            (Some "dr_bose") Scenario.world1).2).1 = Ok None.
Proof.
  destruct (created_record_is_read_back "alice" PRESCRIPTION Scenario.dosage 1
              (Some "dr_bose") Scenario.world1)
    as (id & r & H1 & _ & _ & _ & _ & Hother & Hby & _); [reflexivity|].
  exists id, r. split_and!; [done|by rewrite Hby|].
  rewrite Hother; [done|discriminate].
Defined.

(** X9. Soft-deleted records do not shadow a create: once the owner has
    soft-deleted the only live record of an owner/type pair, a create for
    that pair is accepted whatever [client_version] it carries, also one far
    below the version of the deleted record. *)
Theorem create_after_soft_delete_is_accepted
    (record_id owner_id : string) (record_type : RecordType) (w : World)
    (r : HealthRecord.t) (payload : Payload) (client_version : Z)
    (created_by : option string) :
  records_collection w !! record_id = Some r →
  HealthRecord.user_id r = owner_id →
  (∀ id' r', id' ≠ record_id → records_collection w !! id' = Some r' →
             ¬ Spec.of_pair owner_id record_type r') →
  let deleted := HealthRecordsService.delete_record record_id owner_id true w in
  let created :=
    HealthRecordsService.create_record owner_id record_type payload client_version
      created_by deleted.2 in
  Spec.latest_existing_version deleted.2 owner_id record_type = None
  ∧ ∃ id r',
      created.1 = Ok (RecordData (id, r'))
      ∧ id ≠ record_id
      ∧ HealthRecord.version r' = client_version
      ∧ records_collection created.2 !! id = Some r'.
Proof.
  intros Hr Hu Honly deleted created. unfold created, deleted.
  rewrite (delete_record_soft _ _ _ _ Hr Hu). cbn [snd].
  match goal with |- Spec.latest_existing_version ?w' _ _ = None ∧ _ =>
    assert (Spec.latest_existing_version w' owner_id record_type = None) as Hnone
  end.
  { apply latest_existing_version_None. cbn [records_collection].
    intros id' r' [[<- <-]|[Hne Hr']]%lookup_insert_Some.
    - intros (_ & _ & Hd). unfold Fields.apply in Hd. cbn in Hd. done.
    - by eapply Honly. }
  split; [done|]. rewrite create_record_run, Hnone. unfold Outcome.created.
  cbn [fst snd records_collection]. eexists _, _. split_and!; try done.
  - intros Heq.
    match type of Heq with fresh (dom ?m) = _ =>
      apply (is_fresh (dom m)); rewrite Heq
    end.
    apply elem_of_dom. rewrite lookup_insert_eq. by eexists.
  - by rewrite lookup_insert_eq.
Qed.

Lemma create_after_soft_delete_is_accepted_witness :
  Spec.is_conflict
    (HealthRecordsService.create_record "alice" MEDICAL_HISTORY Scenario.dosage 2 None
       Scenario.world3) = true
  ∧ ∃ id r',
      (HealthRecordsService.create_record "alice" MEDICAL_HISTORY Scenario.dosage 2 None
         (HealthRecordsService.delete_record "0" "alice" true Scenario.world3).2).1
      = Ok (RecordData (id, r'))
      ∧ HealthRecord.version r' = 2.
Proof.
  split; [vm_compute; reflexivity|].
  destruct (create_after_soft_delete_is_accepted "0" "alice" MEDICAL_HISTORY Scenario.world3
              (HealthRecordsService.new_record "alice" MEDICAL_HISTORY Scenario.asthma 3
                 None 1000 1001) Scenario.dosage 2 None)
    as (_ & id & r' & H1 & _ & H2 & _); [reflexivity|reflexivity| |by exists id, r'].
  intros id' r' Hne Hr'. unfold Scenario.world3 in Hr'. cbn [records_collection] in Hr'.
  by rewrite lookup_singleton_ne in Hr'.
Defined.

(** X10. Once an update at [client_version] is accepted, every later update
    of that record carrying a version at most [client_version] (a replay of
    the same request for one) is answered with a Conflict whose
    [server_version] is [client_version] and whose [server_data] is the
    record the accepted update returned, and changes nothing. *)
Theorem replayed_update_is_rejected
    (record_id owner_id : string) (patch : Payload) (client_version : Z)
    (w : World) (r : HealthRecord.t) :
  records_collection w !! record_id = Some r →
  HealthRecord.user_id r = owner_id →
  HealthRecord.version r < client_version →
  let updated :=
    HealthRecordsService.update_record record_id owner_id patch client_version w in
  ∃ r',
    updated.1 = Ok (Some (RecordData (record_id, r')))
    ∧ ∀ patch' stale_version,
        stale_version ≤ client_version →
        HealthRecordsService.update_record record_id owner_id patch' stale_version updated.2
        = (Ok (Some (Conflict (Some record_id) client_version stale_version
                              (Some (record_id, r')))), updated.2).
Proof.
  intros Hr Hu Hv updated. unfold updated.
  rewrite (update_record_accept _ _ _ _ _ _ Hr Hu Hv). cbn [fst snd].
  set (r1 := Fields.apply (HealthRecordsService.update_fields r patch client_version
                             (clock w (ticks w))) r).
  exists r1. split; [done|]. intros patch' stale Hstale.
  rewrite (update_record_conflict _ _ _ _ _ r1); [done| |done|done].
  cbn [records_collection]. by rewrite lookup_insert_eq.
Qed.

Lemma replayed_update_is_rejected_witness :
  ∃ r',
    (HealthRecordsService.update_record "0" "alice" Scenario.dosage 2 Scenario.world1).1
    = Ok (Some (RecordData ("0", r')))
    ∧ (HealthRecordsService.update_record "0" "alice" Scenario.dosage 2
         (HealthRecordsService.update_record "0" "alice" Scenario.dosage 2
            Scenario.world1).2).1
      = Ok (Some (Conflict (Some "0") 2 2 (Some ("0", r')))).
Proof.
  destruct (replayed_update_is_rejected "0" "alice" Scenario.dosage 2 Scenario.world1
              Scenario.record1) as (r' & H1 & H2); [reflexivity|reflexivity|simpl; lia|].
  exists r'. split; [done|]. rewrite (H2 Scenario.dosage 2); [done|lia].
Defined.



(** ** Listings *)

(** X12. [list_records] never returns a listing.  Whatever the arguments
    and the store, the call raises and leaves the world as it was:
    [InvalidArgument], from the page query, when [page_size] or the offset
    [(page - 1) * page_size] is negative; otherwise the page is read and the
    count, which hands an asynchronous generator to [sum], raises
    [TypeError]. *)
Theorem list_records_never_returns
    (user_id : string) (record_type : option RecordType) (page page_size : Z)
    (include_deleted : bool) (w : World) :
  HealthRecordsService.list_records user_id record_type page page_size include_deleted w
  = (Raise (if decide (page_size < 0 ∨ (page - 1) * page_size < 0)
            then InvalidArgument else TypeError), w)
  ∧ (∀ result,
       (HealthRecordsService.list_records user_id record_type page page_size
          include_deleted w).1 ≠ Ok result)
  ∧ (¬ (page_size < 0 ∨ (page - 1) * page_size < 0) →
     ∃ docs,
       Firestore.stream
         (HealthRecordsService.page_query user_id record_type page page_size
            include_deleted) w
       = (Ok docs, w)).
Proof.
  destruct (list_records_raises user_id record_type page page_size include_deleted w)
    as (e & He & Ht & Hi).
  rewrite He. split_and!.
  - case_decide as Hneg; [by rewrite Hi|rewrite Ht; [done|lia..]].
  - done.
  - intros Hneg. unfold Firestore.stream, HealthRecordsService.page_query.
    cbn [Firestore.limit Firestore.offset Firestore.negative].
    rewrite (proj2 (Z.ltb_ge _ _)) by lia. rewrite (proj2 (Z.ltb_ge _ _)) by lia.
    cbn [orb]. by eexists.
Qed.

Lemma list_records_never_returns_witness :
  HealthRecordsService.list_records "alice" None 1 2 false Scenario2.crowded
  = (Raise TypeError, Scenario2.crowded)
  ∧ HealthRecordsService.list_records "alice" None 1 (-1) false Scenario2.crowded
    = (Raise InvalidArgument, Scenario2.crowded)
  ∧ ∃ docs,
      Firestore.stream (HealthRecordsService.page_query "alice" None 1 2 false)
        Scenario2.crowded = (Ok docs, Scenario2.crowded)
      ∧ docs.*1 = ["b"; "d"].
Proof.
  destruct (list_records_never_returns "alice" None 1 2 false Scenario2.crowded)
    as (H1 & _ & _).
  destruct (list_records_never_returns "alice" None 1 (-1) false Scenario2.crowded)
    as (H2 & _ & _).
  split_and!; [exact H1|exact H2|].
  eexists. split; vm_compute; reflexivity.
Defined.

(** * Properties of the routes *)

Lemma HealthRecordResponse_typed w id r :
  typed w → records_collection w !! id = Some r →
  Routes.HealthRecordResponse (id, r) = Some (id, Routes.response_fields r).
Proof.
  intros Ht Hr. unfold Routes.HealthRecordResponse.
  rewrite bool_decide_eq_true_2; [done|]. by eapply Ht.
Qed.

Lemma not_owned w record_id user_id :
  (records_collection w !! record_id = None
   ∨ ∃ r, records_collection w !! record_id = Some r ∧ HealthRecord.user_id r ≠ user_id)
  ↔ Spec.owned w record_id user_id = None.
Proof.
  unfold Spec.owned. destruct (records_collection w !! record_id) as [r|]; [|by split; auto].
  case_decide; split.
  - intros [?|(r' & [= <-] & ?)]; done.
  - done.
  - done.
  - intros _. right. eauto.
Qed.

(** X15. The route that reads one record answers 200 when the caller owns
    the record, with the fields the response model declares: the payload,
    the version and [is_deleted] are in the body, [deleted_at] and
    [conflict_resolved_at] are not.  It answers 404, with the very same
    answer, both when the document does not exist and when it belongs to
    someone else; it never changes the world.  (On a store whose record
    types are all members of [RecordType].) *)
Theorem get_route_200_or_404 (record_id user_id : string) (w : World) :
  typed w →
  (∀ r, records_collection w !! record_id = Some r →
        HealthRecord.user_id r = user_id →
        ∃ body,
          Endpoints.get_record record_id user_id w = (Ok (HTTP_200_OK (record_id, body)), w)
          ∧ body = Routes.response_fields r
          ∧ HealthRecord.data body = HealthRecord.data r
          ∧ HealthRecord.version body = HealthRecord.version r
          ∧ HealthRecord.is_deleted body = HealthRecord.is_deleted r
          ∧ HealthRecord.deleted_at body = None
          ∧ HealthRecord.conflict_resolved_at body = None)
  ∧ ((records_collection w !! record_id = None
      ∨ ∃ r, records_collection w !! record_id = Some r
             ∧ HealthRecord.user_id r ≠ user_id) →
     Endpoints.get_record record_id user_id w = (Ok HTTP_404_NOT_FOUND, w)).
Proof.
  intros Ht. unfold Endpoints.get_record, Routes.try_except, bind.
  rewrite get_record_run. split.
  - intros r Hr Hu. rewrite (owned_Some _ _ _ _ Hr Hu).
    rewrite (HealthRecordResponse_typed _ _ _ Ht Hr). by eexists.
  - intros Hno. apply not_owned in Hno. by rewrite Hno.
Qed.

Lemma typed_world1 : typed Scenario.world1.
Proof.
  intros id r Hr. unfold Scenario.world1 in Hr. cbn [records_collection] in Hr.
  apply lookup_singleton_Some in Hr as [_ <-]. apply RecordType_value_member.
Qed.

Lemma typed_world1_deleted : typed Scenario.world1_deleted.
Proof.
  intros id r Hr. unfold Scenario.world1_deleted in Hr. cbn [records_collection] in Hr.
  apply lookup_singleton_Some in Hr as [_ <-]. apply RecordType_value_member.
Qed.

Lemma get_route_200_or_404_witness :
  (∃ body,
     Endpoints.get_record "0" "alice" Scenario.world1_deleted
     = (Ok (HTTP_200_OK ("0", body)), Scenario.world1_deleted)
     ∧ HealthRecord.is_deleted body = true
     ∧ HealthRecord.deleted_at body = None)
  ∧ HealthRecord.deleted_at Scenario.record1_deleted = Some 1003
  ∧ Endpoints.get_record "0" "mallory" Scenario.world1
    = (Ok HTTP_404_NOT_FOUND, Scenario.world1)
  ∧ Endpoints.get_record "7" "mallory" Scenario.world1
    = (Ok HTTP_404_NOT_FOUND, Scenario.world1).
Proof.
  destruct (get_route_200_or_404 "0" "alice" Scenario.world1_deleted typed_world1_deleted)
    as [Hok _].
  destruct (get_route_200_or_404 "0" "mallory" Scenario.world1 typed_world1) as [_ Hforeign].
  destruct (get_route_200_or_404 "7" "mallory" Scenario.world1 typed_world1) as [_ Habsent].
  split_and!.
  - destruct (Hok Scenario.record1_deleted) as (body & H1 & -> & _ & _ & H2 & H3 & _);
      [reflexivity..|].
    eexists. split_and!; [exact H1|reflexivity|reflexivity].
  - reflexivity.
  - apply Hforeign. right. exists Scenario.record1. split; [reflexivity|discriminate].
  - apply Habsent. left. reflexivity.
Defined.

(** X16. The update route answers 422, before the service is called, when
    [client_version < 1]; otherwise 404 when the caller owns no such record.
    When [client_version <= server_version] the service reports the conflict,
    but the 409 the route raises for it carries the stored record, which
    cannot be rendered, and the answer is 500; the world is left alone in all
    three cases.  In the remaining case the answer is 200, with the response
    fields of the updated record, stored with [version = client_version].
    The route never answers 409. *)
Theorem update_route_statuses
    (record_id : string) (patch : Payload) (client_version : Z) (user_id : string)
    (w : World) :
  typed w →
  let answer := Routes.update_record record_id patch client_version user_id w in
  (client_version < 1 → answer = (Ok HTTP_422_UNPROCESSABLE_ENTITY, w))
  ∧ (1 ≤ client_version →
     (records_collection w !! record_id = None
      ∨ ∃ r, records_collection w !! record_id = Some r
             ∧ HealthRecord.user_id r ≠ user_id) →
     answer = (Ok HTTP_404_NOT_FOUND, w))
  ∧ (∀ r, 1 ≤ client_version →
          records_collection w !! record_id = Some r →
          HealthRecord.user_id r = user_id →
          (client_version ≤ HealthRecord.version r →
           HealthRecordsService.update_record record_id user_id patch client_version w
           = (Ok (Some (Conflict (Some record_id) (HealthRecord.version r) client_version
                                 (Some (record_id, r)))), w)
           ∧ answer = (Ok HTTP_500_INTERNAL_SERVER_ERROR, w))
          ∧ (HealthRecord.version r < client_version →
             ∃ r', answer.1 = Ok (HTTP_200_OK (record_id, Routes.response_fields r'))
                   ∧ records_collection answer.2 !! record_id = Some r'
                   ∧ HealthRecord.version r' = client_version))
  ∧ (∀ server_version version server_data,
       answer.1 ≠ Ok (HTTP_409_CONFLICT server_version version server_data)).
Proof.
  intros Ht answer. unfold answer.
  assert (∀ r, 1 ≤ client_version →
            records_collection w !! record_id = Some r →
            HealthRecord.user_id r = user_id →
            HealthRecord.version r < client_version →
            ∃ r', (Routes.update_record record_id patch client_version user_id w).1
                  = Ok (HTTP_200_OK (record_id, Routes.response_fields r'))
                  ∧ records_collection
                      (Routes.update_record record_id patch client_version user_id w).2
                    !! record_id = Some r'
                  ∧ HealthRecord.version r' = client_version) as H200.
  { intros r Hv Hr Hu Hcmp.
    unfold Routes.update_record. rewrite bool_decide_eq_true_2 by done. cbn [negb].
    unfold Routes.try_except, bind.
    rewrite (update_record_accept _ _ _ _ _ _ Hr Hu Hcmp).
    unfold Routes.HealthRecordResponse.
    rewrite bool_decide_eq_true_2 by exact (Ht _ _ Hr).
    eexists. cbn [fst snd ret records_collection].
    split_and!; [done|by rewrite lookup_insert_eq|done]. }
  assert (∀ r, 1 ≤ client_version →
            records_collection w !! record_id = Some r →
            HealthRecord.user_id r = user_id →
            client_version ≤ HealthRecord.version r →
            Routes.update_record record_id patch client_version user_id w
            = (Ok HTTP_500_INTERNAL_SERVER_ERROR, w)) as H500.
  { intros r Hv Hr Hu Hcmp.
    unfold Routes.update_record. rewrite bool_decide_eq_true_2 by done. cbn [negb].
    unfold Routes.try_except, bind.
    by rewrite (update_record_conflict _ _ _ _ _ _ Hr Hu Hcmp). }
  assert (1 ≤ client_version → Spec.owned w record_id user_id = None →
          Routes.update_record record_id patch client_version user_id w
          = (Ok HTTP_404_NOT_FOUND, w)) as H404.
  { intros Hv Hno.
    unfold Routes.update_record. rewrite bool_decide_eq_true_2 by done. cbn [negb].
    unfold Routes.try_except, bind. by rewrite (update_record_absent _ _ _ _ _ Hno). }
  split_and!.
  - intros. by apply update_route_rejects_version_below_1.
  - intros Hv Hno. apply H404; [done|]. by apply not_owned.
  - intros r Hv Hr Hu. split; intros Hcmp.
    + split; [by apply update_record_conflict|by eapply H500].
    + by eapply H200.
  - intros sv v sd. destruct (decide (client_version < 1)) as [Hlt|Hge].
    + by rewrite update_route_rejects_version_below_1.
    + destruct (Spec.owned w record_id user_id) as [rd|] eqn:Ho.
      * apply owned_inv in Ho as (r & -> & Hr & Hu).
        destruct (decide (client_version ≤ HealthRecord.version r)) as [Hcmp|Hcmp].
        -- rewrite (H500 r) by (done || lia). done.
        -- destruct (H200 r) as (r' & -> & _); [lia|done|done|lia|done].
      * rewrite H404 by (done || lia). done.
Qed.

Lemma update_route_statuses_witness :
  Routes.update_record "0" Scenario.dosage 0 "alice" Scenario.world1
  = (Ok HTTP_422_UNPROCESSABLE_ENTITY, Scenario.world1)
  ∧ Routes.update_record "0" Scenario.dosage 1 "alice" Scenario.world1
    = (Ok HTTP_500_INTERNAL_SERVER_ERROR, Scenario.world1)
  ∧ Routes.update_record "0" Scenario.dosage 2 "mallory" Scenario.world1
    = (Ok HTTP_404_NOT_FOUND, Scenario.world1)
  ∧ ∃ r', (Routes.update_record "0" Scenario.dosage 2 "alice" Scenario.world1).1
          = Ok (HTTP_200_OK ("0", Routes.response_fields r'))
          ∧ HealthRecord.version r' = 2.
Proof.
  destruct (update_route_statuses "0" Scenario.dosage 0 "alice" Scenario.world1
              typed_world1) as (H422 & _).
  destruct (update_route_statuses "0" Scenario.dosage 1 "alice" Scenario.world1
              typed_world1) as (_ & _ & H500 & _).
  destruct (update_route_statuses "0" Scenario.dosage 2 "mallory" Scenario.world1
              typed_world1) as (_ & H404 & _).
  destruct (update_route_statuses "0" Scenario.dosage 2 "alice" Scenario.world1
              typed_world1) as (_ & _ & H200 & _).
  split_and!.
  - apply H422. lia.
  - apply (H500 Scenario.record1); [lia|reflexivity|reflexivity|simpl; lia].
  - apply H404; [lia|]. right. exists Scenario.record1. split; [reflexivity|discriminate].
  - destruct (H200 Scenario.record1) as [_ H]; [lia|reflexivity|reflexivity|].
    destruct H as (r' & H1 & _ & H2); [simpl; lia|]. by exists r'.
Defined.

(** X17. The delete route answers 404 and changes nothing when the caller
    owns no such record, and 200 otherwise; with [soft_delete] (the default)
    the document stays in the store, flagged, and without it the document is
    gone; either way one audit entry is appended. *)
Theorem delete_route_200_or_404
    (record_id user_id : string) (soft_delete : bool) (w : World) :
  let answer := Endpoints.delete_record record_id soft_delete user_id w in
  ((records_collection w !! record_id = None
    ∨ ∃ r, records_collection w !! record_id = Some r
           ∧ HealthRecord.user_id r ≠ user_id) →
   answer = (Ok NOT_FOUND, w))
  ∧ (∀ r, records_collection w !! record_id = Some r →
          HealthRecord.user_id r = user_id →
          answer.1 = Ok (OK "Record deleted successfully")
          ∧ (if soft_delete
             then ∃ r', records_collection answer.2 !! record_id = Some r'
                        ∧ HealthRecord.is_deleted r' = true
                        ∧ HealthRecord.data r' = HealthRecord.data r
             else records_collection answer.2 !! record_id = None)
          ∧ length (audit_collection answer.2) = S (length (audit_collection w))).
Proof.
  intros answer. unfold answer, Endpoints.delete_record, Endpoints.try_except, bind. split.
  - intros Hno. apply not_owned in Hno. by rewrite (delete_record_absent _ _ _ _ Hno).
  - intros r Hr Hu. destruct soft_delete.
    + rewrite (delete_record_soft _ _ _ _ Hr Hu).
      cbn [fst snd ret records_collection audit_collection].
      rewrite length_app. split_and!; [done| |simpl; lia].
      eexists. by rewrite lookup_insert_eq.
    + rewrite (delete_record_hard _ _ _ _ Hr Hu).
      cbn [fst snd ret records_collection audit_collection].
      rewrite length_app, lookup_delete_eq. split_and!; [done|done|simpl; lia].
Qed.

Lemma delete_route_200_or_404_witness :
  Endpoints.delete_record "0" true "mallory" Scenario.world1 = (Ok NOT_FOUND, Scenario.world1)
  ∧ (Endpoints.delete_record "0" true "alice" Scenario.world1).1
    = Ok (OK "Record deleted successfully")
  ∧ records_collection (Endpoints.delete_record "0" false "alice" Scenario.world1).2 !! "0"
    = None.
Proof.
  destruct (delete_route_200_or_404 "0" "mallory" true Scenario.world1) as [H404 _].
  destruct (delete_route_200_or_404 "0" "alice" true Scenario.world1) as [_ Hsoft].
  destruct (delete_route_200_or_404 "0" "alice" false Scenario.world1) as [_ Hhard].
  split_and!.
  - apply H404. right. exists Scenario.record1. split; [reflexivity|discriminate].
  - apply (Hsoft Scenario.record1); reflexivity.
  - apply (Hhard Scenario.record1); reflexivity.
Defined.



(** X19. The list route answers 422, without touching the store, unless
    [page >= 1] and [1 <= page_size <= 100].  Within those bounds it never
    answers 200: [list_records] raises at its count on every call, and the
    route answers 500, having changed nothing. *)
Theorem list_route_bounds
    (record_type : option RecordType) (page page_size : Z) (user_id : string) (w : World) :
  let answer := Endpoints.list_records record_type page page_size user_id w in
  (page < 1 ∨ page_size < 1 ∨ 100 < page_size → answer = (Ok UNPROCESSABLE_ENTITY, w))
  ∧ (1 ≤ page → 1 ≤ page_size ≤ 100 →
     HealthRecordsService.list_records user_id record_type page page_size false w
     = (Raise TypeError, w)
     ∧ answer = (Ok INTERNAL_SERVER_ERROR, w)).
Proof.
  intros answer. unfold answer, Endpoints.list_records. split.
  - intros Hbad.
    assert (bool_decide (1 ≤ page) && bool_decide (1 ≤ page_size)
            && bool_decide (page_size ≤ 100) = false) as ->; [|done].
    destruct Hbad as [?|[?|?]].
    + by rewrite (bool_decide_eq_false_2 (1 ≤ page)) by lia.
    + rewrite (bool_decide_eq_false_2 (1 ≤ page_size)) by lia. by rewrite andb_false_r.
    + rewrite (bool_decide_eq_false_2 (page_size ≤ 100)) by lia. by rewrite andb_false_r.
  - intros Hpage [Hlo Hhi]. rewrite !bool_decide_eq_true_2 by lia. cbn [andb negb].
    unfold Endpoints.try_except, bind.
    destruct (list_records_raises user_id record_type page page_size false w)
      as (e & -> & Ht & _).
    rewrite Ht by nia. done.
Qed.

Lemma list_route_bounds_witness :
  Endpoints.list_records None 1 101 "alice" Scenario.world1
  = (Ok UNPROCESSABLE_ENTITY, Scenario.world1)
  ∧ Endpoints.list_records None 0 20 "alice" Scenario.world1
    = (Ok UNPROCESSABLE_ENTITY, Scenario.world1)
  ∧ Endpoints.list_records None 1 20 "alice" Scenario.world1
    = (Ok INTERNAL_SERVER_ERROR, Scenario.world1).
Proof.
  destruct (list_route_bounds None 1 101 "alice" Scenario.world1) as [H1 _].
  destruct (list_route_bounds None 0 20 "alice" Scenario.world1) as [H2 _].
  destruct (list_route_bounds None 1 20 "alice" Scenario.world1) as [_ H3].
  split_and!; [apply H1; lia|apply H2; lia|apply H3; lia].
Defined.

Lemma created_by_or_twice author user_id :
  HealthRecordsService.created_by_or
    (Some (HealthRecordsService.created_by_or author user_id)) user_id
  = HealthRecordsService.created_by_or author user_id.
Proof.
  unfold HealthRecordsService.created_by_or.
  destruct author as [a|]; repeat case_decide; congruence.
Qed.

(** X20. A prescription posted for a patient is either refused with 409 and
    the latest stored version, nothing being written, or stored as a record
    of type [prescription] that belongs to the patient, at the version the
    request carries, with [created_by] naming the doctor of the request, or
    the patient when the request names no doctor (or an empty one).  Being
    the author gives no access: for anyone but the patient, the doctor
    included, the route that reads the record answers 404. *)
Theorem prescription_belongs_to_the_patient
    (isoformat : datetime → string) (record : PrescriptionCreate.t) (patient : string)
    (w : World) :
  let answer := Endpoints.create_prescription isoformat record patient w in
  let client_version := PrescriptionCreate.client_version record in
  (∃ server_version,
     answer = (Ok (HTTP_409_CONFLICT server_version client_version None), w)
     ∧ Spec.latest_existing_version w patient PRESCRIPTION = Some server_version
     ∧ client_version > 1 ∧ client_version ≤ server_version)
  ∨ (∃ id r,
       answer.1 = Ok (HTTP_201_CREATED (id, r))
       ∧ records_collection w !! id = None
       ∧ records_collection answer.2 !! id = Some r
       ∧ HealthRecord.user_id r = patient
       ∧ HealthRecord.record_type r = "prescription"
       ∧ HealthRecord.version r = client_version
       ∧ HealthRecord.created_by r
         = match PrescriptionCreate.doctor_id record with
           | Some doctor => if decide (doctor = "") then patient else doctor
           | None => patient
           end
       ∧ ∀ reader, reader ≠ patient →
           Endpoints.get_record id reader answer.2 = (Ok HTTP_404_NOT_FOUND, answer.2)).
Proof.
  intros answer client_version. unfold answer, client_version.
  unfold Endpoints.create_prescription, Routes.try_except, bind.
  rewrite create_record_run. set (payload := list_to_map _).
  assert (∀ cb, let created :=
            Outcome.created patient PRESCRIPTION payload
              (PrescriptionCreate.client_version record)
              (Some (HealthRecordsService.created_by_or cb patient)) w in
          ∃ id r,
            created.1 = Ok (RecordData (id, r))
            ∧ Endpoints.created_response (RecordData (id, r)) created.2
              = (Ok (HTTP_201_CREATED (id, r)), created.2)
            ∧ records_collection w !! id = None
            ∧ records_collection created.2 !! id = Some r
            ∧ HealthRecord.user_id r = patient
            ∧ HealthRecord.record_type r = "prescription"
            ∧ HealthRecord.version r = PrescriptionCreate.client_version record
            ∧ HealthRecord.created_by r = HealthRecordsService.created_by_or cb patient
            ∧ ∀ reader, reader ≠ patient →
                Endpoints.get_record id reader created.2
                = (Ok HTTP_404_NOT_FOUND, created.2)) as Hcreated.
  { intros cb. unfold Outcome.created. cbn [fst snd records_collection].
    eexists _, _. split_and!; try done.
    - apply not_elem_of_dom, is_fresh.
    - by rewrite lookup_insert_eq.
    - cbn. apply created_by_or_twice.
    - intros reader Hne. unfold Endpoints.get_record, Routes.try_except, bind.
      rewrite get_record_run. unfold Spec.owned. cbn [records_collection].
      rewrite lookup_insert_eq. by rewrite decide_False. }
  destruct (Spec.latest_existing_version w patient PRESCRIPTION) as [lv|] eqn:Hlatest;
    [case_decide as Hc|].
  - left. exists lv. by destruct Hc.
  - right. destruct (Hcreated (PrescriptionCreate.doctor_id record))
      as (id & r & H1 & H2 & H3 & H4 & H5 & H6 & H7 & H8 & H9).
    destruct (Outcome.created _ _ _ _ _ _) as [res w']. cbn [fst snd] in *. subst res.
    rewrite H2. cbn [fst snd]. exists id, r. split_and!; done.
  - right. destruct (Hcreated (PrescriptionCreate.doctor_id record))
      as (id & r & H1 & H2 & H3 & H4 & H5 & H6 & H7 & H8 & H9).
    destruct (Outcome.created _ _ _ _ _ _) as [res w']. cbn [fst snd] in *. subst res.
    rewrite H2. cbn [fst snd]. exists id, r. split_and!; done.
Qed.

(** X23. With a clock that never runs backwards, the audit entry of a write
    is stamped no earlier than the write itself: whenever a call writes
    (creates, updates, deletes or resolves a record), the one audit entry it
    appends has a [timestamp] at or after the [updated_at] of the record the
    call left in the store. *)
Theorem audit_entry_not_before_the_write (c : Call) (w : World) :
  clock_monotone w →
  written (call c w).1 = true →
  ∃ e,
    audit_collection (call c w).2 = audit_collection w ++ [e]
    ∧ AuditEntry.user_id e = caller c
    ∧ ∀ r', records_collection (call c w).2 !! AuditEntry.record_id e = Some r' →
            HealthRecord.updated_at r' ≤ AuditEntry.timestamp e.
Proof.
  intros Hmono.
  destruct c as [u t d cv cb|id u|u t p ps incl|id u d cv|id u soft|req u|u];
    unfold call, bind; cbn [caller].
  - rewrite create_record_run.
    destruct (Spec.latest_existing_version w u t) as [lv|]; [case_decide|]; try done;
      intros _; unfold Outcome.created, ret;
      cbn [fst snd audit_collection records_collection];
      (eexists; split_and!; [done|done|]; cbn [AuditEntry.record_id AuditEntry.timestamp];
       rewrite lookup_insert_eq; intros r' [= <-]; cbn; apply Hmono; lia).
  - by rewrite get_record_run.
  - pose proof (list_records_world u t p ps incl w).
    by destruct (HealthRecordsService.list_records u t p ps incl w) as [[l|e] w'].
  - destruct (update_record_cases id u d cv w) as [(r0 & Hr0 & Hu & Hv & ->)|(o & -> & Ho)].
    + intros _. unfold ret. cbn [fst snd audit_collection records_collection].
      eexists; split_and!; [done|done|]. cbn [AuditEntry.record_id AuditEntry.timestamp].
      rewrite lookup_insert_eq. intros r' [= <-]. cbn. apply Hmono. lia.
    + cbn. destruct o as [[rd|]|]; [by destruct (Ho rd)|done..].
  - destruct (Spec.owned w id u) as [rd|] eqn:Ho.
    + apply owned_inv in Ho as (r0 & -> & Hr0 & Hu). destruct soft.
      * rewrite (delete_record_soft _ _ _ _ Hr0 Hu). intros _. unfold ret.
        cbn [fst snd audit_collection records_collection].
        eexists; split_and!; [done|done|]. cbn [AuditEntry.record_id AuditEntry.timestamp].
        rewrite lookup_insert_eq. intros r' [= <-]. cbn. apply Hmono. lia.
      * rewrite (delete_record_hard _ _ _ _ Hr0 Hu). intros _. unfold ret.
        cbn [fst snd audit_collection records_collection].
        eexists; split_and!; [done|done|]. cbn [AuditEntry.record_id].
        by rewrite lookup_delete_eq.
    + by rewrite (delete_record_absent _ _ _ _ Ho).
  - destruct (Spec.owned w (HealthRecordsService.record_id req) u) as [rd|] eqn:Ho.
    + apply owned_inv in Ho as (r0 & -> & Hr0 & Hu).
      destruct (resolve_conflict_cases _ _ _ _ Hr0 Hu)
        as [(_ & _ & ->)|[(_ & ->)|(_ & _ & ->)]]; [|done..].
      intros _. unfold ret.
      cbn [fst snd audit_collection records_collection].
      eexists; split_and!; [done|done|]. cbn [AuditEntry.record_id AuditEntry.timestamp].
      rewrite lookup_insert_eq. intros r' [= <-]. cbn. apply Hmono. lia.
    + by rewrite (resolve_conflict_absent _ _ _ Ho).
  - unfold HealthRecordsService.get_pending_sync_records.
    match goal with |- context [Firestore.stream ?q w] =>
      by destruct (Firestore.stream q w) as [[l|e] w']
    end.
Qed.

Lemma audit_entry_not_before_the_write_witness :
  ∃ e,
    audit_collection (call (UpdateRecord "0" "alice" Scenario.dosage 2) Scenario.world1).2
    = audit_collection Scenario.world1 ++ [e]
    ∧ AuditEntry.timestamp e = 1004.
Proof.
  destruct (audit_entry_not_before_the_write (UpdateRecord "0" "alice" Scenario.dosage 2)
              Scenario.world1) as (e & He & _).
  - intros i j Hij. unfold Scenario.world1, Scenario.clock0. cbn [clock]. lia.
  - reflexivity.
  - exists e. split; [done|].
    assert (audit_collection Scenario.world1 ++ [e]
            = audit_collection Scenario.world1
              ++ [AuditEntry.mk "0" "update" "alice"
                    (AuditFields (HealthRecordsService.update_fields Scenario.record1
                                    Scenario.dosage 2 1003)) 1004]) as Heq.
    { rewrite <- He. vm_compute. reflexivity. }
    apply app_inv_head in Heq. by injection Heq as ->.
Defined.

(** * The payload under updates *)

(** X24. An accepted update can add payload keys and overwrite them, each
    value as a whole, but it never removes one: every key of the stored
    payload is still there afterwards, and those the patch does not name
    keep their values.  An empty patch leaves the payload exactly as it was,
    and is still a write: the version becomes [client_version] and an audit
    entry is appended. *)
Theorem update_never_removes_a_payload_key
    (record_id owner_id : string) (patch : Payload) (client_version : Z)
    (w : World) (r : HealthRecord.t) :
  records_collection w !! record_id = Some r →
  HealthRecord.user_id r = owner_id →
  HealthRecord.version r < client_version →
  let updated :=
    HealthRecordsService.update_record record_id owner_id patch client_version w in
  ∃ r',
    records_collection updated.2 !! record_id = Some r'
    ∧ dom (HealthRecord.data r') = dom patch ∪ dom (HealthRecord.data r)
    ∧ (∀ k v, patch !! k = Some v → HealthRecord.data r' !! k = Some v)
    ∧ (∀ k, patch !! k = None → HealthRecord.data r' !! k = HealthRecord.data r !! k)
    ∧ (patch = ∅ →
       HealthRecord.data r' = HealthRecord.data r
       ∧ HealthRecord.version r' = client_version
       ∧ length (audit_collection updated.2) = S (length (audit_collection w))).
Proof.
  intros Hr Hu Hv updated. unfold updated.
  rewrite (update_record_accept _ _ _ _ _ _ Hr Hu Hv).
  cbn [fst snd records_collection audit_collection]. rewrite lookup_insert_eq.
  eexists. split; [done|].
  change (HealthRecord.data (Fields.apply _ r)) with (patch ∪ HealthRecord.data r).
  split_and!.
  - apply dom_union_L.
  - intros k v Hk. by apply lookup_union_Some_l.
  - intros k Hk. by apply lookup_union_r.
  - intros ->. rewrite (left_id_L ∅ (∪)), length_app. split_and!; [done|done|simpl; lia].
Qed.

Lemma update_never_removes_a_payload_key_witness :
  ∃ r',
    records_collection
      (HealthRecordsService.update_record "0" "alice" Scenario.dosage 2 Scenario.world1).2
      !! "0" = Some r'
    ∧ dom (HealthRecord.data r') = {["dosage"; "title"]}.
Proof.
  destruct (update_never_removes_a_payload_key "0" "alice" Scenario.dosage 2 Scenario.world1
              Scenario.record1) as (r' & H1 & H2 & _);
    [reflexivity|reflexivity|simpl; lia|].
  exists r'. split; [done|]. rewrite H2.
  unfold Scenario.dosage, Scenario.record1, Scenario.asthma. cbn [HealthRecord.data
    HealthRecordsService.new_record]. by rewrite !dom_singleton_L.
Defined.
